(** * DataVibe: the data pipeline of [src/index.js]

    A shallow embedding of the data-transformation and chart-preparation
    functions of the application, and the properties of its specification
    that concern them.

    - JavaScript numbers are IEEE 754 binary64 values, modelled by
      [spec_float] with the operations of [SpecFloat] at precision 53.
    - JavaScript strings are sequences of code units; the model works on
      strings whose code units are below 256 (Latin-1), which is what a
      Rocq [string] holds.
    - Row objects are finite maps from column names to primitive values;
      an absent key reads as [undefined].
    - Objects that are iterated ([for ... in], [Object.entries]) keep
      their keys in JavaScript's property order; those that the code
      creates as [{}] and fills under keys taken from the data inherit
      the properties of [Object.prototype], which is modelled as the
      engine creates it.
    - Datasets live in a heap of objects addressed by references, so that
      copies and sharing are visible. *)

From Stdlib Require Import ZArith List String Ascii Bool Lia.
From Stdlib Require Import Floats.SpecFloat DecimalString Sorting.Permutation Sorting.Sorted.
From stdpp Require Import gmap strings list.

Local Open Scope string_scope.

(** ** Numbers *)

Module Num.

Definition number := spec_float.

Definition prec : Z := 53.
Definition emax : Z := 1024.

Definition NaN : number := S754_nan.
Definition zero : number := S754_zero false.
Definition Infinity : number := S754_infinity false.

Definition add : number -> number -> number := SFadd prec emax.
Definition sub : number -> number -> number := SFsub prec emax.
Definition mul : number -> number -> number := SFmul prec emax.
Definition div : number -> number -> number := SFdiv prec emax.
Definition neg : number -> number := SFopp.

(** [x === y], [x < y], [x > y], [x >= y] on numbers. *)
Definition eqb : number -> number -> bool := SFeqb.
Definition ltb : number -> number -> bool := SFltb.
Definition gtb (x y : number) : bool := SFltb y x.
Definition geb (x y : number) : bool := SFleb y x.

Definition isNaN (x : number) : bool :=
  match x with S754_nan => true | _ => false end.

(** The number nearest to an integer. *)
Definition of_Z (z : Z) : number := binary_normalize prec emax z 0 false.
Definition of_nat (n : nat) : number := of_Z (Z.of_nat n).

(** The number nearest to the decimal [m * 10^e] ([m >= 0]), with the
    sign [sg]; a zero mantissa keeps the sign. *)
Definition of_decimal (sg : bool) (m : Z) (e : Z) : number :=
  match m with
  | Zpos p =>
      match e with
      | Zneg k =>
          SFdiv prec emax (S754_finite sg p 0) (S754_finite false (Pos.pow 10 k) 0)
      | _ =>
          binary_normalize prec emax (if sg then (- (m * 10 ^ e))%Z else (m * 10 ^ e)%Z) 0 false
      end
  | _ => S754_zero sg
  end.

(** The sign a comparator result has for [Array.prototype.sort]:
    [NaN] counts as zero. *)
Definition sign (x : number) : comparison :=
  match x with
  | S754_zero _ | S754_nan => Eq
  | S754_infinity s | S754_finite s _ _ => if s then Lt else Gt
  end.

End Num.

Abbreviation number := Num.number.

(** ** Strings *)

Module Str.

Definition code (c : ascii) : nat := nat_of_ascii c.

Definition isDigit (c : ascii) : bool :=
  (48 <=? code c)%nat && (code c <=? 57)%nat.

Definition digitVal (c : ascii) : Z := Z.of_nat (code c - 48).

(** White space and line terminators of ECMAScript below U+0100. *)
Definition isWhite (c : ascii) : bool :=
  let n := code c in
  ((9 <=? n)%nat && (n <=? 13)%nat) || (n =? 32)%nat || (n =? 160)%nat.

Fixpoint trimStart (s : string) : string :=
  match s with
  | String c r => if isWhite c then trimStart r else s
  | EmptyString => EmptyString
  end.

Fixpoint trimEnd (s : string) : string :=
  match s with
  | String c r =>
      match trimEnd r with
      | EmptyString => if isWhite c then EmptyString else String c EmptyString
      | r' => String c r'
      end
  | EmptyString => EmptyString
  end.

Definition trim (s : string) : string := trimEnd (trimStart s).

(** [s.replace(/[class]/g, '')]: drop every code unit of the class. *)
Fixpoint remove (cls : ascii -> bool) (s : string) : string :=
  match s with
  | String c r => if cls c then remove cls r else String c (remove cls r)
  | EmptyString => EmptyString
  end.

(** [/[class]/.test(s)] *)
Fixpoint any (cls : ascii -> bool) (s : string) : bool :=
  match s with
  | String c r => cls c || any cls r
  | EmptyString => false
  end.

Definition isEmpty (s : string) : bool :=
  match s with EmptyString => true | _ => false end.

Fixpoint startsWith (p s : string) : bool :=
  match p, s with
  | EmptyString, _ => true
  | String a p', String b s' => Ascii.eqb a b && startsWith p' s'
  | _, EmptyString => false
  end.

(** [s.includes(p)] *)
Fixpoint includes (s p : string) : bool :=
  startsWith p s ||
  match s with
  | String _ r => includes r p
  | EmptyString => false
  end.

(** [toLowerCase] on code units below U+0100. *)
Definition lowerChar (c : ascii) : ascii :=
  let n := code c in
  if ((65 <=? n)%nat && (n <=? 90)%nat)
     || ((192 <=? n)%nat && (n <=? 222)%nat && negb (n =? 215)%nat)
  then ascii_of_nat (n + 32) else c.

Fixpoint toLowerCase (s : string) : string :=
  match s with
  | String c r => String (lowerChar c) (toLowerCase r)
  | EmptyString => EmptyString
  end.

(** Leading decimal digits of a string, as a list of digit values, and
    the rest. *)
Fixpoint spanDigits (s : string) : list Z * string :=
  match s with
  | String c r =>
      if isDigit c then let '(ds, r') := spanDigits r in (digitVal c :: ds, r')
      else (nil, s)
  | EmptyString => (nil, EmptyString)
  end.

Definition digitsValue (ds : list Z) : Z :=
  fold_left (fun acc d => (acc * 10 + d)%Z) ds 0%Z.

Definition readSign (s : string) : bool * string :=
  match s with
  | String "+" r => (false, r)
  | String "-" r => (true, r)
  | _ => (false, s)
  end.

(** Decimal representation of a natural number. *)
Definition ofN (n : N) : string := NilZero.string_of_uint (N.to_uint n).

Fixpoint zeros (n : nat) : string :=
  match n with O => EmptyString | S k => String "0" (zeros k) end.

End Str.

(** ** Conversions between strings and numbers *)

Module Conv.
Import Num Str.

Fixpoint dropChars (n : nat) (s : string) : string :=
  match n, s with
  | S k, String _ r => dropChars k r
  | _, _ => s
  end.

(** An optional [ExponentPart]: [e] or [E], an optional sign, digits.
    Without digits nothing is consumed. *)
Definition readExponent (s : string) : Z * string :=
  match s with
  | String c r =>
      if Ascii.eqb c "e" || Ascii.eqb c "E" then
        let '(sg, r1) := readSign r in
        let '(ds, r2) := spanDigits r1 in
        match ds with
        | nil => (0%Z, s)
        | _ => ((if sg then - digitsValue ds else digitsValue ds)%Z, r2)
        end
      else (0%Z, s)
  | EmptyString => (0%Z, s)
  end.

(** The longest prefix of [s] that is a [StrDecimalLiteral], as its
    number value, and what follows it. *)
Definition readDecimalLiteral (s : string) : option (number * string) :=
  let '(sg, s1) := readSign s in
  if startsWith "Infinity" s1 then Some (S754_infinity sg, dropChars 8 s1)
  else
    let '(ip, s2) := spanDigits s1 in
    let '(fp, s3) :=
      match s2 with
      | String "." r =>
          let '(f, r') := spanDigits r in
          match ip, f with
          | nil, nil => (nil, s2)
          | _, _ => (f, r')
          end
      | _ => (nil, s2)
      end in
    match ip, fp with
    | nil, nil => None
    | _, _ =>
        let '(ex, s4) := readExponent s3 in
        Some (of_decimal sg (digitsValue (ip ++ fp)) (ex - Z.of_nat (length fp)), s4)
    end.

(** [parseFloat(s)] *)
Definition parseFloat (s : string) : number :=
  match readDecimalLiteral (trimStart s) with
  | Some (v, _) => v
  | None => NaN
  end.

Definition radixDigit (base : Z) (c : ascii) : option Z :=
  let n := code c in
  let v :=
    if isDigit c then Some (digitVal c)
    else if (97 <=? n)%nat && (n <=? 102)%nat then Some (Z.of_nat (n - 87))
    else if (65 <=? n)%nat && (n <=? 70)%nat then Some (Z.of_nat (n - 55))
    else None in
  match v with
  | Some d => if (d <? base)%Z then Some d else None
  | None => None
  end.

Fixpoint readRadix (base : Z) (acc : Z) (s : string) : option Z :=
  match s with
  | EmptyString => Some acc
  | String c r =>
      match radixDigit base c with
      | Some d => readRadix base (acc * base + d)%Z r
      | None => None
      end
  end.

Definition radixLiteral (base : Z) (s : string) : number :=
  match s with
  | EmptyString => NaN
  | _ => match readRadix base 0%Z s with
         | Some v => of_Z v
         | None => NaN
         end
  end.

Definition decimalLiteral (s : string) : number :=
  match readDecimalLiteral s with
  | Some (v, EmptyString) => v
  | _ => NaN
  end.

(** [Number(s)] for a string [s]. *)
Definition js_Number (s : string) : number :=
  match trim s with
  | EmptyString => zero
  | String "0" (String c r) as t =>
      if Ascii.eqb c "x" || Ascii.eqb c "X" then radixLiteral 16 r
      else if Ascii.eqb c "o" || Ascii.eqb c "O" then radixLiteral 8 r
      else if Ascii.eqb c "b" || Ascii.eqb c "B" then radixLiteral 2 r
      else decimalLiteral t
  | t => decimalLiteral t
  end.

(** *** [Number::toString] *)

(** The first [j >= 1] with [n * 10^j >= d], searched upwards. *)
Fixpoint firstScale (fuel : nat) (n d j : Z) : Z :=
  match fuel with
  | O => j
  | S f => if (d <=? n * 10 ^ j)%Z then j else firstScale f n d (j + 1)%Z
  end.

(** [n0] with [10^(n0-1) <= n/d < 10^n0]. *)
Definition magnitude (n d : Z) : Z :=
  let q := (n / d)%Z in
  if (1 <=? q)%Z then Z.of_nat (String.length (ofN (Z.to_N q)))
  else (1 - firstScale 400 n d 1)%Z.

(** The candidate with [k] digits: [Some (s, n)] when [s * 10^(n-k)]
    reads back as [x]; of two that do, the closer one. *)
Definition candidate (x : number) (n d n0 : Z) (k : Z) : option (Z * Z) :=
  let sc := (k - n0)%Z in
  let '(p, q) := if (0 <=? sc)%Z then ((n * 10 ^ sc)%Z, d)
                 else (n, (d * 10 ^ (- sc))%Z) in
  let lo := (p / q)%Z in
  let hi := (lo + 1)%Z in
  let back s := Num.eqb (of_decimal false s (n0 - k)) x in
  let norm s := if (s =? 10 ^ k)%Z then ((10 ^ (k - 1))%Z, (n0 + 1)%Z) else (s, n0) in
  match back lo, back hi with
  | true, true =>
      let dlo := (p - lo * q)%Z in
      let dhi := (hi * q - p)%Z in
      if (dlo <? dhi)%Z then Some (norm lo)
      else if (dhi <? dlo)%Z then Some (norm hi)
      else if Z.even lo then Some (norm lo) else Some (norm hi)
  | true, false => Some (norm lo)
  | false, true => Some (norm hi)
  | false, false => None
  end.

Fixpoint shortest (fuel : nat) (x : number) (n d n0 k : Z) : Z * Z * Z :=
  match fuel with
  | O => (0%Z, n0, k)
  | S f =>
      match candidate x n d n0 k with
      | Some (s, n') => (s, n', k)
      | None => shortest f x n d n0 (k + 1)%Z
      end
  end.

Fixpoint firstChars (n : nat) (s : string) : string :=
  match n, s with
  | S k, String c r => String c (firstChars k r)
  | _, _ => EmptyString
  end.

Definition formatDigits (s n k : Z) : string :=
  let ds := ofN (Z.to_N s) in
  if (k <=? n)%Z && (n <=? 21)%Z then ds ++ zeros (Z.to_nat (n - k))
  else if (0 <? n)%Z && (n <=? 21)%Z then
    firstChars (Z.to_nat n) ds ++ "." ++ dropChars (Z.to_nat n) ds
  else if (-6 <? n)%Z && (n <=? 0)%Z then
    "0." ++ zeros (Z.to_nat (- n)) ++ ds
  else
    let e := (n - 1)%Z in
    let es := (if (e <? 0)%Z then "-" else "+") ++ ofN (Z.to_N (Z.abs e)) in
    if (k =? 1)%Z then ds ++ "e" ++ es
    else firstChars 1 ds ++ "." ++ dropChars 1 ds ++ "e" ++ es.

Definition positiveToString (x : number) (m : positive) (e : Z) : string :=
  let '(n, d) := match e with
                 | Zneg k => (Zpos m, Zpos (Pos.pow 2 k))
                 | _ => ((Zpos m * 2 ^ e)%Z, 1%Z)
                 end in
  let n0 := magnitude n d in
  let '(s, n', k) := shortest 17 x n d n0 1 in
  formatDigits s n' k.

(** [String(x)] for a number [x]. *)
Definition numberToString (x : number) : string :=
  match x with
  | S754_nan => "NaN"
  | S754_zero _ => "0"
  | S754_infinity sg => if sg then "-Infinity" else "Infinity"
  | S754_finite sg m e =>
      (if sg then "-" else EmptyString) ++ positiveToString (S754_finite false m e) m e
  end.

End Conv.

Local Open Scope list_scope.

(** ** Values *)

(** A cell of a row: a number, a string, a boolean or [null].  A row
    that has no property of a name reads as [undefined] there, which is
    [None] in [option Value]. *)
Inductive Value :=
| VNum (n : number)
| VStr (s : string)
| VBool (b : bool)
| VNull.

Module Js.
Import Num Str Conv.

(** [String(v)] *)
Definition toString (v : option Value) : string :=
  match v with
  | Some (VNum n) => numberToString n
  | Some (VStr s) => s
  | Some (VBool b) => if b then "true" else "false"
  | Some VNull => "null"
  | None => "undefined"
  end.

(** Truthiness, as [if (v)], [v && ...] and [v || ...] use it. *)
Definition truthy (v : option Value) : bool :=
  match v with
  | Some (VNum n) =>
      match n with
      | S754_zero _ | S754_nan => false
      | _ => true
      end
  | Some (VStr s) => negb (isEmpty s)
  | Some (VBool b) => b
  | Some VNull | None => false
  end.

(** [x == y] where [x] is not [undefined]. *)
Definition looseEq (x : Value) (y : option Value) : bool :=
  let boolNum (b : bool) := if b then of_Z 1 else zero in
  match x, y with
  | VNull, (Some VNull | None) => true
  | VNull, _ | _, (Some VNull | None) => false
  | VNum a, Some (VNum b) => Num.eqb a b
  | VNum a, Some (VStr s) => Num.eqb a (js_Number s)
  | VNum a, Some (VBool b) => Num.eqb a (boolNum b)
  | VStr s, Some (VNum b) => Num.eqb (js_Number s) b
  | VStr s, Some (VStr t) => String.eqb s t
  | VStr s, Some (VBool b) => Num.eqb (js_Number s) (boolNum b)
  | VBool a, Some (VNum b) => Num.eqb (boolNum a) b
  | VBool a, Some (VStr s) => Num.eqb (boolNum a) (js_Number s)
  | VBool a, Some (VBool b) => Bool.eqb a b
  end.

Definition isComma (c : ascii) : bool := Ascii.eqb c ",".

(** [parseFloat(String(v).replace(/,/g, ''))] *)
Definition parseCell (v : option Value) : number :=
  parseFloat (remove isComma (toString v)).

(** What [JSON.parse(JSON.stringify(v))] gives for a cell: numbers that
    are not finite become [null], and the sign of zero is lost. *)
Definition jsonValue (v : Value) : Value :=
  match v with
  | VNum (S754_nan | S754_infinity _) => VNull
  | VNum (S754_zero _) => VNum zero
  | _ => v
  end.

(** [ToIntegerOrInfinity] of a finite number, truncating. *)
Definition truncate (n : number) : Z :=
  match n with
  | S754_finite sg m e =>
      let a := match e with
               | Zneg k => (Zpos m / Zpos (Pos.pow 2 k))%Z
               | _ => (Zpos m * 2 ^ e)%Z
               end in
      if sg then (- a)%Z else a
  | _ => 0%Z
  end.

End Js.

(** ** Objects that are iterated

    An object filled key by key and then walked with [for ... in] or
    [Object.entries]: keys that are array indices come first, in
    ascending order, then the other keys in the order they were added.
    [Obj.t] holds the properties of the object itself; what it inherits
    is in [Proto] below. *)

Module Obj.
Import Str.

Definition t (A : Type) := list (string * A).

(** The array index a key denotes, if it is the canonical decimal form
    of an integer below [2^32 - 1]. *)
Definition arrayIndex (k : string) : option N :=
  match spanDigits k with
  | (d :: ds, EmptyString) =>
      let v := Z.to_N (digitsValue (d :: ds)) in
      if String.eqb (ofN v) k && (v <? 4294967295)%N then Some v else None
  | _ => None
  end.

Fixpoint get {A} (o : t A) (k : string) : option A :=
  match o with
  | nil => None
  | (k', v) :: r => if String.eqb k' k then Some v else get r k
  end.

Definition has {A} (o : t A) (k : string) : bool :=
  match get o k with Some _ => true | None => false end.

Fixpoint replace {A} (o : t A) (k : string) (v : A) : t A :=
  match o with
  | nil => nil
  | (k', v') :: r =>
      if String.eqb k' k then (k', v) :: r else (k', v') :: replace r k v
  end.

(** Where a new index key goes: before the first key that is not an
    index or is a larger one. *)
Fixpoint insertIndex {A} (o : t A) (i : N) (k : string) (v : A) : t A :=
  match o with
  | nil => (k, v) :: nil
  | (k', v') :: r =>
      match arrayIndex k' with
      | Some j => if (j <? i)%N then (k', v') :: insertIndex r i k v
                  else (k, v) :: o
      | None => (k, v) :: o
      end
  end.

(** [o[k] = v] *)
Definition set {A} (o : t A) (k : string) (v : A) : t A :=
  if has o k then replace o k v
  else match arrayIndex k with
       | Some i => insertIndex o i k v
       | None => o ++ (k, v) :: nil
       end.

Definition keys {A} (o : t A) : list string := map fst o.

End Obj.

(** ** [Object.prototype]

    An object created as [{}] inherits the properties of
    [Object.prototype]: eleven functions and the accessor [__proto__],
    none of them enumerable.  Reading a key that names one of them, in
    an object that has no property of its own under the key, finds the
    function, or [Object.prototype] itself for [__proto__]; all of these
    are truthy.  Assigning under the name of a function gives the object
    a property of its own; assigning under [__proto__] runs the setter,
    which creates no property and ignores a value that is not an
    object. *)

Module Proto.

Definition functions : list string :=
  ["constructor"; "__defineGetter__"; "__defineSetter__"; "hasOwnProperty";
   "__lookupGetter__"; "__lookupSetter__"; "isPrototypeOf"; "propertyIsEnumerable";
   "toString"; "valueOf"; "toLocaleString"].

Definition isFunction (k : string) : bool := existsb (String.eqb k) functions.

Definition isAccessor (k : string) : bool := String.eqb k "__proto__".

Definition isMember (k : string) : bool := isFunction k || isAccessor k.

(** [o[k] = v] for an object created as [{}] and a value that is not
    an object. *)
Definition assign {A} (o : Obj.t A) (k : string) (v : A) : Obj.t A :=
  if isAccessor k then o else Obj.set o k v.

End Proto.

(** The string that [+] makes of its operands when one of them is not
    a number: characters, and the source text of functions of
    [Object.prototype], which the engine chooses
    ([function Object() { [native code] }] in one of them). *)
Inductive piece :=
| Chars (s : string)
| SourceOf (member : string).

Definition text := list piece.

(** What an accumulator of [prepareChartData] holds under a key: the
    number or the count it is meant to hold, or a string. *)
Inductive entry (A : Type) :=
| Plain (a : A)
| Text (t : text).

Arguments Plain {A} a.
Arguments Text {A} t.

(** ** What the host provides

    [Date.parse] accepts implementation-defined formats and
    [localeCompare] follows the locale's collation; both belong to the
    engine the program runs on, so the functions that call them take
    them as given. *)

Class Host := {
  (** [Date.parse(s)]: a time value, or [NaN]. *)
  Date_parse : string -> number;
  (** the sign of [a.localeCompare(b)] *)
  localeCompare : string -> string -> comparison;
  (** the sign of
      [a.localeCompare(b, undefined, {numeric: true, sensitivity: 'base'})] *)
  localeCompareNumeric : string -> string -> comparison
}.

(** ** [Array.prototype.sort]

    The sort is stable; [cmp a b] is the sign of the comparator's
    result, and [a] stays before [b] unless it is positive. *)

Section Sort.
Context {A : Type} (cmp : A -> A -> comparison).

Fixpoint insertSorted (x : A) (l : list A) : list A :=
  match l with
  | nil => x :: nil
  | y :: r =>
      match cmp x y with
      | Gt => y :: insertSorted x r
      | _ => x :: l
      end
  end.

Fixpoint sortBy (l : list A) : list A :=
  match l with
  | nil => nil
  | x :: r => insertSorted x (sortBy r)
  end.

End Sort.

(** ** Datasets *)

Abbreviation row := (gmap string Value).

Inductive columnType := numerical | temporal | categorical | stringType.

(** [meta]: the field list and, once inference has run, the inferred
    types.  The [fields] array and the [inferredTypes] object are only
    ever reached through the [meta] object that holds them, so they are
    kept inside it. *)
Record meta := {
  fields : list string;
  inferredTypes : option (gmap string columnType)
}.

(** A dataset [{data, meta}] as a value: what can be read from it. *)
Record dataset := {
  data : list row;
  dmeta : meta
}.

(** ** Load: cleaning and type inference *)

Section Load.
Import Num Str Conv Js.

Definition SAMPLE_LIMIT : nat := 100.
Definition CLEANING_THRESHOLD : number := of_decimal false 8 (-1).

(** [/[^0-9.-]/] *)
Definition isNoise (c : ascii) : bool :=
  negb (isDigit c || Ascii.eqb c "." || Ascii.eqb c "-").

Record fieldStats := {
  numericLikeCount : nat;
  validValueCount : nat;
  needsCleaning : bool
}.

(** One turn of the loop over the sample, for the value [val] of the
    row at the field. *)
Definition scanValue (st : fieldStats) (val : option Value) : fieldStats :=
  match val with
  | None | Some VNull => st
  | Some v =>
      if isEmpty (trim (toString val)) then st
      else
        let st1 := {| numericLikeCount := numericLikeCount st;
                      validValueCount := S (validValueCount st);
                      needsCleaning := needsCleaning st |} in
        match v with
        | VNum _ =>
            {| numericLikeCount := S (numericLikeCount st1);
               validValueCount := validValueCount st1;
               needsCleaning := needsCleaning st1 |}
        | VStr s =>
            if negb (isNaN (js_Number s)) && negb (isEmpty (trim s)) then
              {| numericLikeCount := S (numericLikeCount st1);
                 validValueCount := validValueCount st1;
                 needsCleaning := needsCleaning st1 |}
            else
              let cleaned := remove isNoise s in
              if negb (isEmpty cleaned) && negb (isNaN (js_Number cleaned))
                 && any isDigit cleaned
              then
                {| numericLikeCount := S (numericLikeCount st1);
                   validValueCount := validValueCount st1;
                   needsCleaning := if any isNoise s then true
                                    else needsCleaning st1 |}
              else st1
        | _ => st1
        end
  end.

Definition scanField (sample : list row) (field : string) : fieldStats :=
  fold_left (fun st r => scanValue st (r !! field)) sample
    {| numericLikeCount := 0; validValueCount := 0; needsCleaning := false |}.

Definition isCandidate (st : fieldStats) : bool :=
  (0 <? validValueCount st)%nat
  && geb (div (of_nat (numericLikeCount st)) (of_nat (validValueCount st)))
         CLEANING_THRESHOLD
  && needsCleaning st.

Definition fieldsToClean (data : list row) (fields : list string) : list string :=
  List.filter (fun field => isCandidate (scanField (take SAMPLE_LIMIT data) field)) fields.

(** The body of the inner [forEach]: the row after [field] was treated. *)
Definition cleanField (r : row) (field : string) : row :=
  match r !! field with
  | Some (VStr s) =>
      let cleaned := remove isNoise s in
      if negb (isEmpty cleaned) && negb (isNaN (js_Number cleaned))
      then <[field := VNum (js_Number cleaned)]> r
      else r
  | _ => r
  end.

(** [cleanAndNormalizeData(data, fields)]: the rows of [data] after the
    call, which changes them in place. *)
Definition cleanAndNormalizeData (data : list row) (fields : list string) : list row :=
  match data with
  | nil => data
  | _ =>
      match fieldsToClean data fields with
      | nil => data
      | toClean => map (fun r => fold_left cleanField toClean r) data
      end
  end.

Definition MAX_SAMPLE_SIZE : nat := 100.
Definition CATEGORICAL_UNIQUENESS_THRESHOLD : number := of_decimal false 5 (-1).
Definition CATEGORICAL_MAX_UNIQUE_VALUES : nat := 50.

(** Equality of the members of a [Set] (SameValueZero). *)
Definition sameValueZero (a b : Value) : bool :=
  match a, b with
  | VNum x, VNum y => (isNaN x && isNaN y) || Num.eqb x y
  | VStr x, VStr y => String.eqb x y
  | VBool x, VBool y => Bool.eqb x y
  | VNull, VNull => true
  | _, _ => false
  end.

Definition setAdd (s : list Value) (v : Value) : list Value :=
  if existsb (sameValueZero v) s then s else s ++ v :: nil.

Record inference := {
  isNumeric : bool;
  isTemporal : bool;
  uniqueValues : list Value
}.

Context `{Host}.

(** One turn of the loop over the sample in [inferColumnTypes]. *)
Definition inferValue (st : inference) (val : option Value) : inference :=
  match val with
  | None | Some VNull | Some (VStr EmptyString) => st
  | Some v =>
      {| isNumeric :=
           if isNumeric st then
             let cleanedValue :=
               trim (remove (fun c => Ascii.eqb c "$" || Ascii.eqb c ","
                                      || Ascii.eqb c "%") (toString val)) in
             negb (isEmpty cleanedValue || isNaN (js_Number cleanedValue))
           else false;
         isTemporal :=
           if isTemporal st then
             negb (match v with VNum _ => true | _ => false end
                   || isNaN (Date_parse (toString val)))
           else false;
         uniqueValues := setAdd (uniqueValues st) v |}
  end.

Definition inferField (sample : list row) (field : string) : columnType :=
  let st := fold_left (fun st r => inferValue st (r !! field)) sample
              {| isNumeric := true; isTemporal := true; uniqueValues := nil |} in
  if isNumeric st then numerical
  else if isTemporal st then temporal
  else if ltb (div (of_nat (length (uniqueValues st))) (of_nat (length sample)))
              CATEGORICAL_UNIQUENESS_THRESHOLD
          && (length (uniqueValues st) <=? CATEGORICAL_MAX_UNIQUE_VALUES)%nat
       then categorical
  else stringType.

(** [inferColumnTypes(data, fields)] *)
Definition inferColumnTypes (data : list row) (fields : list string)
  : gmap string columnType :=
  let sample := take MAX_SAMPLE_SIZE data in
  match sample with
  | nil => ∅
  | _ => fold_left (fun types field => <[field := inferField sample field]> types)
           fields ∅
  end.

End Load.

(** *** The sample of a column, in the words of the specification *)

Section LoadSpec.
Import Num Str Conv Js.







(** The numeric check of [inferColumnTypes] on a sampled value: the
    value is skipped as empty, or what is left of it without [$], [,]
    and [%] is a number. *)
Definition looksNumeric (val : option Value) : bool :=
  match val with
  | None | Some VNull | Some (VStr EmptyString) => true
  | Some _ =>
      let cleanedValue :=
        trim (remove (fun c => Ascii.eqb c "$" || Ascii.eqb c "," || Ascii.eqb c "%")
                (toString val)) in
      negb (isEmpty cleanedValue) && negb (isNaN (js_Number cleanedValue))
  end.

End LoadSpec.

(** ** The heap

    Row objects, row arrays, [meta] objects and dataset objects are
    heap cells; a reference is the index of its cell.  Functions that
    read, create or change objects run in a state monad over the heap,
    whose result is a value or a thrown exception. *)

Abbreviation ref := nat.

Inductive object :=
| Row (r : row)
| RowArray (rs : list ref)
| Meta (m : meta)
| Data (d m : ref).

Abbreviation heap := (list object).

Inductive outcome (A : Type) :=
| Ok (a : A)
| Throw (message : string).
Arguments Ok {A} a.
Arguments Throw {A} message.

Definition ST (S A : Type) : Type := S -> S * outcome A.

#[global] Instance ST_ret {S} : MRet (ST S) := fun A a s => (s, Ok a).
#[global] Instance ST_bind {S} : MBind (ST S) := fun A B f m s =>
  match m s with
  | (s1, Ok a) => f a s1
  | (s1, Throw e) => (s1, Throw e)
  end.

Abbreviation M := (ST heap).

Definition throw {S A} (message : string) : ST S A := fun s => (s, Throw message).

(** [try { m } catch (error) { handler(error.message) }] *)
Definition try {S A} (m : ST S A) (handler : string -> ST S A) : ST S A :=
  fun s => match m s with
           | (s1, Throw e) => handler e s1
           | res => res
           end.

Definition TypeError : string := "TypeError".

Definition alloc (o : object) : M ref := fun h => (h ++ [o], Ok (length h)).

Definition load (r : ref) : M object := fun h =>
  match h !! r with
  | Some o => (h, Ok o)
  | None => (h, Throw TypeError)
  end.

Definition store (r : ref) (o : object) : M unit := fun h =>
  if decide (r < length h) then (<[r := o]> h, Ok tt) else (h, Throw TypeError).

Definition getRow (r : ref) : M row :=
  o ← load r; match o with Row x => mret x | _ => throw TypeError end.

Definition getArray (r : ref) : M (list ref) :=
  o ← load r; match o with RowArray rs => mret rs | _ => throw TypeError end.

Definition getMeta (r : ref) : M meta :=
  o ← load r; match o with Meta m => mret m | _ => throw TypeError end.

(** The [data] and [meta] references of a dataset object. *)
Definition getData (r : ref) : M (ref * ref) :=
  o ← load r; match o with Data d m => mret (d, m) | _ => throw TypeError end.

(** [map], [filter] and [forEach] of an array, with a callback that may
    use the heap. *)
Fixpoint arrayMap {S A B} (f : A -> ST S B) (l : list A) : ST S (list B) :=
  match l with
  | [] => mret []
  | x :: r => y ← f x; ys ← arrayMap f r; mret (y :: ys)
  end.

Fixpoint arrayFilter {S A} (f : A -> ST S bool) (l : list A) : ST S (list A) :=
  match l with
  | [] => mret []
  | x :: r => b ← f x; ys ← arrayFilter f r; mret (if (b : bool) then x :: ys else ys)
  end.

Fixpoint arrayForEach {S A} (f : A -> ST S unit) (l : list A) : ST S unit :=
  match l with
  | [] => mret tt
  | x :: r => _ ← f x; arrayForEach f r
  end.

Fixpoint arrayFold {S A B} (f : B -> A -> ST S B) (acc : B) (l : list A) : ST S B :=
  match l with
  | [] => mret acc
  | x :: r => acc' ← f acc x; arrayFold f acc' r
  end.

(** What a dataset reference denotes in a heap. *)
Definition rowAt (h : heap) (r : ref) : option row :=
  match h !! r with Some (Row x) => Some x | _ => None end.

Definition rowsAt (h : heap) (rs : list ref) : option (list row) :=
  mapM (rowAt h) rs.

Definition view (h : heap) (r : ref) : option dataset :=
  match h !! r with
  | Some (Data a m) =>
      match h !! a, h !! m with
      | Some (RowArray rs), Some (Meta mt) =>
          rows ← rowsAt h rs; Some {| data := rows; dmeta := mt |}
      | _, _ => None
      end
  | _ => None
  end.

(** [JSON.parse(JSON.stringify(dataObject))]: every object of the
    dataset is created anew. *)
Definition deepCopy (dataObject : ref) : M ref :=
  '(a, m) ← getData dataObject;
  rows ← getArray a;
  mt ← getMeta m;
  rows' ← arrayMap (fun r => x ← getRow r; alloc (Row (Js.jsonValue <$> x))) rows;
  a' ← alloc (RowArray rows');
  m' ← alloc (Meta mt);
  alloc (Data a' m').

(** ** Transformations *)

Module Condition.
Record t := {
  column : string;
  operator : string;
  value : option Value
}.
End Condition.

Section Transform.
Import Num Str Conv Js.

(** [numericValue] of [checkCondition]: the value itself when it is a
    number, what [parseFloat] reads in it without commas otherwise. *)
Definition numericValueOf (value : option Value) : number :=
  match value with
  | Some (VNum n) => n
  | _ => parseCell value
  end.

(** [checkCondition(row, condition)] of [transformRemoveRows] *)
Definition checkCondition (r : row) (condition : Condition.t) : bool :=
  let column := Condition.column condition in
  let operator := Condition.operator condition in
  let value := Condition.value condition in
  match r !! column with
  | None => false
  | Some rowValue =>
      let numericRowValue := parseCell (Some rowValue) in
      let numericValue := numericValueOf value in
      if String.eqb operator "equals" then looseEq rowValue value
      else if String.eqb operator "not_equals" then negb (looseEq rowValue value)
      else if String.eqb operator "greater_than" then
        negb (isNaN numericRowValue) && negb (isNaN numericValue)
        && gtb numericRowValue numericValue
      else if String.eqb operator "less_than" then
        negb (isNaN numericRowValue) && negb (isNaN numericValue)
        && ltb numericRowValue numericValue
      else if String.eqb operator "contains" then
        includes (toLowerCase (toString (Some rowValue)))
                 (toLowerCase (toString value))
      else false
  end.

(** The test of the [filter] in [transformRemoveRows]: whether a row
    stays. *)
Definition staysAfterRemove (conditions : list Condition.t) (r : row) : bool :=
  negb (forallb (checkCondition r) conditions).

(** [transformRemoveRows(dataObject, conditions)]; [conditions] is
    [None] when the configuration has no such property. *)
Definition transformRemoveRows (dataObject : ref)
    (conditions : option (list Condition.t)) : M ref :=
  '(a, m) ← getData dataObject;
  rows ← getArray a;
  kept ← arrayFilter (fun r =>
            x ← getRow r;
            match conditions with
            | Some cs => mret (staysAfterRemove cs x)
            | None => throw TypeError
            end) rows;
  a' ← alloc (RowArray kept);
  _ ← store dataObject (Data a' m);
  mret dataObject.

(** The value [transformCreateColumn] computes for a row. *)
Definition newColumnValue (column1 operator column2 : string) (r : row) : Value :=
  let val1 := parseCell (r !! column1) in
  let val2 := parseCell (r !! column2) in
  if negb (isNaN val1) && negb (isNaN val2) then
    if String.eqb operator "add" then VNum (add val1 val2)
    else if String.eqb operator "subtract" then VNum (sub val1 val2)
    else if String.eqb operator "multiply" then VNum (mul val1 val2)
    else if String.eqb operator "divide" then
      if negb (Num.eqb val2 zero) then VNum (div val1 val2) else VNull
    else VNull
  else VNull.

(** [transformCreateColumn(dataObject, params)] *)
Definition transformCreateColumn (dataObject : ref)
    (newColumn column1 operator column2 : string) : M ref :=
  '(a, m) ← getData dataObject;
  rows ← getArray a;
  rows' ← arrayMap (fun r =>
             x ← getRow r;
             alloc (Row (<[newColumn := newColumnValue column1 operator column2 x]> x)))
           rows;
  a' ← alloc (RowArray rows');
  _ ← store dataObject (Data a' m);
  mt ← getMeta m;
  _ ← store m (Meta {| fields := fields mt ++ [newColumn];
                        inferredTypes := inferredTypes mt |});
  mret dataObject.

(** A row after the callback of [transformRenameColumn]. *)
Definition renameInRow (oldColumn newColumn : string) (x : row) : row :=
  match x !! oldColumn with
  | Some v => delete oldColumn (<[newColumn := v]> x)
  | None => x
  end.

(** [fields[fields.indexOf(oldColumn)] = newColumn] when the index is
    not [-1]. *)
Fixpoint renameInFields (oldColumn newColumn : string) (l : list string) : list string :=
  match l with
  | [] => []
  | f :: r => if String.eqb f oldColumn then newColumn :: r
              else f :: renameInFields oldColumn newColumn r
  end.

(** [transformRenameColumn(dataObject, params)] *)
Definition transformRenameColumn (dataObject : ref)
    (oldColumn newColumn : string) : M ref :=
  '(a, m) ← getData dataObject;
  rows ← getArray a;
  rows' ← arrayMap (fun r =>
             x ← getRow r;
             _ ← store r (Row (renameInRow oldColumn newColumn x));
             mret r) rows;
  a' ← alloc (RowArray rows');
  _ ← store dataObject (Data a' m);
  mt ← getMeta m;
  _ ← store m (Meta {| fields := renameInFields oldColumn newColumn (fields mt);
                        inferredTypes := inferredTypes mt |});
  mret dataObject.

(** *** [executeAggregate]

    [groups] is created as [{}] and filled under the values of the
    [groupBy] column, so that a value that names a member of
    [Object.prototype] reaches what [groups] inherits.  The built-in
    objects are taken as the engine creates them when the function is
    called; what the call adds to them stays there when it returns,
    which the heap of datasets does not record. *)

Record group := { sum : number; count : nat }.

(** [valueColumn || 'count'] *)
Definition valueColumnOrCount (valueColumn : option string) : string :=
  match valueColumn with
  | Some s => if isEmpty s then "count" else s
  | None => "count"
  end.

(** The property key an optional name is used as. *)
Definition propertyKey (name : option string) : string :=
  match name with Some s => s | None => "undefined" end.

(** What [groups] holds under a key: an object [{sum, count}] that the
    callback made, or, under the name of a function of
    [Object.prototype], that function: [groups[key] || {...}] finds it
    and [groups[key] = ...] makes it a property of [groups] itself. *)
Inductive slot :=
| Made (g : group)
| Inherited.

(** The state of the [forEach]: the properties of [groups], and the
    properties that the callback has added to the built-in objects, each
    with the object it is on (the name of a function of
    [Object.prototype], or [__proto__] for [Object.prototype] itself).
    [groups[key].sum += value] and [groups[key].count += 1] write them
    when [groups[key]] is such an object; the property was [undefined]
    or written by an earlier row in the same way, so that what it holds
    is [NaN]. *)
Record tally := {
  groups : Obj.t slot;
  added : list (string * string)
}.

Definition isAdded (l : list (string * string)) (owner name : string) : bool :=
  existsb (fun '(o, p) => String.eqb o owner && String.eqb p name) l.

Definition write (l : list (string * string)) (owner name : string)
  : list (string * string) :=
  if isAdded l owner name then l else l ++ [(owner, name)].

(** [x.name] for a built-in object [x], or for a number (whose
    properties are those of [Object.prototype], [owner] being
    [__proto__]): the property added to it, or else the one added to
    [Object.prototype], or else [undefined]. *)
Definition builtinProperty (l : list (string * string)) (owner name : string)
  : option number :=
  if isAdded l owner name || isAdded l "__proto__" name then Some NaN else None.

(** [row[name]]: a row without a cell of that name inherits what was
    added to [Object.prototype]. *)
Definition cellOf (l : list (string * string)) (r : row) (name : string)
  : option Value :=
  match r !! name with
  | Some v => Some v
  | None => VNum <$> builtinProperty l "__proto__" name
  end.

(** The callback of [dataObject.data.forEach] in [executeAggregate]. *)
Definition addToGroups (groupBy aggregation : string) (valueColumn : option string)
    (t : tally) (r : row) : tally :=
  match cellOf (added t) r groupBy with
  | None | Some VNull => t
  | Some key =>
      let k := toString (Some key) in
      let summed :=
        negb (String.eqb aggregation "count")
        && negb (isNaN (parseCell (cellOf (added t) r (propertyKey valueColumn)))) in
      let onBuiltin :=
        write (if summed then write (added t) k "sum" else added t) k "count" in
      let onGroup (g : group) :=
        {| sum := if summed
                  then add (sum g) (parseCell (cellOf (added t) r (propertyKey valueColumn)))
                  else sum g;
           count := S (count g) |} in
      if Proto.isAccessor k then {| groups := groups t; added := onBuiltin |}
      else
        match Obj.get (groups t) k with
        | Some (Made g) =>
            {| groups := Obj.set (groups t) k (Made (onGroup g)); added := added t |}
        | Some Inherited =>
            {| groups := Obj.set (groups t) k Inherited; added := onBuiltin |}
        | None =>
            if Proto.isFunction k
            then {| groups := Obj.set (groups t) k Inherited; added := onBuiltin |}
            else {| groups := Obj.set (groups t) k (Made (onGroup {| sum := zero; count := 0 |}));
                    added := added t |}
        end
  end.

(** The value a group is reported with. *)
Definition groupValue (aggregation : string) (g : group) : number :=
  if String.eqb aggregation "sum" then sum g
  else if String.eqb aggregation "average" then
    if (0 <? count g)%nat then div (sum g) (of_nat (count g)) else zero
  else of_nat (count g).

(** The same for a key under which [groups[key]] is a built-in object
    or a number, [sum] and [count] being what [groups[key].sum] and
    [groups[key].count] read. *)
Definition builtinValue (aggregation : string) (sum count : option number)
  : option number :=
  if String.eqb aggregation "sum" then sum
  else if String.eqb aggregation "average" then
    Some (match count with
          | Some c => if gtb c zero then div (default NaN sum) c else zero
          | None => zero
          end)
  else count.

Definition aggregateName (aggregation : string) (valueColumn : option string) : string :=
  aggregation +:+ "_" +:+ valueColumnOrCount valueColumn.

Definition groupsOf (groupBy aggregation : string) (valueColumn : option string)
    (rows : list row) : tally :=
  fold_left (addToGroups groupBy aggregation valueColumn) rows
            {| groups := []; added := [] |}.

(** The keys that [for (const key in groups)] visits: those of [groups]
    itself, then the enumerable ones it inherits and does not have
    itself, which are the properties added to [Object.prototype]. *)
Definition enumerated (t : tally) : list string :=
  Obj.keys (groups t)
  ++ List.filter (fun p => negb (Obj.has (groups t) p))
       (map snd (List.filter (fun '(o, _) => Proto.isAccessor o) (added t))).

(** [value] in the body of that loop; [None] is [undefined]. *)
Definition reportedValue (aggregation : string) (t : tally) (key : string)
  : option number :=
  match Obj.get (groups t) key with
  | Some (Made g) => Some (groupValue aggregation g)
  | Some Inherited =>
      builtinValue aggregation (builtinProperty (added t) key "sum")
                   (builtinProperty (added t) key "count")
  | None =>
      builtinValue aggregation (builtinProperty (added t) "__proto__" "sum")
                   (builtinProperty (added t) "__proto__" "count")
  end.

(** [{ [groupBy]: key, [newColumnName]: value }] *)
Definition aggregatedRow (groupBy newColumnName key : string) (value : option number)
  : row :=
  match value with
  | Some v => <[newColumnName := VNum v]> (<[groupBy := VStr key]> (∅ : row))
  | None => delete newColumnName (<[groupBy := VStr key]> (∅ : row))
  end.

(** The rows of [aggregatedData]. *)
Definition aggregateRows (groupBy aggregation : string) (valueColumn : option string)
    (rows : list row) : list row :=
  let t := groupsOf groupBy aggregation valueColumn rows in
  map (fun key => aggregatedRow groupBy (aggregateName aggregation valueColumn) key
                    (reportedValue aggregation t key))
      (enumerated t).




(** [executeAggregate(dataObject, params)] *)
Definition executeAggregate (dataObject : ref)
    (groupBy aggregation : string) (valueColumn : option string) : M ref :=
  '(a, _) ← getData dataObject;
  rows ← getArray a;
  xs ← arrayMap getRow rows;
  rows' ← arrayMap (fun x => alloc (Row x))
            (aggregateRows groupBy aggregation valueColumn xs);
  a' ← alloc (RowArray rows');
  m' ← alloc (Meta {| fields := [groupBy; aggregateName aggregation valueColumn];
                      inferredTypes := None |});
  alloc (Data a' m').

(** *** [executeSort] and [executeLimit] *)

Context `{Host}.

(** The sign of the comparator of [executeSort]. *)
Definition sortComparator (column order : string) (a b : row) : comparison :=
  let valA := a !! column in
  let valB := b !! column in
  let numA := parseFloat (toString valA) in
  let numB := parseFloat (toString valB) in
  let comparison :=
    if negb (isNaN numA) && negb (isNaN numB) then sign (sub numA numB)
    else localeCompare (toString valA) (toString valB) in
  if String.eqb order "descending" then CompOpp comparison else comparison.

(** [executeSort(dataObject, params)]: the array is sorted in place. *)
Definition executeSort (dataObject : ref) (column order : string) : M ref :=
  '(a, _) ← getData dataObject;
  rows ← getArray a;
  xs ← arrayMap (fun r => x ← getRow r; mret (r, x)) rows;
  _ ← store a (RowArray
         (map fst (sortBy (fun p q => sortComparator column order (snd p) (snd q)) xs)));
  mret dataObject.

(** The end index of [slice(0, count)] on an array of [len] elements. *)
Definition sliceEnd (len : nat) (count : option number) : nat :=
  match count with
  | None => len
  | Some S754_nan => 0
  | Some (S754_infinity sg) => if sg then 0 else len
  | Some n =>
      let t := truncate n in
      if (t <? 0)%Z then Z.to_nat (Z.max (Z.of_nat len + t) 0)
      else Z.to_nat (Z.min t (Z.of_nat len))
  end.

(** [executeLimit(dataObject, params)] *)
Definition executeLimit (dataObject : ref) (count : option number) : M ref :=
  '(a, m) ← getData dataObject;
  rows ← getArray a;
  a' ← alloc (RowArray (take (sliceEnd (length rows) count) rows));
  _ ← store dataObject (Data a' m);
  mret dataObject.

End Transform.

(** ** [applyTransformation] *)

Module Config.
Record t := {
  action : string;
  explanation : option string;
  conditions : option (list Condition.t);
  newColumn : string;
  column1 : string;
  operator : string;
  column2 : string;
  oldColumn : string
}.
End Config.

(** [{success: true, message, newData}] or [{success: false, message}] *)
Inductive transformResult :=
| Success (message : string) (newData : ref)
| Failure (message : string).

Section ApplyTransformation.
Import Str.

(** The double quote of a message. *)
Definition dq : string := String (ascii_of_nat 34) EmptyString.

(** [fields.includes(name)] *)
Definition includesField (l : list string) (name : string) : bool :=
  existsb (String.eqb name) l.

Definition explanationOf (config : Config.t) : string :=
  match Config.explanation config with
  | Some s => if isEmpty s then "Transformation applied." else s
  | None => "Transformation applied."
  end.

Definition rowCount (dataObject : ref) : M nat :=
  '(a, _) ← getData dataObject; rows ← getArray a; mret (length rows).

Definition metaOf (dataObject : ref) : M (ref * meta) :=
  '(_, m) ← getData dataObject; mt ← getMeta m; mret (m, mt).

(** [meta.inferredTypes[name] = meta.inferredTypes[source]], where the
    source is a type or the type of another column; a type that is
    [undefined] leaves no entry. *)
Definition setInferredType (m : ref) (update : gmap string columnType -> gmap string columnType)
  : M unit :=
  mt ← getMeta m;
  match inferredTypes mt with
  | Some types => store m (Meta {| fields := fields mt;
                                   inferredTypes := Some (update types) |})
  | None => throw TypeError
  end.

Definition applyTransformation (config : Config.t) (sourceData : ref)
  : M transformResult :=
  newDataObject ← deepCopy sourceData;
  let explanation := explanationOf config in
  let action := Config.action config in
  let newColumn := Config.newColumn config in
  let oldColumn := Config.oldColumn config in
  try
    (if String.eqb action "remove_rows" then
       initialRowCount ← rowCount newDataObject;
       newDataObject ← transformRemoveRows newDataObject (Config.conditions config);
       finalRowCount ← rowCount newDataObject;
       let rowsRemoved := initialRowCount - finalRowCount in
       mret (Success ("Removed " +:+ ofN (N.of_nat rowsRemoved) +:+ " row(s). "
                      +:+ explanation) newDataObject)
     else if String.eqb action "create_column" then
       '(_, mt) ← metaOf newDataObject;
       if includesField (fields mt) newColumn then
         mret (Failure ("Column " +:+ dq +:+ newColumn +:+ dq +:+ " already exists."))
       else
         newDataObject ← transformCreateColumn newDataObject newColumn
                           (Config.column1 config) (Config.operator config)
                           (Config.column2 config);
         '(m, _) ← metaOf newDataObject;
         _ ← setInferredType m (fun types => <[newColumn := numerical]> types);
         mret (Success ("Created new column '" +:+ newColumn +:+ "'. "
                        +:+ explanation) newDataObject)
     else if String.eqb action "rename_column" then
       '(_, mt) ← metaOf newDataObject;
       if negb (includesField (fields mt) oldColumn) then
         mret (Failure ("Column to rename " +:+ dq +:+ oldColumn +:+ dq +:+ " does not exist."))
       else if includesField (fields mt) newColumn then
         mret (Failure ("A column named " +:+ dq +:+ newColumn +:+ dq +:+ " already exists."))
       else
         newDataObject ← transformRenameColumn newDataObject oldColumn newColumn;
         '(m, _) ← metaOf newDataObject;
         _ ← setInferredType m (fun types =>
                delete oldColumn
                  (match types !! oldColumn with
                   | Some ty => <[newColumn := ty]> types
                   | None => delete newColumn types
                   end));
         mret (Success ("Renamed column " +:+ dq +:+ oldColumn +:+ dq +:+ " to " +:+ dq
                        +:+ newColumn +:+ dq +:+ ". " +:+ explanation) newDataObject)
     else
       mret (Failure ("Unsupported transformation action: " +:+ action)))
    (fun message => mret (Failure message)).

End ApplyTransformation.

(** ** The plan executor *)

Module Params.
Record t := {
  conditions : option (list Condition.t);
  newColumn : string;
  column1 : string;
  operator : string;
  column2 : string;
  oldColumn : string;
  groupBy : string;
  aggregation : string;
  valueColumn : option string;
  column : string;
  order : string;
  count : option number;
  xAxisColumn : string;
  yAxisColumn : string
}.
End Params.

Module Step.
Record t := {
  action : string;
  explanation : string;
  params : option Params.t
}.
End Step.

(** How a plan ends: with the precomputed [{labels, values}] of its
    [visualize] step, or after its last step. *)
Inductive planResult :=
| Visualized (labels values : list (option Value))
| Finished.

Section Plan.
Context `{Host}.

(** [executeDataStep(dataObject, step)] *)
Definition executeDataStep (dataObject : ref) (step : Step.t) : M ref :=
  let action := Step.action step in
  let known := existsb (String.eqb action)
                 ["create_column"; "remove_rows"; "rename_column";
                  "aggregate"; "sort"; "limit"] in
  if negb known then throw ("Unsupported plan action: " +:+ action)
  else
    match Step.params step with
    | None => throw TypeError
    | Some params =>
        if String.eqb action "create_column" then
          transformCreateColumn dataObject (Params.newColumn params)
            (Params.column1 params) (Params.operator params) (Params.column2 params)
        else if String.eqb action "remove_rows" then
          transformRemoveRows dataObject (Params.conditions params)
        else if String.eqb action "rename_column" then
          transformRenameColumn dataObject (Params.oldColumn params)
            (Params.newColumn params)
        else if String.eqb action "aggregate" then
          executeAggregate dataObject (Params.groupBy params)
            (Params.aggregation params) (Params.valueColumn params)
        else if String.eqb action "sort" then
          executeSort dataObject (Params.column params) (Params.order params)
        else
          executeLimit dataObject (Params.count params)
    end.

(** The loop of [executeAnalysisPlan] over the steps. *)
Fixpoint runPlan (tempData : ref) (plan : list Step.t) : M planResult :=
  match plan with
  | [] => mret Finished
  | step :: rest =>
      if String.eqb (Step.action step) "visualize" then
        match Step.params step with
        | None => throw TypeError
        | Some chartConfig =>
            '(a, _) ← getData tempData;
            rows ← getArray a;
            xs ← arrayMap getRow rows;
            mret (Visualized (map (fun x => x !! Params.xAxisColumn chartConfig) xs)
                             (map (fun x => x !! Params.yAxisColumn chartConfig) xs))
        end
      else
        tempData' ← executeDataStep tempData step;
        runPlan tempData' rest
  end.

(** [executeAnalysisPlan(plan)], for the dataset [activeData] refers to. *)
Definition executeAnalysisPlan (activeData : ref) (plan : list Step.t) : M planResult :=
  tempData ← deepCopy activeData;
  runPlan tempData plan.

End Plan.

(** ** The chart data preparer *)

Module Chart.
Record t := {
  chartType : string;
  xAxisColumn : option string;
  yAxisColumn : option string;
  categoryColumn : option string;
  valueColumn : option string;
  aggregation : string
}.
End Chart.

(** The series handed to the renderer, with the axis titles. *)
Record series := {
  labels : list string;
  values : list (entry number);
  datasetLabel : string;
  titleX : string;
  titleY : string
}.

Inductive prepared :=
| Series (s : series)
| Scatter (points : list (number * number)) (label titleX titleY : string).

Section ChartData.
Import Num Str Conv Js.

(** [findMatchingColumn(aiColumnName, actualColumns)] *)
Definition findMatchingColumn (aiColumnName : option string)
    (actualColumns : list string) : option string :=
  match aiColumnName with
  | None => None
  | Some name =>
      if isEmpty name then None
      else
        let normalizedAiName := toLowerCase (trim name) in
        match List.find (fun col => String.eqb (toLowerCase (trim col)) normalizedAiName)
                actualColumns with
        | Some foundColumn => if isEmpty foundColumn then None else Some foundColumn
        | None => None
        end
  end.

(** [x || 0] for a number. *)
Definition orZero (x : option number) : number :=
  match x with
  | Some n => if truthy (Some (VNum n)) then n else zero
  | None => zero
  end.

Definition isCategorical (chartType : string) : bool :=
  existsb (String.eqb chartType) ["bar"; "pie"; "donut"].

Definition isPieFamily (chartType : string) : bool :=
  existsb (String.eqb chartType) ["pie"; "donut"].

(** The chart types whose data is aggregated per label. *)
Definition isAggregated (chartType : string) : bool :=
  existsb (String.eqb chartType) ["bar"; "line"; "area"; "pie"; "donut"].

(** [aiLabelCol] and [aiValueCol] of [prepareChartData] *)
Definition aiLabelCol (config : Chart.t) : option string :=
  if isPieFamily (Chart.chartType config) then Chart.categoryColumn config
  else Chart.xAxisColumn config.

Definition aiValueCol (config : Chart.t) : option string :=
  if isPieFamily (Chart.chartType config) then Chart.valueColumn config
  else Chart.yAxisColumn config.

(** *** The accumulators

    [sums], [counts] and [acc] are created as [{}] and filled under the
    label values of the rows, so that a label that names a member of
    [Object.prototype] reaches what they inherit. *)

(** Whether a string is empty, and the string itself when no source
    text of a function is part of it. *)
Definition isEmptyText (t : text) : bool :=
  forallb (fun p => match p with Chars s => isEmpty s | SourceOf _ => false end) t.

Fixpoint plainText (t : text) : option string :=
  match t with
  | [] => Some EmptyString
  | Chars s :: r => match plainText r with Some s' => Some (s +:+ s') | None => None end
  | SourceOf _ :: _ => None
  end.

(** The number a string converts to; the source text of a function is
    not the text of a number. *)
Definition textNumber (t : text) : number :=
  match plainText t with
  | Some s => js_Number s
  | None => NaN
  end.

(** What [+] makes of the object that [acc[k]] finds when [acc] has no
    property of its own under [k]: the source text of the function, or
    [[object Object]] for [Object.prototype]; [None] when it finds
    nothing. *)
Definition inheritedText (k : string) : option text :=
  if Proto.isFunction k then Some [SourceOf k]
  else if Proto.isAccessor k then Some [Chars "[object Object]"]
  else None.

Definition textOf (x : entry number) : text :=
  match x with
  | Plain n => [Chars (numberToString n)]
  | Text t => t
  end.

(** [x + y] *)
Definition plus (x y : entry number) : entry number :=
  match x, y with
  | Plain a, Plain b => Plain (add a b)
  | _, _ => Text (textOf x ++ textOf y)
  end.

(** [acc[k] || 0] where [acc] holds totals. *)
Definition totalOrZero (acc : Obj.t (entry number)) (k : string) : entry number :=
  match Obj.get acc k with
  | Some (Plain n) => Plain (orZero (Some n))
  | Some (Text t) => if isEmptyText t then Plain zero else Text t
  | None => match inheritedText k with
            | Some t => Text t
            | None => Plain zero
            end
  end.

(** [(acc[k] || 0) + 1] where [acc] holds counts. *)
Definition countPlusOne (acc : Obj.t (entry nat)) (k : string) : entry nat :=
  match Obj.get acc k with
  | Some (Plain c) => Plain (S c)
  | Some (Text t) => if isEmptyText t then Plain 1 else Text (t ++ [Chars "1"])
  | None => match inheritedText k with
            | Some t => Text (t ++ [Chars "1"])
            | None => Plain 1
            end
  end.

(** The [average] branch: sums and counts per label. *)
Definition addToAverage (labelCol valueCol : string)
    (acc : Obj.t (entry number) * Obj.t (entry nat)) (r : row)
  : Obj.t (entry number) * Obj.t (entry nat) :=
  let '(sums, counts) := acc in
  let key := r !! labelCol in
  let value := parseCell (r !! valueCol) in
  if truthy key && negb (isNaN value) then
    let k := toString key in
    (Proto.assign sums k (plus (totalOrZero sums k) (Plain value)),
     Proto.assign counts k (countPlusOne counts k))
  else acc.

(** [counts[key] > 0], and the numbers that [sums[key] / counts[key]]
    divides. *)
Definition countPositive (c : entry nat) : bool :=
  match c with
  | Plain c => (0 <? c)%nat
  | Text t => gtb (textNumber t) zero
  end.

Definition countNumber (c : entry nat) : number :=
  match c with
  | Plain c => of_nat c
  | Text t => textNumber t
  end.

Definition totalNumber (x : entry number) : number :=
  match x with
  | Plain n => n
  | Text t => textNumber t
  end.

(** The loop over the keys of [sums]; a key that [counts] does not have
    itself finds an object or nothing there, which is not above 0. *)
Definition averages (sums : Obj.t (entry number)) (counts : Obj.t (entry nat))
  : Obj.t (entry number) :=
  fold_left (fun aggregated '(key, s) =>
               match Obj.get counts key with
               | Some c => if countPositive c
                           then Proto.assign aggregated key
                                  (Plain (div (totalNumber s) (countNumber c)))
                           else aggregated
               | None => aggregated
               end) sums [].

(** The [sum] branch. *)
Definition addToSum (labelCol valueCol : string) (acc : Obj.t (entry number)) (r : row)
  : Obj.t (entry number) :=
  let key := r !! labelCol in
  let value := parseCell (r !! valueCol) in
  if truthy key && negb (isNaN value) then
    let k := toString key in
    Proto.assign acc k (plus (totalOrZero acc k) (Plain value))
  else acc.

(** The [count] branch. *)
Definition addToCount (labelCol : string) (acc : Obj.t (entry nat)) (r : row)
  : Obj.t (entry nat) :=
  let key := r !! labelCol in
  if truthy key then
    let k := toString key in
    Proto.assign acc k (countPlusOne acc k)
  else acc.

(** A count as a value of the chart. *)
Definition counted (c : entry nat) : entry number :=
  match c with
  | Plain c => Plain (of_nat c)
  | Text t => Text t
  end.

(** The [aggregated] object of [prepareChartData]. *)
Definition chartAggregate (aggregation : string) (labelCol : string)
    (valueCol : option string) (data : list row) : Obj.t (entry number) :=
  match valueCol with
  | Some v =>
      if String.eqb aggregation "average" then
        let '(sums, counts) := fold_left (addToAverage labelCol v) data ([], []) in
        averages sums counts
      else if String.eqb aggregation "sum" then
        fold_left (addToSum labelCol v) data []
      else
        map (fun '(k, c) => (k, counted c)) (fold_left (addToCount labelCol) data [])
  | None =>
      map (fun '(k, c) => (k, counted c)) (fold_left (addToCount labelCol) data [])
  end.

Context `{Host}.

(** The comparators of the two presentation orders. *)
Definition byValueDescending (a b : string * entry number) : comparison :=
  sign (sub (totalNumber (snd b)) (totalNumber (snd a))).

Definition byLabel (a b : string * entry number) : comparison :=
  let dateA := Date_parse (fst a) in
  let dateB := Date_parse (fst b) in
  if negb (isNaN dateA) && negb (isNaN dateB) then sign (sub dateA dateB)
  else localeCompareNumeric (fst a) (fst b).

Definition sortItems (chartType : string) (allItems : list (string * entry number))
  : list (string * entry number) :=
  if isCategorical chartType then sortBy byValueDescending allItems
  else sortBy byLabel allItems.

Definition MAX_CATEGORIES_TO_DISPLAY : nat := 20.

(** Labels and values after the grouping into ['Other']. *)
Definition collapse (chartType : string) (allItems : list (string * entry number))
  : list string * list (entry number) :=
  if isCategorical chartType
     && (MAX_CATEGORIES_TO_DISPLAY <? length allItems)%nat
  then
    let topItems := take (MAX_CATEGORIES_TO_DISPLAY - 1) allItems in
    let otherItems := drop (MAX_CATEGORIES_TO_DISPLAY - 1) allItems in
    let otherSum :=
      fold_left (fun sum '(_, value) => plus sum value) otherItems (Plain zero) in
    (map fst topItems ++ ["Other"], map snd topItems ++ [otherSum])
  else (map fst allItems, map snd allItems).

Definition joinColumns (l : list string) : string :=
  match l with
  | [] => EmptyString
  | x :: r => fold_left (fun acc y => acc +:+ ", " +:+ y) r x
  end.

Definition noMatch (what : string) (name : option string) (cols : list string) : string :=
  "Invalid column name for chart " +:+ what +:+ ". Could not find a match for "
  +:+ dq +:+ propertyKey name +:+ dq +:+ ". Available columns are: ["
  +:+ joinColumns cols +:+ "]".

(** The label column and the value column of the chart, resolved
    against the fields, or the message of the error thrown. *)
Definition resolveColumns (config : Chart.t) (actualColumns : list string)
  : outcome (string * option string) :=
  let aggregation := Chart.aggregation config in
  let labelCol := findMatchingColumn (aiLabelCol config) actualColumns in
  let valueCol := if String.eqb aggregation "count" then None
                  else findMatchingColumn (aiValueCol config) actualColumns in
  match labelCol with
  | None => Throw (noMatch "labels" (aiLabelCol config) actualColumns)
  | Some labelCol =>
      if negb (String.eqb aggregation "count")
         && match valueCol with None => true | Some _ => false end
      then Throw (noMatch "values" (aiValueCol config) actualColumns)
      else Ok (labelCol, valueCol)
  end.

(** [prepareChartData(config)] for the rows and fields of the active
    view: the prepared chart, [null] for an unknown chart type, or the
    thrown message. *)
Definition prepareChartData (config : Chart.t) (data : list row)
    (actualColumns : list string) : outcome (option prepared) :=
  let chartType := Chart.chartType config in
  let aggregation := Chart.aggregation config in
  if isAggregated chartType then
    match resolveColumns config actualColumns with
    | Throw message => Throw message
    | Ok (labelCol, valueCol) =>
        let aggregated := chartAggregate aggregation labelCol valueCol data in
        let '(labels, values) := collapse chartType (sortItems chartType aggregated) in
        let title :=
          match valueCol with
          | Some v => if String.eqb aggregation "average" then "Average of " +:+ v
                      else if String.eqb aggregation "sum" then "Total " +:+ v
                      else "Count"
          | None => "Count"
          end in
        Ok (Some (Series {|
          labels := labels;
          values := values;
          datasetLabel :=
            match valueCol with
            | Some v => if String.eqb aggregation "average" then "Average of " +:+ v
                        else "Total " +:+ v
            | None => "Count"
            end;
          titleX := labelCol;
          titleY := title |}))
    end
  else if String.eqb chartType "scatter" then
    match findMatchingColumn (Chart.xAxisColumn config) actualColumns,
          findMatchingColumn (Chart.yAxisColumn config) actualColumns with
    | Some matchedX, Some matchedY =>
        let points :=
          List.filter (fun p => negb (isNaN (fst p)) && negb (isNaN (snd p)))
            (map (fun r => (parseCell (r !! matchedX), parseCell (r !! matchedY))) data) in
        Ok (Some (Scatter points (matchedY +:+ " vs " +:+ matchedX) matchedX matchedY))
    | mx, my =>
        Throw ("Invalid column names for scatter plot. "
               +:+ match mx with
                   | None => "Could not find a match for column " +:+ dq
                             +:+ propertyKey (Chart.xAxisColumn config) +:+ dq +:+ ". "
                   | Some _ => EmptyString
                   end
               +:+ match my with
                   | None => "Could not find a match for column " +:+ dq
                             +:+ propertyKey (Chart.yAxisColumn config) +:+ dq +:+ ". "
                   | Some _ => EmptyString
                   end
               +:+ "Available columns are: [" +:+ joinColumns actualColumns +:+ "]")
    end
  else Ok None.

End ChartData.

(** ** The session

    The global variables of the application, with the heap. *)

Module Filter.
Record t := {
  column : string;
  value : string
}.

#[global] Instance eq_dec : EqDecision t.
Proof. solve_decision. Defined.
End Filter.

Record world := {
  objects : heap;
  originalData : option ref;
  activeData : option ref;
  activeFilters : list Filter.t;
  stagedFilters : list Filter.t;
  isFilteredState : bool
}.

Abbreviation App := (ST world).

Definition initialWorld : world :=
  {| objects := []; originalData := None; activeData := None;
     activeFilters := []; stagedFilters := []; isFilteredState := false |}.

(** Running a heap computation in the session. *)
Definition onHeap {A} (m : M A) : App A := fun w =>
  let '(h, res) := m (objects w) in
  ({| objects := h; originalData := originalData w; activeData := activeData w;
      activeFilters := activeFilters w; stagedFilters := stagedFilters w;
      isFilteredState := isFilteredState w |}, res).

Definition get {A} (f : world -> A) : App A := fun w => (w, Ok (f w)).

Definition modify (f : world -> world) : App unit := fun w => (f w, Ok tt).

Definition setData (original active : option ref) (w : world) : world :=
  {| objects := objects w; originalData := original; activeData := active;
     activeFilters := activeFilters w; stagedFilters := stagedFilters w;
     isFilteredState := isFilteredState w |}.

Definition setActiveData (active : option ref) (flag : bool) (w : world) : world :=
  {| objects := objects w; originalData := originalData w; activeData := active;
     activeFilters := activeFilters w; stagedFilters := stagedFilters w;
     isFilteredState := flag |}.

Definition setActiveFilters (l : list Filter.t) (w : world) : world :=
  {| objects := objects w; originalData := originalData w; activeData := activeData w;
     activeFilters := l; stagedFilters := stagedFilters w;
     isFilteredState := isFilteredState w |}.

Definition setStagedFilters (l : list Filter.t) (w : world) : world :=
  {| objects := objects w; originalData := originalData w; activeData := activeData w;
     activeFilters := activeFilters w; stagedFilters := l;
     isFilteredState := isFilteredState w |}.

Definition setFilteredState (flag : bool) (w : world) : world :=
  {| objects := objects w; originalData := originalData w; activeData := activeData w;
     activeFilters := activeFilters w; stagedFilters := stagedFilters w;
     isFilteredState := flag |}.

Section Session.
Import Str Js.
Context `{Host}.

(** What the parser hands over: a new [{data, meta: {fields}}]. *)
Definition parsed (rows : list row) (fieldNames : list string) : M ref :=
  rs ← arrayMap (fun x => alloc (Row x)) rows;
  a ← alloc (RowArray rs);
  m ← alloc (Meta {| fields := fieldNames; inferredTypes := None |});
  alloc (Data a m).

(** [handleSuccessfulParse(results, fileName)] *)
Definition handleSuccessfulParse (results : ref) : App unit :=
  _ ← onHeap (
    '(a, m) ← getData results;
    rows ← getArray a;
    mt ← getMeta m;
    xs ← arrayMap getRow rows;
    let cleaned := cleanAndNormalizeData xs (fields mt) in
    _ ← arrayForEach (fun '(r, x) => store r (Row x)) (zip rows cleaned);
    store m (Meta {| fields := fields mt;
                     inferredTypes := Some (inferColumnTypes cleaned (fields mt)) |}));
  modify (setData (Some results) (Some results)).

(** [clearData()] *)
Definition clearData : App unit :=
  modify (fun w =>
    {| objects := objects w; originalData := None; activeData := None;
       activeFilters := []; stagedFilters := []; isFilteredState := false |}).

(** The test of one filter on a row in [applyFilters]. *)
Definition matchesFilter (filter : Filter.t) (x : row) : bool :=
  String.eqb (toString (x !! Filter.column filter))
             (toString (Some (VStr (Filter.value filter)))).

(** The object [{...originalData, data: filteredRows}] of [applyFilters]:
    every filter makes a new array out of the rows that pass it. *)
Definition filteredView (filters : list Filter.t) (original : ref) : M ref :=
  '(a, m) ← getData original;
  filteredRows ← arrayFold (fun cur filter =>
      rows ← getArray cur;
      kept ← arrayFilter (fun r => x ← getRow r; mret (matchesFilter filter x)) rows;
      alloc (RowArray kept)) a filters;
  alloc (Data filteredRows m).

(** [updateSidebarStats(dataObject)] shows [dataObject.data.length] and
    [dataObject.meta.fields.length] in the side bar: it needs a dataset
    object, whose [data] has a length or none, and a [meta] with
    [fields]. *)
Definition updateSidebarStats (dataObject : option ref) : App unit :=
  match dataObject with
  | None => throw TypeError
  | Some d =>
      onHeap ('(_, m) ← getData d;
              _ ← getMeta m;
              mret tt)
  end.

(** [applyFilters()]; with filters, the side bar is updated by
    [updateUiForFilters]. *)
Definition applyFilters : App unit :=
  filters ← get activeFilters;
  match filters with
  | _ :: _ =>
      original ← get originalData;
      match original with
      | None => throw TypeError
      | Some o =>
          view ← onHeap (filteredView filters o);
          _ ← modify (setActiveData (Some view) true);
          active ← get activeData;
          updateSidebarStats active
      end
  | [] =>
      original ← get originalData;
      _ ← modify (setActiveData original false);
      active ← get activeData;
      updateSidebarStats active
  end.

(** [handleClearFilters()] *)
Definition handleClearFilters : App unit :=
  _ ← modify (setActiveFilters []);
  applyFilters.

Definition sameFilter (a b : Filter.t) : bool :=
  String.eqb (Filter.column a) (Filter.column b)
  && String.eqb (Filter.value a) (Filter.value b).

(** The duplicates removed from the active filters: an entry stays when
    no entry before it ([seen]) has its column and value. *)
Fixpoint firstOccurrences (seen l : list Filter.t) : list Filter.t :=
  match l with
  | [] => []
  | f :: r =>
      if existsb (fun g => sameFilter g f) seen
      then firstOccurrences (seen ++ [f]) r
      else f :: firstOccurrences (seen ++ [f]) r
  end.

(** [handleApplyStagedFilters()] *)
Definition handleApplyStagedFilters : App unit :=
  _ ← modify (fun w =>
        setActiveFilters (firstOccurrences [] (activeFilters w ++ stagedFilters w)) w);
  _ ← modify (setStagedFilters []);
  applyFilters.

(** [handleCancelStaging()] *)
Definition handleCancelStaging : App unit :=
  modify (setStagedFilters []).

(** The click on a remove button of the staging list:
    [stagedFilters.splice(indexToRemove, 1)]. *)
Definition removeStaged (indexToRemove : nat) : App unit :=
  modify (fun w => setStagedFilters (delete indexToRemove (stagedFilters w)) w).

(** The double click on an element of a chart drawn from the dataset
    ([onClick] of [renderVisualization]); [clickedLabel] is the label of
    the element. *)
Definition stageFilter (config : Chart.t) (clickedLabel : string) : App unit :=
  let labelColName :=
    if isPieFamily (Chart.chartType config) then Chart.categoryColumn config
    else Chart.xAxisColumn config in
  active ← get activeData;
  match active with
  | None => throw TypeError
  | Some d =>
      '(_, mt) ← onHeap (metaOf d);
      match findMatchingColumn labelColName (fields mt) with
      | Some filterColumn =>
          if negb (isEmpty clickedLabel) then
            let newFilter := {| Filter.column := filterColumn;
                                Filter.value := clickedLabel |} in
            staged ← get stagedFilters;
            activeNow ← get activeFilters;
            let isDuplicate := existsb (fun f => sameFilter f newFilter) staged in
            let isAlreadyActive := existsb (fun f => sameFilter f newFilter) activeNow in
            if negb isDuplicate && negb isAlreadyActive
            then modify (setStagedFilters (staged ++ [newFilter]))
            else mret tt
          else mret tt
      | None => mret tt
      end
  end.

(** What [handleTransformation] tells the user. *)
Inductive report :=
| Transformed (message : string)
| NotApplied (message : string).

(** [handleTransformation(userQuery)] from the parsed answer [config] of
    the assistant on. *)
Definition handleTransformation (config : Config.t) : App report :=
  try
    (if String.eqb (Config.action config) "error" then
       mret (NotApplied (default "undefined" (Config.explanation config)))
     else
       original ← get originalData;
       match original with
       | None => throw TypeError
       | Some o =>
           result ← onHeap (applyTransformation config o);
           match result with
           | Success message newData =>
               _ ← modify (setData (Some newData) (Some newData));
               filters ← get activeFilters;
               _ ← match filters with
                   | _ :: _ =>
                       _ ← modify (setActiveFilters []);
                       modify (setFilteredState false)
                   | [] => mret tt
                   end;
               mret (Transformed message)
           | Failure message => mret (NotApplied message)
           end
       end)
    (fun _ => mret (NotApplied
       "The requested data transformation could not be applied. Please check your query and try again.")).

(** The events of a session. *)
Inductive event :=
| FileParsed (rows : list row) (fieldNames : list string)
| DataCleared
| FilterStaged (config : Chart.t) (clickedLabel : string)
| StagedRemoved (index : nat)
| StagedApplied
| StagingCancelled
| FiltersCleared
| TransformationAnswered (config : Config.t)
| PlanAnswered (plan : list Step.t).

Definition handle (e : event) : App unit :=
  match e with
  | FileParsed rows fieldNames =>
      results ← onHeap (parsed rows fieldNames);
      handleSuccessfulParse results
  | DataCleared => clearData
  | FilterStaged config clickedLabel => stageFilter config clickedLabel
  | StagedRemoved index => removeStaged index
  | StagedApplied => handleApplyStagedFilters
  | StagingCancelled => handleCancelStaging
  | FiltersCleared => handleClearFilters
  | TransformationAnswered config => _ ← handleTransformation config; mret tt
  | PlanAnswered plan =>
      active ← get activeData;
      match active with
      | None => throw TypeError
      | Some d => _ ← onHeap (executeAnalysisPlan d plan); mret tt
      end
  end.

(** The worlds a session can be in. *)
Inductive reachable : world -> Prop :=
| reachable_initial : reachable initialWorld
| reachable_step w e : reachable w -> reachable (handle e w).1.

End Session.

(** The filter a double click asks to stage, if it names one: the
    column the chart's label column resolves to, and the label. *)
Definition stageTarget (config : Chart.t) (clickedLabel : string) (w : world)
  : option Filter.t :=
  match activeData w with
  | None => None
  | Some d =>
      match metaOf d (objects w) with
      | (_, Ok (_, mt)) =>
          match findMatchingColumn
                  (if isPieFamily (Chart.chartType config)
                   then Chart.categoryColumn config else Chart.xAxisColumn config)
                  (fields mt) with
          | Some col =>
              if Str.isEmpty clickedLabel then None
              else Some {| Filter.column := col; Filter.value := clickedLabel |}
          | None => None
          end
      | _ => None
      end
  end.

(** ** Worked examples *)

(** A host for the worked examples, none of which reaches it: its
    [Date.parse] reads no date and its collation orders code units. *)
Definition exampleHost : Host :=
  {| Date_parse := fun _ => Num.NaN;
     localeCompare := String.compare;
     localeCompareNumeric := String.compare |}.

(** The session of the example: a file with the column [x] was loaded. *)
Definition loadedWorld : world :=
  (handle (H := exampleHost)
     (FileParsed [{[ "x" := VStr "a" ]}; {[ "x" := VStr "b" ]}] ["x"]) initialWorld).1.

Definition barOfX : Chart.t :=
  {| Chart.chartType := "bar"; Chart.xAxisColumn := Some "x";
     Chart.yAxisColumn := None; Chart.categoryColumn := None;
     Chart.valueColumn := None; Chart.aggregation := "count" |}.

(** Twenty-five groups [g1] ... [g25] whose values are 1 ... 25, and a
    bar chart of their sums. *)
Definition twentyFiveGroups : list row :=
  map (fun i => {[ "k" := VStr ("g" +:+ Str.ofN (N.of_nat i));
                   "v" := VStr (Str.ofN (N.of_nat i)) ]})
      (seq 1 25).

(** Twenty-one labels with one row each, the last of which names a
    function of [Object.prototype]. *)
Definition twentyOneLabels : list row :=
  map (fun i => {[ "x" := VStr ("g" +:+ Str.ofN (N.of_nat i)) ]}) (seq 1 20)
  ++ [ {[ "x" := VStr "constructor" ]} ].

Definition barOfSums : Chart.t :=
  {| Chart.chartType := "bar"; Chart.xAxisColumn := Some "k";
     Chart.yAxisColumn := Some "v"; Chart.categoryColumn := None;
     Chart.valueColumn := None; Chart.aggregation := "sum" |}.




Definition prices : list row :=
  [ {[ "p" := VStr "$1,200" ]}; {[ "p" := VStr "$950" ]} ].

(** The rows of the aggregation example, and a heap that holds them as
    a dataset. *)
Definition salesRows : list row :=
  [ {[ "g" := VStr "A"; "v" := VStr "10" ]};
    {[ "g" := VStr "A"; "v" := VStr "20" ]};
    {[ "g" := VStr "B"; "v" := VStr "5" ]} ].

Definition salesHeap : heap := (parsed salesRows ["g"; "v"] []).1.

(** One row whose key names a function of [Object.prototype], one whose
    key is [__proto__], and heaps that hold each as a dataset. *)
Definition inheritedKeyRows : list row :=
  [ {[ "g" := VStr "constructor"; "v" := VStr "10" ]} ].

Definition inheritedKeyHeap : heap := (parsed inheritedKeyRows ["g"; "v"] []).1.

Definition prototypeKeyRows : list row :=
  [ {[ "g" := VStr "__proto__"; "v" := VStr "10" ]} ].

Definition prototypeKeyHeap : heap := (parsed prototypeKeyRows ["g"; "v"] []).1.

Definition inheritedKeyData : ref := 3.

Definition salesData : ref := 5.

(** [v > 7] *)
Definition aboveSeven : Condition.t :=
  {| Condition.column := "v"; Condition.operator := "greater_than";
     Condition.value := Some (VNum (Num.of_Z 7)) |}.


(** * Predicates of the verification

    What the theorems below say about the definitions above: which
    part of the heap a computation leaves alone, what the session keeps
    true of its filters, what a comparator has to satisfy for a sorted
    list, and the groups of an aggregation. *)

(** ** The heap *)

(** Reading never changes the heap. *)
Definition readOnly {A} (m : M A) : Prop := forall h, (m h).1 = h.

(** A computation that only creates objects. *)
Definition allocOnly {A} (m : M A) : Prop := forall h, exists ext, (m h).1 = h ++ ext.

(** Every cell below [n] is as before, and no cell disappeared. *)
Definition frame (n : nat) (h h' : heap) : Prop :=
  length h <= length h' /\ forall l, l < n -> h' !! l = h !! l.

(** The dataset at [d] has the rows [xs] and the [meta] [mt], and all
    of its cells are at or above [n]. *)
Inductive datasetAt (n : nat) (h : heap) (d : ref) (xs : list row) (mt : meta) : Prop :=
| DatasetAt (a m : ref) (rs : list ref) :
    h !! d = Some (Data a m) ->
    h !! a = Some (RowArray rs) ->
    h !! m = Some (Meta mt) ->
    rowsAt h rs = Some xs ->
    n <= d -> n <= a -> n <= m -> Forall (fun r => n <= r) rs ->
    datasetAt n h d xs mt.

(** The rows as [JSON.stringify] and [JSON.parse] give them back. *)
Definition jsonRows (xs : list row) : list row := map (fmap Js.jsonValue) xs.

(** A step that ends, by returning or throwing, with every cell below
    [n] untouched; what it returns is again a dataset above [n]. *)
Definition safeStep (n : nat) (op : M ref) (h : heap) : Prop :=
  exists h' res,
    op h = (h', res) /\ frame n h h'
    /\ forall d', res = Ok d' -> exists xs' mt', datasetAt n h' d' xs' mt'.

(** Rows and their references, paired. *)
Definition pairsAt (n : nat) (h : heap) (ps : list (ref * row)) : Prop :=
  Forall (fun p => rowAt h p.1 = Some p.2 /\ n <= p.1) ps.

(** From a heap where [P] holds, [m] leaves every cell below [n] as it
    was, and when it returns [a] the heap satisfies [Q a]. *)
Definition triple {A} (n : nat) (P : heap -> Prop) (m : M A) (Q : A -> heap -> Prop)
  : Prop :=
  forall h, P h ->
    frame n h (m h).1
    /\ match (m h).2 with Ok a => Q a (m h).1 | Throw _ => True end.

(** A dataset all of whose cells are at or above [n]. *)
Definition owned (n : nat) (d : ref) (h : heap) : Prop :=
  exists xs mt, datasetAt n h d xs mt.

Arguments rowsAt : simpl never.
Arguments updateSidebarStats : simpl never.

(** ** The filters of a session *)

(** The invariant of the two filter lists and the flag. *)
Record filtersOk (w : world) : Prop := {
  staged_nodup : NoDup (stagedFilters w);
  active_nodup : NoDup (activeFilters w);
  staged_not_active : forall f, f ∈ stagedFilters w -> f ∉ activeFilters w;
  unfiltered_flag : activeFilters w = [] -> isFilteredState w = false
}.

(** The part of the session that the filters are. *)
Definition filtersOf (w : world) : list Filter.t * list Filter.t * bool :=
  (stagedFilters w, activeFilters w, isFilteredState w).

(** Computations that leave the filters alone. *)
Definition keepsFilters {A} (m : App A) : Prop :=
  forall w, filtersOf (m w).1 = filtersOf w.

(** ** Comparators *)

Section Comparators.
Context {A : Type} (cmp : A -> A -> comparison).

(** [a] may stand before [b]: the comparator does not ask for [b] first. *)
Definition inOrder (a b : A) : Prop := cmp a b <> Gt.

(** The comparator never asks for both orders of a pair. *)
Definition antisymmetric : Prop := forall a b, cmp a b = Gt -> cmp b a <> Gt.

(** The comparator is transitive on the members of [l]. *)
Definition transitiveOn (l : list A) : Prop :=
  forall a b c, a ∈ l -> b ∈ l -> c ∈ l ->
                inOrder a b -> inOrder b c -> inOrder a c.

End Comparators.

(** Transitivity on a list, checked by computation. *)
Definition transitiveOnb {A} (cmp : A -> A -> comparison) (l : list A) : bool :=
  let ok a b := match cmp a b with Gt => false | _ => true end in
  forallb (fun a => forallb (fun b => forallb (fun c =>
    implb (ok a b && ok b c) (ok a c)) l) l) l.

(** What [applyFilters] does to the session before it updates the
    side bar. *)
Definition activeViewUpdate : App unit :=
  filters ← get activeFilters;
  match filters with
  | _ :: _ =>
      original ← get originalData;
      match original with
      | None => throw TypeError
      | Some o =>
          view ← onHeap (filteredView filters o);
          modify (setActiveData (Some view) true)
      end
  | [] =>
      original ← get originalData;
      modify (setActiveData original false)
  end.

(** ** Labels and groups *)

Section Labels.
Variable labelCol : string.

(** The rows that [chartAggregate] looks at. *)
Definition hasLabel (r : row) : bool := Js.truthy (r !! labelCol).


(** No row has a label that names a member of [Object.prototype]. *)
Definition ownLabels (data : list row) : bool :=
  forallb (fun r => negb (hasLabel r)
                    || negb (Proto.isMember (Js.toString (r !! labelCol)))) data.

End Labels.

(** An entry that holds what the accumulator is meant to hold. *)
Definition plainEntry {A} (e : entry A) : bool :=
  match e with
  | Plain _ => true
  | Text _ => false
  end.



(** ** More worked examples *)

(** A new column [y] for the loaded file. *)
Definition addColumn : Config.t :=
  {| Config.action := "create_column"; Config.explanation := None;
     Config.conditions := None; Config.newColumn := "y";
     Config.column1 := "x"; Config.operator := "add"; Config.column2 := "x";
     Config.oldColumn := EmptyString |}.

(** A second column [x] for the loaded file, which has one already. *)
Definition addExistingColumn : Config.t :=
  {| Config.action := "create_column"; Config.explanation := None;
     Config.conditions := None; Config.newColumn := "x";
     Config.column1 := "x"; Config.operator := "add"; Config.column2 := "x";
     Config.oldColumn := EmptyString |}.

(** The session after the filter [x = a] was staged and applied. *)
Definition filteredWorld : world :=
  (handleApplyStagedFilters (stageFilter barOfX "a" loadedWorld).1).1.

(** A host that reads every string as a date. *)
Definition datesEverywhere : Host :=
  {| Date_parse := fun _ => Num.zero;
     localeCompare := String.compare;
     localeCompareNumeric := String.compare |}.

(** * Further predicates *)

(** ** Loading *)

Section LoadWords.
Import Num Str Conv Js.

(** What the cleaning of its field makes of a cell: the number that a
    string strips to, when it strips to one, and the cell otherwise. *)
Definition cleanedCell (val : option Value) : option Value :=
  match val with
  | Some (VStr s) =>
      let cleaned := remove isNoise s in
      if negb (isEmpty cleaned) && negb (isNaN (js_Number cleaned))
      then Some (VNum (js_Number cleaned))
      else val
  | _ => val
  end.

(** The sampled values that [inferColumnTypes] skips. *)
Definition skipped (val : option Value) : bool :=
  match val with
  | None | Some VNull | Some (VStr EmptyString) => true
  | Some _ => false
  end.

Context `{Host}.

(** The temporal check of [inferColumnTypes] on a sampled value: the
    value is skipped, or it is not a number and [Date.parse] reads it. *)
Definition looksTemporal (val : option Value) : bool :=
  match val with
  | None | Some VNull | Some (VStr EmptyString) => true
  | Some (VNum _) => false
  | Some _ => negb (isNaN (Date_parse (toString val)))
  end.

End LoadWords.

(** The distinct values of a column of the sample, as the [Set] of
    [inferColumnTypes] collects them. *)
Definition distinctValues (sample : list row) (field : string) : list Value :=
  fold_left (fun s (r : row) =>
               match r !! field with
               | Some v => if skipped (Some v) then s else setAdd s v
               | None => s
               end) sample [].

(** ** Charts *)

(** The form in which [findMatchingColumn] compares names. *)
Definition normalized (s : string) : string := Str.toLowerCase (Str.trim s).



(** The total of the values of rows as the accumulators of
    [prepareChartData] build it, [(acc[key] || 0) + value]: a total
    that is zero or [NaN] counts as [0] when the next value is added. *)
Definition runningTotal (valueCol : string) (members : list row) : number :=
  fold_left (fun acc (r : row) =>
               Num.add (orZero (Some acc)) (Js.parseCell (r !! valueCol)))
            members Num.zero.


(** What the accumulator of totals holds under a label whose rows are
    [members]. *)
Definition totalEntry (valueCol label : string) (members : list row)
  : option (entry number) :=
  match members with
  | [] => None
  | _ =>
      if Proto.isAccessor label then None
      else if Proto.isFunction label
           then Some (Text (SourceOf label
                              :: map (fun r : row =>
                                        Chars (Conv.numberToString (Js.parseCell (r !! valueCol))))
                                     members))
           else Some (Plain (runningTotal valueCol members))
  end.

(** ** Steps *)

(** The collation of the host turns around with its operands. *)
Definition collationTurns `{Host} : Prop :=
  forall a b, localeCompare b a = CompOpp (localeCompare a b).

(** ** Export

    The names of the files that [exportChart], [exportAsCsv] and
    [exportAsExcel] offer for download. *)

Section ExportNames.
Import Str.

(** [/[a-z0-9]/i] *)
Definition isAlphanumeric (c : ascii) : bool :=
  isDigit c
  || ((97 <=? code c)%nat && (code c <=? 122)%nat)
  || ((65 <=? code c)%nat && (code c <=? 90)%nat).

(** [title.replace(/[^a-z0-9]/gi, '_')] *)
Fixpoint underscored (s : string) : string :=
  match s with
  | String c r => String (if isAlphanumeric c then c else "_"%char) (underscored r)
  | EmptyString => EmptyString
  end.

(** [sanitizedTitle] of [exportChart] *)
Definition sanitizedTitle (title : option string) : string :=
  match title with
  | Some t => if isEmpty t then "chart" else toLowerCase (underscored t)
  | None => "chart"
  end.

(** The [download] attribute of [exportChart]. *)
Definition chartFileName (title : option string) : string :=
  sanitizedTitle title +:+ ".png".

(** [name.replace(/\.(csv|xlsx|xls)$/, '')]: the first position from
    which the rest of the name is one of the three extensions, if there
    is one, ends the name. *)
Fixpoint stripExtension (name : string) : string :=
  if String.eqb name ".csv" || String.eqb name ".xlsx" || String.eqb name ".xls"
  then EmptyString
  else match name with
       | String c r => String c (stripExtension r)
       | EmptyString => EmptyString
       end.

(** [fileName] of [exportAsCsv] and [exportAsExcel], from the text of
    the file name element. *)
Definition exportBaseName (textContent : option string) : string :=
  stripExtension
    (match textContent with
     | Some t => if isEmpty t then "data_export" else t
     | None => "data_export"
     end).

Definition csvFileName (textContent : option string) : string :=
  exportBaseName textContent +:+ "_transformed.csv".

Definition excelFileName (textContent : option string) : string :=
  exportBaseName textContent +:+ "_transformed.xlsx".

(** The characters of a sanitized title. *)
Definition isPlain (c : ascii) : bool :=
  isDigit c || ((97 <=? code c)%nat && (code c <=? 122)%nat) || Ascii.eqb c "_".

End ExportNames.

(** ** Examples of columns, steps and transformations *)

(** Years that a host reads as dates, and a column of city names. *)
Definition yearsAndCities : list row :=
  [ {[ "year" := VStr "2023"; "city" := VStr "Paris" ]};
    {[ "year" := VStr "2024"; "city" := VStr "Paris" ]};
    {[ "year" := VNum (Num.of_Z 2025); "city" := VStr "Rome" ]} ].

(** The parameters of a step, and the step of an action with them. *)
Definition someParams : Params.t :=
  {| Params.conditions := Some []; Params.newColumn := EmptyString;
     Params.column1 := EmptyString; Params.operator := EmptyString;
     Params.column2 := EmptyString; Params.oldColumn := EmptyString;
     Params.groupBy := "g"; Params.aggregation := "sum";
     Params.valueColumn := Some "v"; Params.column := "v";
     Params.order := "ascending"; Params.count := Some (Num.of_Z 1);
     Params.xAxisColumn := "g"; Params.yAxisColumn := "v" |}.

Definition stepOf (action : string) : Step.t :=
  {| Step.action := action; Step.explanation := EmptyString;
     Step.params := Some someParams |}.

(** Transformations of the loaded file: remove the rows whose [x] is
    [a], rename [x] to [z], rename a column [q] that is not there, and
    an action that does not exist. *)
Definition transformationOf (action : string) (oldColumn newColumn : string)
  : Config.t :=
  {| Config.action := action; Config.explanation := None;
     Config.conditions :=
       Some [ {| Condition.column := "x"; Condition.operator := "equals";
                 Condition.value := Some (VStr "a") |} ];
     Config.newColumn := newColumn;
     Config.column1 := "x"; Config.operator := "add"; Config.column2 := "x";
     Config.oldColumn := oldColumn |}.

(** The master of the loaded file. *)
Definition loadedMaster : dataset :=
  {| data := [{[ "x" := VStr "a" ]}; {[ "x" := VStr "b" ]}];
     dmeta := {| fields := ["x"];
                 inferredTypes := Some {[ "x" := stringType ]} |} |}.
(** * Properties *)

(** ** The monad *)

Lemma bind_ok {S A B} (m : ST S A) (f : A -> ST S B) s s1 a :
  m s = (s1, Ok a) -> (m ≫= f) s = f a s1.
Proof. intros E. unfold mbind, ST_bind. now rewrite E. Qed.

Lemma bind_throw {S A B} (m : ST S A) (f : A -> ST S B) s s1 e :
  m s = (s1, Throw e) -> (m ≫= f) s = (s1, Throw e).
Proof. intros E. unfold mbind, ST_bind. now rewrite E. Qed.

Lemma bind_inv {S A B} (m : ST S A) (f : A -> ST S B) s s2 res :
  (m ≫= f) s = (s2, res) ->
  (exists s1 a, m s = (s1, Ok a) /\ f a s1 = (s2, res))
  \/ (exists e, m s = (s2, Throw e) /\ res = Throw e).
Proof.
  unfold mbind, ST_bind. destruct (m s) as [s1 [a|e]]; intros E.
  - left. eauto.
  - right. inversion E; subst. eauto.
Qed.

Lemma readOnly_ret {A} (a : A) : readOnly (mret a).
Proof. now intros h. Qed.

Lemma readOnly_throw {A} e : readOnly (throw (A := A) e).
Proof. now intros h. Qed.

Lemma readOnly_bind {A B} (m : M A) (f : A -> M B) :
  readOnly m -> (forall a, readOnly (f a)) -> readOnly (m ≫= f).
Proof.
  intros Hm Hf h. unfold mbind, ST_bind.
  specialize (Hm h). destruct (m h) as [h1 [a|e]]; simpl in *; subst; auto.
  apply Hf.
Qed.

Lemma readOnly_load r : readOnly (load r).
Proof. intros h. unfold load. now destruct (h !! r). Qed.

Lemma readOnly_getRow r : readOnly (getRow r).
Proof.
  apply readOnly_bind; [apply readOnly_load|].
  intros []; auto using readOnly_ret, readOnly_throw.
Qed.

Lemma readOnly_getArray r : readOnly (getArray r).
Proof.
  apply readOnly_bind; [apply readOnly_load|].
  intros []; auto using readOnly_ret, readOnly_throw.
Qed.

Lemma readOnly_getMeta r : readOnly (getMeta r).
Proof.
  apply readOnly_bind; [apply readOnly_load|].
  intros []; auto using readOnly_ret, readOnly_throw.
Qed.

Lemma readOnly_getData r : readOnly (getData r).
Proof.
  apply readOnly_bind; [apply readOnly_load|].
  intros []; auto using readOnly_ret, readOnly_throw.
Qed.

Lemma readOnly_metaOf d : readOnly (metaOf d).
Proof.
  apply readOnly_bind; [apply readOnly_getData|]. intros [a m].
  apply readOnly_bind; [apply readOnly_getMeta|]. intros mt.
  apply readOnly_ret.
Qed.


Lemma readOnly_arrayFilter {A} (f : A -> M bool) l :
  (forall a, readOnly (f a)) -> readOnly (arrayFilter f l).
Proof.
  intros Hf. induction l as [|x l IH]; simpl; [apply readOnly_ret|].
  apply readOnly_bind; [apply Hf|]. intros y.
  apply readOnly_bind; [apply IH|]. intros ys. apply readOnly_ret.
Qed.

(** ** Filters: staging and committing *)

Section FilterProperties.
Context `{Host}.

Lemma sameFilter_true a b : sameFilter a b = true <-> a = b.
Proof.
  unfold sameFilter. destruct a as [c v], b as [c' v']; simpl.
  rewrite andb_true_iff, !String.eqb_eq. split.
  - now intros [-> ->].
  - intros E. now inversion E.
Qed.

Lemma existsb_sameFilter l f :
  existsb (fun g => sameFilter g f) l = true <-> f ∈ l.
Proof.
  rewrite existsb_exists. split.
  - intros (g & Hin & E). apply sameFilter_true in E. subst.
    now apply list_elem_of_In.
  - intros Hin. exists f. split; [now apply list_elem_of_In|].
    now apply sameFilter_true.
Qed.

Lemma elem_of_firstOccurrences seen l f :
  f ∈ firstOccurrences seen l <-> f ∈ l /\ f ∉ seen.
Proof.
  revert seen. induction l as [|g l IH]; intros seen; simpl.
  - split; [intros Hf; inversion Hf | intros [Hf _]; inversion Hf].
  - destruct (existsb (fun g0 => sameFilter g0 g) seen) eqn:E.
    + apply existsb_sameFilter in E. rewrite IH. set_solver.
    + assert (g ∉ seen) as Hg.
      { intros Hin. apply existsb_sameFilter in Hin. congruence. }
      rewrite elem_of_cons, IH. clear IH E.
      destruct (decide (f = g)) as [->|Hne]; set_solver.
Qed.

Lemma NoDup_firstOccurrences seen l : NoDup (firstOccurrences seen l).
Proof.
  revert seen. induction l as [|g l IH]; intros seen; simpl.
  - constructor.
  - destruct (existsb (fun g0 => sameFilter g0 g) seen); [apply IH|].
    constructor; [|apply IH].
    rewrite elem_of_firstOccurrences. set_solver.
Qed.

Lemma sublist_firstOccurrences seen l : sublist (firstOccurrences seen l) l.
Proof.
  revert seen. induction l as [|g l IH]; intros seen; simpl; [constructor|].
  destruct (existsb (fun g0 => sameFilter g0 g) seen).
  - apply sublist_cons, IH.
  - apply sublist_skip, IH.
Qed.

Lemma firstOccurrences_NoDup seen l :
  (forall f, f ∈ l -> f ∉ seen) -> NoDup l -> firstOccurrences seen l = l.
Proof.
  revert seen. induction l as [|g l IH]; intros seen Hseen Hnd; simpl; [reflexivity|].
  apply NoDup_cons in Hnd as [Hg Hnd].
  assert (existsb (fun g0 => sameFilter g0 g) seen = false) as ->.
  { destruct (existsb _ seen) eqn:E; [|reflexivity].
    apply existsb_sameFilter in E. destruct (Hseen g); [apply list_elem_of_here|exact E]. }
  f_equal. apply IH; [|exact Hnd].
  intros f Hf Hin. apply elem_of_app in Hin as [Hin|Hin].
  - apply (Hseen f); [now apply list_elem_of_further|exact Hin].
  - apply list_elem_of_singleton in Hin. now subst.
Qed.

Lemma filtersOk_ext w w' : filtersOf w' = filtersOf w -> filtersOk w -> filtersOk w'.
Proof.
  unfold filtersOf. intros E [H1 H2 H3 H4]. inversion E as [[E1 E2 E3]].
  constructor; rewrite ?E1, ?E2, ?E3; auto.
Qed.

Lemma keeps_ret {A} (a : A) : keepsFilters (mret a).
Proof. now intros w. Qed.

Lemma keeps_throw {A} e : keepsFilters (throw (A := A) e).
Proof. now intros w. Qed.

Lemma keeps_get {A} (f : world -> A) : keepsFilters (get f).
Proof. now intros w. Qed.

Lemma keeps_onHeap {A} (m : M A) : keepsFilters (onHeap m).
Proof. intros w. unfold onHeap. now destruct (m (objects w)). Qed.

Lemma keeps_setData a b : keepsFilters (modify (setData a b)).
Proof. now intros w. Qed.

Lemma keeps_bind {A B} (m : App A) (f : A -> App B) :
  keepsFilters m -> (forall a, keepsFilters (f a)) -> keepsFilters (m ≫= f).
Proof.
  intros Hm Hf w. unfold mbind, ST_bind.
  specialize (Hm w). destruct (m w) as [w1 [a|e]]; simpl in *; auto.
  now rewrite Hf.
Qed.

Lemma keeps_handleSuccessfulParse r : keepsFilters (handleSuccessfulParse r).
Proof.
  apply keeps_bind; [apply keeps_onHeap|]. intros _. apply keeps_setData.
Qed.

(** Updating the side bar reads the dataset and changes nothing. *)
Lemma updateSidebarStats_state d w : (updateSidebarStats d w).1 = w.
Proof.
  destruct d as [d|]; [|reflexivity]. unfold updateSidebarStats, onHeap.
  match goal with |- context [?m (objects w)] => assert (readOnly m) as Hro end.
  { apply readOnly_bind; [apply readOnly_getData|]. intros [a m].
    apply readOnly_bind; [apply readOnly_getMeta|]. intros _. apply readOnly_ret. }
  specialize (Hro (objects w)).
  match goal with |- context [?m (objects w)] => destruct (m (objects w)) as [h r] end.
  simpl in *. subst h. now destruct w.
Qed.

Lemma applyFilters_state w : (applyFilters w).1 = (activeViewUpdate w).1.
Proof.
  unfold applyFilters, activeViewUpdate, get, modify, mbind, ST_bind; simpl.
  destruct (activeFilters w) as [|f fs]; simpl;
    [exact (updateSidebarStats_state (originalData w) _)|].
  destruct (originalData w) as [o|]; simpl; [|reflexivity].
  destruct (onHeap (filteredView (f :: fs) o) w) as [w1 [v|e]]; simpl;
    [exact (updateSidebarStats_state (Some v) _)|reflexivity].
Qed.

Lemma applyFilters_filters w :
  let w' := (applyFilters w).1 in
  stagedFilters w' = stagedFilters w /\ activeFilters w' = activeFilters w
  /\ (activeFilters w = [] -> isFilteredState w' = false).
Proof.
  cbv zeta. rewrite applyFilters_state.
  unfold activeViewUpdate, get, modify, mbind, ST_bind; simpl.
  destruct (activeFilters w) as [|f fs] eqn:Ea; simpl; [now rewrite Ea|].
  destruct (originalData w) as [o|]; simpl; [|now rewrite Ea].
  unfold onHeap. destruct (filteredView _ o (objects w)) as [h [v|e]]; simpl;
    now rewrite ?Ea.
Qed.

Lemma applyFilters_ok w : filtersOk w -> filtersOk (applyFilters w).1.
Proof.
  intros [H1 H2 H3 H4]. destruct (applyFilters_filters w) as (E1 & E2 & E3).
  constructor; rewrite ?E1, ?E2; auto.
Qed.

Lemma handleApplyStagedFilters_spec w :
  let w' := (handleApplyStagedFilters w).1 in
  stagedFilters w' = []
  /\ activeFilters w' = firstOccurrences [] (activeFilters w ++ stagedFilters w)
  /\ (activeFilters w' = [] -> isFilteredState w' = false).
Proof.
  unfold handleApplyStagedFilters, modify, mbind, ST_bind; simpl.
  match goal with |- context [applyFilters ?w0] =>
    destruct (applyFilters_filters w0) as (E1 & E2 & E3) end.
  simpl in *. rewrite E1, E2. auto.
Qed.

Lemma stageFilter_world config clickedLabel w :
  (stageFilter config clickedLabel w).1 =
  match stageTarget config clickedLabel w with
  | Some f =>
      if existsb (fun g => sameFilter g f) (stagedFilters w)
         || existsb (fun g => sameFilter g f) (activeFilters w)
      then w
      else setStagedFilters (stagedFilters w ++ [f]) w
  | None => w
  end.
Proof.
  unfold stageFilter, stageTarget, get, modify, mbind, ST_bind; simpl.
  destruct (activeData w) as [d|] eqn:Ed; simpl; [|reflexivity].
  unfold onHeap. pose proof (readOnly_metaOf d (objects w)) as Hro.
  destruct (metaOf d (objects w)) as [h [[m mt]|e]] eqn:Em; simpl in *; subst h;
    [|now destruct w].
  destruct (findMatchingColumn _ (fields mt)) as [col|]; simpl; [|now destruct w].
  destruct (Str.isEmpty clickedLabel); simpl; [now destruct w|].
  destruct (existsb _ (stagedFilters w)) eqn:E1; simpl; [now destruct w|].
  destruct (existsb _ (activeFilters w)) eqn:E2; simpl; [now destruct w|].
  reflexivity.
Qed.

Lemma stageTarget_value config clickedLabel w f :
  stageTarget config clickedLabel w = Some f -> Filter.value f = clickedLabel.
Proof.
  unfold stageTarget. repeat case_match; try discriminate;
    intros E; now inversion E.
Qed.

Lemma stageFilter_ok config clickedLabel w :
  filtersOk w -> filtersOk (stageFilter config clickedLabel w).1.
Proof.
  intros Hw. rewrite stageFilter_world.
  destruct (stageTarget config clickedLabel w) as [f|]; [|exact Hw].
  destruct (existsb _ (stagedFilters w)) eqn:E1; simpl; [exact Hw|].
  destruct (existsb _ (activeFilters w)) eqn:E2; simpl; [exact Hw|].
  assert (f ∉ stagedFilters w) as Hs.
  { intros Hin. apply existsb_sameFilter in Hin. congruence. }
  assert (f ∉ activeFilters w) as Ha.
  { intros Hin. apply existsb_sameFilter in Hin. congruence. }
  destruct Hw as [H1 H2 H3 H4]. constructor; simpl; auto.
  - apply NoDup_app. repeat split; auto.
    + intros g Hg Hg'. apply list_elem_of_singleton in Hg'. now subst.
    + apply NoDup_singleton.
  - intros g Hg. apply elem_of_app in Hg as [Hg|Hg]; auto.
    apply list_elem_of_singleton in Hg. now subst.
Qed.

(** Staging the same label again changes nothing. *)
Lemma stageFilter_again config clickedLabel w :
  let w' := (stageFilter config clickedLabel w).1 in
  (stageFilter config clickedLabel w').1 = w'.
Proof.
  simpl. rewrite (stageFilter_world config clickedLabel w).
  destruct (stageTarget config clickedLabel w) as [f|] eqn:Et.
  - destruct (existsb _ (stagedFilters w) || existsb _ (activeFilters w)) eqn:E.
    + rewrite stageFilter_world, Et. now rewrite E.
    + rewrite stageFilter_world.
      assert (stageTarget config clickedLabel
                (setStagedFilters (stagedFilters w ++ [f]) w) = Some f) as ->
        by exact Et.
      simpl. rewrite existsb_app. simpl.
      assert (sameFilter f f = true) as -> by now apply sameFilter_true.
      now rewrite orb_true_r.
  - rewrite stageFilter_world. now rewrite Et.
Qed.

Lemma handleTransformation_filters config w :
  let w' := (handleTransformation config w).1 in
  stagedFilters w' = stagedFilters w
  /\ (activeFilters w' = activeFilters w /\ isFilteredState w' = isFilteredState w
      \/ activeFilters w' = [] /\ isFilteredState w' = false).
Proof.
  unfold handleTransformation, try, get, modify, mbind, ST_bind; simpl.
  destruct (String.eqb _ "error"); simpl; [tauto|].
  destruct (originalData w) as [o|]; simpl; [|tauto].
  unfold onHeap.
  destruct (applyTransformation config o (objects w)) as [h [[msg nd|msg]|e]];
    simpl; try tauto.
  destruct (activeFilters w) as [|f fs] eqn:Ea; simpl; rewrite ?Ea; tauto.
Qed.

Lemma handle_ok e w : filtersOk w -> filtersOk (handle e w).1.
Proof.
  intros Hw. destruct e; simpl.
  - eapply filtersOk_ext; [|exact Hw].
    apply (keeps_bind (onHeap (parsed rows fieldNames))); [apply keeps_onHeap|].
    apply keeps_handleSuccessfulParse.
  - constructor; simpl; auto using NoDup_nil_2. intros f Hf. inversion Hf.
  - now apply stageFilter_ok.
  - destruct Hw as [H1 H2 H3 H4]. constructor; simpl; auto.
    + eapply sublist_NoDup; [exact H1|apply sublist_delete].
    + intros f Hf. apply H3. eapply elem_of_sublist; [exact Hf|apply sublist_delete].
  - destruct (handleApplyStagedFilters_spec w) as (E1 & E2 & E3).
    constructor; rewrite ?E1, ?E2; auto using NoDup_nil_2, NoDup_firstOccurrences.
    + intros f Hf. inversion Hf.
    + now rewrite <- E2.
  - destruct Hw as [H1 H2 H3 H4]. constructor; simpl; auto using NoDup_nil_2.
    intros f Hf. inversion Hf.
  - unfold handleClearFilters, modify, mbind, ST_bind; simpl.
    match goal with |- context [applyFilters ?w0] =>
      destruct (applyFilters_filters w0) as (E1 & E2 & E3) end.
    simpl in *. destruct Hw as [H1 H2 H3 H4].
    constructor; rewrite ?E1, ?E2; auto using NoDup_nil_2.
    intros f _ Hf. inversion Hf.
  - unfold mbind, ST_bind.
    destruct (handleTransformation_filters config w) as (E1 & E2).
    destruct (handleTransformation config w) as [w' [r|e]]; simpl in *.
    + destruct Hw as [H1 H2 H3 H4].
      destruct E2 as [[Ea Ef]|[Ea Ef]]; constructor; rewrite ?E1, ?Ea, ?Ef;
        auto using NoDup_nil_2; intros f _ Hf; inversion Hf.
    + destruct Hw as [H1 H2 H3 H4].
      destruct E2 as [[Ea Ef]|[Ea Ef]]; constructor; rewrite ?E1, ?Ea, ?Ef;
        auto using NoDup_nil_2; intros f _ Hf; inversion Hf.
  - eapply filtersOk_ext; [|exact Hw].
    apply (keeps_bind (get activeData)); [apply keeps_get|].
    intros [d|]; [|apply keeps_throw].
    apply keeps_bind; [apply keeps_onHeap|]. intros _. apply keeps_ret.
Qed.

Lemma reachable_ok w : reachable w -> filtersOk w.
Proof.
  induction 1 as [|w e _ IH].
  - constructor; simpl; auto using NoDup_nil_2. intros f Hf. inversion Hf.
  - now apply handle_ok.
Qed.

End FilterProperties.

Section FilterInvariant.
Context `{Host}.

(** C8. In every world a session can reach, neither the staged nor the
    active filters hold two entries with the same column and value, and
    no staged entry is also active.  In every world, reachable or not,
    a double click whose filter is already staged or active leaves the
    session as it is, one whose filter is new appends it to the staged
    filters, and a second double click on the same element changes
    nothing.  In every world, also one whose lists hold an entry twice,
    committing empties the staged filters and leaves in the active
    filters exactly one entry for every column and value that was
    active or staged, in the order of their first occurrences; lists
    without a repeated entry are joined as they are. *)
Theorem staged_and_active_filters_have_no_duplicates (w : world) :
  (reachable w ->
   NoDup (stagedFilters w) /\ NoDup (activeFilters w)
   /\ (forall f, f ∈ stagedFilters w -> f ∉ activeFilters w))
  /\ (forall config clickedLabel,
        let w1 := (stageFilter config clickedLabel w).1 in
        match stageTarget config clickedLabel w with
        | Some f =>
            (f ∈ stagedFilters w \/ f ∈ activeFilters w -> w1 = w)
            /\ (f ∉ stagedFilters w -> f ∉ activeFilters w ->
                stagedFilters w1 = stagedFilters w ++ [f]
                /\ activeFilters w1 = activeFilters w)
        | None => w1 = w
        end
        /\ (stageFilter config clickedLabel w1).1 = w1)
  /\ (let w2 := (handleApplyStagedFilters w).1 in
      stagedFilters w2 = [] /\ NoDup (activeFilters w2)
      /\ (forall f, f ∈ activeFilters w2
                    <-> f ∈ activeFilters w \/ f ∈ stagedFilters w)
      /\ sublist (activeFilters w2) (activeFilters w ++ stagedFilters w)
      /\ (NoDup (activeFilters w ++ stagedFilters w) ->
          activeFilters w2 = activeFilters w ++ stagedFilters w)).
Proof.
  split; [|split].
  - intros Hw. destruct (reachable_ok w Hw) as [H1 H2 H3 H4]. auto.
  - intros config clickedLabel w1. split; [|apply stageFilter_again].
    subst w1. rewrite stageFilter_world.
    destruct (stageTarget config clickedLabel w) as [f|]; [|reflexivity].
    destruct (existsb (fun g => sameFilter g f) (stagedFilters w)) eqn:E1;
      destruct (existsb (fun g => sameFilter g f) (activeFilters w)) eqn:E2; simpl.
    all: try (split; [reflexivity|]; intros Hs Ha;
              first [ apply existsb_sameFilter in E1; contradiction
                    | apply existsb_sameFilter in E2; contradiction ]).
    split; [|auto].
    intros [Hin|Hin]; apply existsb_sameFilter in Hin; congruence.
  - destruct (handleApplyStagedFilters_spec w) as (E1 & E2 & E3).
    simpl. rewrite E1, E2. split; [reflexivity|].
    split; [apply NoDup_firstOccurrences|]. split; [|split].
    + intros f. rewrite elem_of_firstOccurrences, elem_of_app.
      split; [tauto|]. intros Hf. split; [exact Hf|]. intros Hn. inversion Hn.
    + apply sublist_firstOccurrences.
    + intros Hnd. apply firstOccurrences_NoDup; [|exact Hnd].
      intros f _ Hn. inversion Hn.
Qed.

End FilterInvariant.

Lemma staged_and_active_filters_witness :
  let xa := {| Filter.column := "x"; Filter.value := "a" |} in
  let xb := {| Filter.column := "x"; Filter.value := "b" |} in
  let w := (stageFilter barOfX "a" loadedWorld).1 in
  let twice := setActiveFilters [xa; xb; xa] (setStagedFilters [xb; xa; xb] loadedWorld) in
  (reachable (H := exampleHost) w
   /\ stagedFilters w = [xa]
   /\ stagedFilters (stageFilter barOfX "a" w).1 = [xa]
   /\ NoDup (stagedFilters w) /\ NoDup (activeFilters w))
  /\ (activeFilters (handleApplyStagedFilters twice).1 = [xa; xb]
      /\ stagedFilters (handleApplyStagedFilters twice).1 = []
      /\ NoDup (activeFilters (handleApplyStagedFilters twice).1)).
Proof.
  intros xa xb w twice. split.
  - assert (reachable (H := exampleHost) w) as Hw.
    { apply (reachable_step (H := exampleHost) loadedWorld (FilterStaged barOfX "a")).
      apply (reachable_step (H := exampleHost) initialWorld). apply reachable_initial. }
    pose proof (staged_and_active_filters_have_no_duplicates (H := exampleHost) w)
      as (Hr & _).
    destruct (Hr Hw) as (H1 & H2 & _).
    split; [exact Hw|]. split; [vm_compute; reflexivity|].
    split; [vm_compute; reflexivity|]. split; assumption.
  - pose proof (staged_and_active_filters_have_no_duplicates (H := exampleHost) twice)
      as (_ & _ & Hc).
    cbv zeta in Hc. destruct Hc as (Hs & Hnd & _).
    split; [vm_compute; reflexivity|]. split; assumption.
Defined.

(** ** Transformations in the session *)

Lemma applyTransformation_error config o h :
  Config.action config = "error" ->
  forall h' message newData,
    applyTransformation config o h <> (h', Ok (Success message newData)).
Proof.
  intros Ea h' message newData. unfold applyTransformation.
  rewrite Ea. unfold mbind, ST_bind, try.
  destruct (deepCopy o h) as [h1 [d|e]]; simpl; congruence.
Qed.

Section TransformationSession.
Context `{Host}.

(** C9. When [applyTransformation] succeeds on the master dataset of a
    reachable session, [handleTransformation] leaves the session with
    [originalData] and [activeData] both referring to the new dataset,
    no active filter and the filtered-state flag cleared. *)
Theorem successful_transformation_resets_filters
    (w : world) (config : Config.t) (o : ref) (h' : heap)
    (message : string) (newData : ref) :
  reachable w ->
  originalData w = Some o ->
  applyTransformation config o (objects w) = (h', Ok (Success message newData)) ->
  let w' := (handleTransformation config w).1 in
  (handleTransformation config w).2 = Ok (Transformed message)
  /\ objects w' = h'
  /\ originalData w' = Some newData
  /\ activeData w' = Some newData
  /\ activeFilters w' = []
  /\ isFilteredState w' = false.
Proof.
  intros Hw Ho Ha. destruct (reachable_ok w Hw) as [_ _ _ Hflag].
  unfold handleTransformation, try, get, modify, mbind, ST_bind; simpl.
  destruct (String.eqb (Config.action config) "error") eqn:Ee.
  { apply String.eqb_eq in Ee.
    now destruct (applyTransformation_error config o (objects w) Ee h' message newData). }
  rewrite Ho. unfold onHeap. rewrite Ha. simpl.
  destruct (activeFilters w) as [|f fs] eqn:Ef; simpl; rewrite ?Ef; auto 10.
Qed.

End TransformationSession.

Lemma successful_transformation_witness :
  let res := applyTransformation addColumn 4 (objects filteredWorld) in
  let w' := (handleTransformation addColumn filteredWorld).1 in
  activeFilters filteredWorld = [{| Filter.column := "x"; Filter.value := "a" |}]
  /\ isFilteredState filteredWorld = true
  /\ res.2 = Ok (Success "Created new column 'y'. Transformation applied." 11)
  /\ originalData w' = Some 11 /\ activeData w' = Some 11
  /\ activeFilters w' = [] /\ isFilteredState w' = false.
Proof.
  assert (reachable (H := exampleHost) filteredWorld) as Hw.
  { apply (reachable_step (H := exampleHost) _ StagedApplied).
    apply (reachable_step (H := exampleHost) loadedWorld (FilterStaged barOfX "a")).
    apply (reachable_step (H := exampleHost) initialWorld). apply reachable_initial. }
  assert (originalData filteredWorld = Some 4) as Ho by (vm_compute; reflexivity).
  assert (applyTransformation addColumn 4 (objects filteredWorld)
          = ((applyTransformation addColumn 4 (objects filteredWorld)).1,
             Ok (Success "Created new column 'y'. Transformation applied." 11))) as Ha
    by (vm_compute; reflexivity).
  pose proof (successful_transformation_resets_filters (H := exampleHost)
                filteredWorld addColumn 4 _ _ 11 Hw Ho Ha) as (_ & _ & H3 & H4 & H5 & H6).
  cbv zeta. split; [vm_compute; reflexivity|]. split; [vm_compute; reflexivity|].
  split; [rewrite Ha; reflexivity|]. repeat split; assumption.
Defined.

(** ** Iterated objects *)

Module ObjFacts.
Import Obj.

Section Facts.
Context {A : Type}.
Implicit Types (o : Obj.t A) (k : string) (v : A).







Lemma get_None_keys o k : get o k = None <-> k ∉ keys o.
Proof.
  unfold keys. induction o as [|[k0 v0] r IH]; simpl.
  - split; [intros _ Hin; inversion Hin | reflexivity].
  - rewrite not_elem_of_cons. destruct (String.eqb_spec k0 k) as [->|Hne].
    + split; [discriminate | intros [Hk _]; congruence].
    + rewrite IH. split; [intros Hr; split; [congruence|exact Hr] | tauto].
Qed.

Lemma get_Some_elem o k v : get o k = Some v -> (k, v) ∈ o.
Proof.
  induction o as [|[k0 v0] r IH]; simpl; [discriminate|].
  destruct (String.eqb_spec k0 k) as [->|Hne].
  - intros E. inversion E. apply list_elem_of_here.
  - intros E. apply list_elem_of_further. auto.
Qed.


Lemma keys_replace o k v : keys (replace o k v) = keys o.
Proof.
  unfold keys. induction o as [|[k0 v0] r IH]; simpl; [reflexivity|].
  destruct (String.eqb k0 k); simpl; [reflexivity|]. now rewrite IH.
Qed.

Lemma keys_insertIndex o i k v : keys (insertIndex o i k v) ≡ₚ k :: keys o.
Proof.
  unfold keys. induction o as [|[k0 v0] r IH]; simpl; [reflexivity|].
  destruct (arrayIndex k0) as [j|]; [destruct (j <? i)%N|]; simpl; try reflexivity.
  rewrite IH. apply Permutation_swap.
Qed.

Lemma keys_set o k v :
  keys (set o k v) ≡ₚ (if has o k then keys o else k :: keys o).
Proof.
  unfold set. destruct (has o k).
  - now rewrite keys_replace.
  - destruct (arrayIndex k).
    + apply keys_insertIndex.
    + unfold keys. rewrite map_app. simpl.
      symmetry. apply Permutation_cons_append.
Qed.

Lemma NoDup_keys_set o k v : NoDup (keys o) -> NoDup (keys (set o k v)).
Proof.
  intros Hnd. rewrite keys_set. unfold has.
  destruct (get o k) eqn:Hk; [exact Hnd|].
  apply NoDup_cons. split; [now apply get_None_keys | exact Hnd].
Qed.

Lemma elem_keys_set o k v k' :
  k' ∈ keys (set o k v) <-> k' = k \/ k' ∈ keys o.
Proof.
  rewrite keys_set. unfold has. destruct (get o k) as [v0|] eqn:Hk.
  - split; [tauto|]. intros [->|Hin]; [|exact Hin].
    destruct (decide (k ∈ keys o)) as [Hin|Hn]; [exact Hin|].
    apply get_None_keys in Hn. congruence.
  - apply elem_of_cons.
Qed.

Lemma elem_replace o k v k' v' :
  (k', v') ∈ replace o k v -> (k', v') = (k, v) \/ (k', v') ∈ o.
Proof.
  induction o as [|[k0 v0] r IH]; simpl; [auto|].
  destruct (String.eqb_spec k0 k) as [->|Hne]; rewrite !elem_of_cons; [tauto|].
  intros [E|Hin]; [auto|]. destruct (IH Hin); auto.
Qed.

Lemma elem_insertIndex o i k v k' v' :
  (k', v') ∈ insertIndex o i k v -> (k', v') = (k, v) \/ (k', v') ∈ o.
Proof.
  induction o as [|[k0 v0] r IH]; simpl.
  - rewrite elem_of_cons. tauto.
  - destruct (arrayIndex k0) as [j|]; [destruct (j <? i)%N|];
      rewrite !elem_of_cons; tauto.
Qed.

(** What an object holds after a write. *)
Lemma elem_set o k v k' v' :
  (k', v') ∈ set o k v -> (k', v') = (k, v) \/ (k', v') ∈ o.
Proof.
  unfold set. destruct (has o k); [apply elem_replace|].
  destruct (arrayIndex k); [apply elem_insertIndex|].
  rewrite elem_of_app, list_elem_of_singleton. tauto.
Qed.

End Facts.
End ObjFacts.

(** ** Objects created as [{}] *)

Module ProtoFacts.
Import Proto.

Section Facts.
Context {A : Type}.
Implicit Types (o : Obj.t A) (k : string) (v : A).



Lemma NoDup_keys_assign o k v :
  NoDup (Obj.keys o) -> NoDup (Obj.keys (assign o k v)).
Proof.
  unfold assign. destruct (isAccessor k); [auto|]. apply ObjFacts.NoDup_keys_set.
Qed.

(** No object filled by assignments has a property [__proto__]. *)
Lemma accessor_assign o k v k' :
  isAccessor k' = true -> k' ∉ Obj.keys o -> k' ∉ Obj.keys (assign o k v).
Proof.
  intros Hk' Hn Hin. unfold assign in Hin. destruct (isAccessor k) eqn:Hk; [auto|].
  apply ObjFacts.elem_keys_set in Hin as [->|Hin]; [congruence|auto].
Qed.

End Facts.

Lemma isMember_false k :
  isMember k = false <-> isFunction k = false /\ isAccessor k = false.
Proof. unfold isMember. apply orb_false_iff. Qed.

Lemma isFunction_not_accessor k : isFunction k = true -> isAccessor k = false.
Proof.
  unfold isFunction, isAccessor, functions. simpl. intros Hf.
  destruct (String.eqb_spec k "__proto__") as [->|]; [discriminate|reflexivity].
Qed.

End ProtoFacts.

(** ** Sorting *)

Section SortFacts.
Context {A : Type} (cmp : A -> A -> comparison).

Lemma insertSorted_perm x l : insertSorted cmp x l ≡ₚ x :: l.
Proof.
  induction l as [|y l IH]; simpl; [reflexivity|].
  destruct (cmp x y); try reflexivity.
  rewrite IH. apply Permutation_swap.
Qed.

Lemma sortBy_perm l : sortBy cmp l ≡ₚ l.
Proof.
  induction l as [|x l IH]; simpl; [reflexivity|].
  now rewrite insertSorted_perm, IH.
Qed.

Lemma sortBy_length l : length (sortBy cmp l) = length l.
Proof. apply Permutation_length, sortBy_perm. Qed.

Lemma insertSorted_HdRel a x l :
  inOrder cmp a x -> HdRel (inOrder cmp) a l ->
  HdRel (inOrder cmp) a (insertSorted cmp x l).
Proof.
  intros Hax Hal. destruct l as [|y l]; simpl; [now constructor|].
  inversion Hal; subst. destruct (cmp x y); now constructor.
Qed.

Lemma insertSorted_sorted x l :
  antisymmetric cmp -> Sorted (inOrder cmp) l ->
  Sorted (inOrder cmp) (insertSorted cmp x l).
Proof.
  intros Hanti. induction 1 as [|y l Hs IH Hhd]; simpl.
  - repeat constructor.
  - destruct (cmp x y) eqn:E.
    + constructor; [now constructor|]. constructor. unfold inOrder. congruence.
    + constructor; [now constructor|]. constructor. unfold inOrder. congruence.
    + constructor; [exact IH|]. apply insertSorted_HdRel; [|exact Hhd].
      now apply Hanti.
Qed.

Lemma sortBy_sorted l : antisymmetric cmp -> Sorted (inOrder cmp) (sortBy cmp l).
Proof.
  intros Hanti. induction l as [|x l IH]; simpl; [constructor|].
  now apply insertSorted_sorted.
Qed.

Lemma sorted_head_first a l :
  transitiveOn cmp (a :: l) -> Sorted (inOrder cmp) (a :: l) -> Forall (inOrder cmp a) l.
Proof.
  revert a. induction l as [|b l IH]; intros a Ht Hs; [constructor|].
  apply Sorted_inv in Hs as [Hs Hhd]. inversion Hhd as [|? ? Hab]; subst.
  constructor; [exact Hab|].
  assert (Forall (inOrder cmp b) l) as Hb.
  { apply IH; [|exact Hs]. intros x y z Hx Hy Hz.
    apply Ht; now apply list_elem_of_further. }
  rewrite Forall_forall in Hb |- *. intros y Hy.
  apply (Ht a b y); auto.
  - apply list_elem_of_here.
  - apply list_elem_of_further, list_elem_of_here.
  - do 2 apply list_elem_of_further. exact Hy.
Qed.

(** In a sorted list every member of a prefix may stand before every
    member of the rest. *)
Lemma sorted_prefix_first l1 l2 :
  transitiveOn cmp (l1 ++ l2) -> Sorted (inOrder cmp) (l1 ++ l2) ->
  forall x y, x ∈ l1 -> y ∈ l2 -> inOrder cmp x y.
Proof.
  induction l1 as [|a l1 IH]; simpl; intros Ht Hs x y Hx Hy; [inversion Hx|].
  apply elem_of_cons in Hx as [->|Hx].
  - pose proof (sorted_head_first a (l1 ++ l2) Ht Hs) as Hall.
    rewrite Forall_forall in Hall. apply Hall. apply elem_of_app. now right.
  - apply IH; auto.
    + intros u v z Hu Hv Hz. apply Ht; now apply list_elem_of_further.
    + now apply Sorted_inv in Hs.
Qed.

Lemma transitiveOn_perm l l' : l ≡ₚ l' -> transitiveOn cmp l -> transitiveOn cmp l'.
Proof.
  intros Hp Ht a b c Ha Hb Hc. apply Ht; now rewrite Hp.
Qed.

End SortFacts.

(** The sign of a difference turns around with its operands. *)

Lemma sign_round_aux m e l :
  Num.sign (binary_round_aux Num.prec Num.emax true m e l)
  = CompOpp (Num.sign (binary_round_aux Num.prec Num.emax false m e l)).
Proof.
  unfold binary_round_aux.
  destruct (shr_fexp Num.prec Num.emax m e l) as [mrs' e'].
  destruct (shr_fexp Num.prec Num.emax _ e' loc_Exact) as [mrs'' e''].
  destruct (shr_m mrs''); simpl; try reflexivity.
  now destruct (e'' <=? Num.emax - Num.prec)%Z.
Qed.

Lemma sign_normalize_opp z e :
  Num.sign (binary_normalize Num.prec Num.emax (- z) e false)
  = CompOpp (Num.sign (binary_normalize Num.prec Num.emax z e false)).
Proof.
  destruct z as [|p|p]; simpl; [reflexivity| |]; unfold binary_round.
  - destruct (shl_align p e _) as [mz ez]. apply sign_round_aux.
  - destruct (shl_align p e _) as [mz ez]. rewrite sign_round_aux.
    now destruct (Num.sign _).
Qed.

Lemma sign_sub_opp (a b : number) :
  Num.sign (Num.sub a b) = CompOpp (Num.sign (Num.sub b a)).
Proof.
  destruct a as [sa|sa| |sa ma ea], b as [sb|sb| |sb mb eb];
    try (simpl; repeat match goal with s : bool |- _ => destruct s end; reflexivity).
  unfold Num.sub, SFsub. rewrite (Z.min_comm eb ea).
  rewrite <- sign_normalize_opp. f_equal. f_equal. lia.
Qed.

(** ** The chart data preparer *)


Section ChartAggregation.
Import Js.
Variable labelCol : string.










Lemma keys_counted (o : Obj.t (entry nat)) :
  Obj.keys (map (fun '(k, c) => (k, counted c)) o) = Obj.keys o.
Proof.
  unfold Obj.keys. rewrite map_map. apply map_ext. now intros [k c].
Qed.


End ChartAggregation.

Section ChartLabels.
Context `{Host}.
Import Js.


End ChartLabels.

(** *** Presentation order and the grouping into ['Other'] *)

Lemma byValueDescending_antisymmetric : antisymmetric byValueDescending.
Proof.
  intros a b. unfold byValueDescending.
  rewrite (sign_sub_opp (totalNumber (snd a)) (totalNumber (snd b))).
  destruct (Num.sign (Num.sub (totalNumber (snd b)) (totalNumber (snd a)))); simpl;
    congruence.
Qed.

Lemma isCategorical_isAggregated chartType :
  isCategorical chartType = true -> isAggregated chartType = true.
Proof.
  unfold isCategorical, isAggregated. simpl.
  destruct (String.eqb chartType "bar"); [reflexivity|].
  destruct (String.eqb chartType "pie"); [now rewrite !orb_true_r|].
  destruct (String.eqb chartType "donut"); [now rewrite !orb_true_r|].
  discriminate.
Qed.

(** The sum of entries that are all numbers is the number that their
    values add up to. *)
Lemma otherSum_plain (items : list (string * entry number)) (acc : number) :
  Forall (fun kv => plainEntry (snd kv) = true) items ->
  fold_left (fun sum '(_, value) => plus sum value) items (Plain acc)
  = Plain (fold_left Num.add (map (fun kv => totalNumber (snd kv)) items) acc).
Proof.
  revert acc. induction items as [|[k v] items IH]; intros acc Hall; simpl; [reflexivity|].
  apply Forall_cons in Hall as [Hv Hall]. destruct v as [n|t]; [|discriminate].
  simpl. apply IH, Hall.
Qed.

Lemma NoDup_keys_fold {A B} (f : Obj.t A -> B -> Obj.t A) (l : list B) (acc : Obj.t A) :
  (forall o b, NoDup (Obj.keys o) -> NoDup (Obj.keys (f o b))) ->
  NoDup (Obj.keys acc) -> NoDup (Obj.keys (fold_left f l acc)).
Proof.
  intros Hf. revert acc. induction l as [|x l IH]; intros acc Hacc; simpl; auto.
Qed.

Lemma NoDup_keys_chartAggregate aggregation labelCol valueCol data :
  NoDup (Obj.keys (chartAggregate aggregation labelCol valueCol data)).
Proof.
  assert (NoDup (Obj.keys (fold_left (addToCount labelCol) data []))) as Hcount.
  { apply NoDup_keys_fold; [|constructor]. intros o r Ho. unfold addToCount.
    destruct (Js.truthy _); [now apply ProtoFacts.NoDup_keys_assign|exact Ho]. }
  unfold chartAggregate. destruct valueCol as [v|]; [|now rewrite keys_counted].
  destruct (String.eqb aggregation "average").
  - destruct (fold_left (addToAverage labelCol v) data ([], [])) as [sums counts].
    unfold averages. apply NoDup_keys_fold; [|constructor].
    intros o [k s] Ho. destruct (Obj.get counts k) as [c|]; [|exact Ho].
    destruct (countPositive c); [now apply ProtoFacts.NoDup_keys_assign|exact Ho].
  - destruct (String.eqb aggregation "sum"); [|now rewrite keys_counted].
    apply NoDup_keys_fold; [|constructor]. intros o r Ho. unfold addToSum.
    destruct (Js.truthy _ && _); [now apply ProtoFacts.NoDup_keys_assign|exact Ho].
Qed.

(** *** Labels that name no member of [Object.prototype] *)

Section PlainEntries.
Import Js.
Variable labelCol : string.

Lemma ownLabels_forall data :
  ownLabels labelCol data = true ->
  Forall (fun r => truthy (r !! labelCol) = true ->
                   Proto.isMember (toString (r !! labelCol)) = false) data.
Proof.
  unfold ownLabels, hasLabel. intros Hall. apply Forall_forall. intros r Hr Ht.
  rewrite forallb_forall in Hall. specialize (Hall r (proj1 (list_elem_of_In _ _) Hr)).
  rewrite Ht in Hall. simpl in Hall. now apply negb_true_iff in Hall.
Qed.

Lemma plain_fold {A B} (f : Obj.t (entry A) -> B -> Obj.t (entry A))
    (P : B -> Prop) (l : list B) (acc : Obj.t (entry A)) :
  (forall o b, P b -> Forall (fun kv => plainEntry (snd kv) = true) o ->
               Forall (fun kv => plainEntry (snd kv) = true) (f o b)) ->
  Forall P l ->
  Forall (fun kv => plainEntry (snd kv) = true) acc ->
  Forall (fun kv => plainEntry (snd kv) = true) (fold_left f l acc).
Proof.
  intros Hf. revert acc. induction l as [|x l IH]; intros acc Hl Hacc; simpl; [exact Hacc|].
  apply Forall_cons in Hl as [Hx Hl]. apply IH; [exact Hl|]. now apply Hf.
Qed.

Lemma plain_get {A} (o : Obj.t (entry A)) k e :
  Forall (fun kv => plainEntry (snd kv) = true) o -> Obj.get o k = Some e ->
  plainEntry e = true.
Proof.
  intros Hall Hget. apply ObjFacts.get_Some_elem in Hget.
  rewrite Forall_forall in Hall. exact (Hall _ Hget).
Qed.

Lemma plain_assign {A} (o : Obj.t (entry A)) k e :
  Forall (fun kv => plainEntry (snd kv) = true) o -> plainEntry e = true ->
  Forall (fun kv => plainEntry (snd kv) = true) (Proto.assign o k e).
Proof.
  intros Hall He. unfold Proto.assign. destruct (Proto.isAccessor k); [exact Hall|].
  apply Forall_forall. intros [k' e'] Hin.
  apply ObjFacts.elem_set in Hin as [E|Hin]; [now inversion E|].
  rewrite Forall_forall in Hall. exact (Hall _ Hin).
Qed.

Lemma inheritedText_own k : Proto.isMember k = false -> inheritedText k = None.
Proof.
  intros Hk. apply ProtoFacts.isMember_false in Hk as [Hf Ha].
  unfold inheritedText. now rewrite Hf, Ha.
Qed.

Lemma plain_totalOrZero acc k :
  Proto.isMember k = false ->
  Forall (fun kv => plainEntry (snd kv) = true) acc ->
  exists n, totalOrZero acc k = Plain n.
Proof.
  intros Hk Hall. unfold totalOrZero.
  destruct (Obj.get acc k) as [[n|t]|] eqn:E.
  - eauto.
  - apply (plain_get _ _ _ Hall) in E. discriminate.
  - rewrite (inheritedText_own _ Hk). eauto.
Qed.

Lemma plain_countPlusOne acc k :
  Proto.isMember k = false ->
  Forall (fun kv => plainEntry (snd kv) = true) acc ->
  plainEntry (countPlusOne acc k) = true.
Proof.
  intros Hk Hall. unfold countPlusOne.
  destruct (Obj.get acc k) as [[n|t]|] eqn:E.
  - reflexivity.
  - apply (plain_get _ _ _ Hall) in E. discriminate.
  - now rewrite (inheritedText_own _ Hk).
Qed.

Lemma plain_averages (sums : Obj.t (entry number)) counts :
  Forall (fun kv => plainEntry (snd kv) = true) (averages sums counts).
Proof.
  unfold averages.
  apply (plain_fold _ (fun _ => True)); [|now apply Forall_forall|constructor].
  intros o [k s] _ Ho. destruct (Obj.get counts k) as [c|]; [|exact Ho].
  destruct (countPositive c); [|exact Ho]. now apply plain_assign.
Qed.

(** When no label names a member of [Object.prototype], every value of
    the aggregation is a number. *)
Lemma plain_chartAggregate aggregation valueCol data :
  ownLabels labelCol data = true ->
  Forall (fun kv => plainEntry (snd kv) = true)
         (chartAggregate aggregation labelCol valueCol data).
Proof.
  intros Hown. apply ownLabels_forall in Hown.
  assert (forall (o : Obj.t (entry nat)) (r : row),
            (truthy (r !! labelCol) = true ->
             Proto.isMember (toString (r !! labelCol)) = false) ->
            Forall (fun kv => plainEntry (snd kv) = true) o ->
            Forall (fun kv => plainEntry (snd kv) = true) (addToCount labelCol o r))
    as Hstep.
  { intros o r Hr Ho. unfold addToCount.
    destruct (truthy (r !! labelCol)) eqn:Ht; [|exact Ho].
    apply plain_assign; [exact Ho|]. apply plain_countPlusOne; auto. }
  assert (Forall (fun kv => plainEntry (snd kv) = true)
                 (map (fun '(k, c) => (k, counted c))
                      (fold_left (addToCount labelCol) data []))) as Hcount.
  { apply Forall_map.
    eapply Forall_impl; [apply (plain_fold _ _ data [] Hstep Hown); constructor|].
    intros [k [c|t]]; simpl; congruence. }
  unfold chartAggregate. destruct valueCol as [v|]; [|exact Hcount].
  destruct (String.eqb aggregation "average").
  - destruct (fold_left (addToAverage labelCol v) data ([], [])) as [sums counts].
    apply plain_averages.
  - destruct (String.eqb aggregation "sum"); [|exact Hcount].
    apply (plain_fold _ (fun r : row =>
             truthy (r !! labelCol) = true ->
             Proto.isMember (toString (r !! labelCol)) = false) data []);
      [|exact Hown|constructor].
    intros o r Hr Ho. unfold addToSum.
    destruct (truthy (r !! labelCol)) eqn:Ht; simpl; [|exact Ho].
    destruct (negb _); [|exact Ho].
    apply plain_assign; [exact Ho|].
    destruct (plain_totalOrZero o (toString (r !! labelCol)) (Hr eq_refl) Ho) as [n ->].
    reflexivity.
Qed.

End PlainEntries.

Section Collapse.
Context `{Host}.

(** X27. For a bar, pie or donut chart whose aggregation has more than
    20 groups, none under a label that names a member of
    [Object.prototype], the prepared series has 20 entries: the first 19
    groups of the aggregation sorted by value, largest first, and a last
    entry ['Other'] whose value is the sum of the values of all the
    groups after them.  Every value is a number, the sorted list holds
    every group once, no value in it is followed by a larger one, and,
    whenever the comparison of the values is transitive on the groups,
    no group folded into ['Other'] has a larger value than a group that
    is kept. *)
Theorem more_than_20_groups_collapse
    (config : Chart.t) (data : list row) (actualColumns : list string)
    (labelCol : string) (valueCol : option string) :
  isCategorical (Chart.chartType config) = true ->
  resolveColumns config actualColumns = Ok (labelCol, valueCol) ->
  ownLabels labelCol data = true ->
  let aggregated := chartAggregate (Chart.aggregation config) labelCol valueCol data in
  (20 < length aggregated)%nat ->
  exists s sorted,
    prepareChartData config data actualColumns = Ok (Some (Series s))
    /\ NoDup (Obj.keys aggregated)
    /\ sorted ≡ₚ aggregated
    /\ Forall (fun kv => snd kv = Plain (totalNumber (snd kv))) sorted
    /\ Sorted (fun a b => Num.sign (Num.sub (totalNumber (snd b)) (totalNumber (snd a)))
                          <> Gt) sorted
    /\ labels s = map fst (take 19 sorted) ++ ["Other"]
    /\ values s = map snd (take 19 sorted)
                  ++ [Plain (fold_left Num.add
                               (map (fun kv => totalNumber (snd kv)) (drop 19 sorted))
                               Num.zero)]
    /\ length (labels s) = 20
    /\ (transitiveOn byValueDescending aggregated ->
        forall x y, x ∈ take 19 sorted -> y ∈ drop 19 sorted ->
                    Num.sign (Num.sub (totalNumber (snd y)) (totalNumber (snd x))) <> Gt).
Proof.
  intros Hcat Hcols Hown aggregated Hlen.
  pose proof (sortBy_perm byValueDescending aggregated) as Hperm.
  pose proof (sortBy_sorted byValueDescending aggregated
                byValueDescending_antisymmetric) as Hsorted.
  pose proof (plain_chartAggregate labelCol (Chart.aggregation config) valueCol data Hown)
    as Hplain. fold aggregated in Hplain.
  set (sorted := sortBy byValueDescending aggregated) in *.
  assert (Forall (fun kv => plainEntry (snd kv) = true) sorted) as Hplain'
    by now rewrite Hperm.
  assert (length sorted = length aggregated) as Hl by now rewrite Hperm.
  unfold prepareChartData.
  rewrite (isCategorical_isAggregated _ Hcat), Hcols.
  fold aggregated. unfold sortItems, collapse. rewrite Hcat. fold sorted.
  unfold MAX_CATEGORIES_TO_DISPLAY. rewrite Hl.
  assert ((20 <? length aggregated)%nat = true) as Hlt by now apply Nat.ltb_lt.
  rewrite Hlt. simpl.
  eexists. exists sorted. split; [reflexivity|]. simpl.
  split; [apply NoDup_keys_chartAggregate|].
  split; [exact Hperm|].
  split.
  { eapply Forall_impl; [exact Hplain'|]. intros [k [n|t]]; simpl; congruence. }
  split; [exact Hsorted|].
  split; [reflexivity|]. split.
  { f_equal. f_equal. apply otherSum_plain.
    rewrite <- (take_drop 19 sorted) in Hplain'. now apply Forall_app in Hplain'. }
  split.
  - rewrite length_app, length_map, length_take, Hl.
    change (length ["Other"]) with 1. lia.
  - intros Ht x y Hx Hy.
    apply (sorted_prefix_first byValueDescending (take 19 sorted) (drop 19 sorted));
      auto; rewrite take_drop; auto.
    apply (transitiveOn_perm byValueDescending aggregated); [now symmetry|exact Ht].
Qed.

(** C7. Twenty labels with one row each and a twenty-first label
    [constructor] make 21 groups of a bar chart of counts.  The
    accumulator is created as [{}]: under [constructor] it finds the
    function it inherits, and [(acc[key] || 0) + 1] joins the source
    text of that function and the character 1 into a string.  No
    comparison with that string tells an order, so the groups stay as
    they are; the first 19 are shown, and ['Other'] is not the sum 2 of
    the two groups that are left but the string made of 1, the source
    text and 1. *)
Theorem other_is_a_string_for_an_inherited_label :
  length (chartAggregate "count" "x" None twentyOneLabels) = 21
  /\ Obj.get (chartAggregate "count" "x" None twentyOneLabels) "constructor"
     = Some (Text [SourceOf "constructor"; Chars "1"])
  /\ prepareChartData barOfX twentyOneLabels ["x"]
     = Ok (Some (Series
         {| labels := map (fun i => "g" +:+ Str.ofN (N.of_nat i)) (seq 1 19) ++ ["Other"];
            values := repeat (Plain (Num.of_nat 1)) 19
                      ++ [Text [Chars "1"; SourceOf "constructor"; Chars "1"]];
            datasetLabel := "Count"; titleX := "x"; titleY := "Count" |})).
Proof. repeat split; vm_compute; reflexivity. Qed.

End Collapse.

Lemma transitiveOnb_true {A} (cmp : A -> A -> comparison) l :
  transitiveOnb cmp l = true -> transitiveOn cmp l.
Proof.
  unfold transitiveOnb, transitiveOn, inOrder. intros Hb a b c Ha Hb' Hc Hab Hbc.
  rewrite forallb_forall in Hb. apply list_elem_of_In in Ha, Hb', Hc.
  specialize (Hb a Ha). rewrite forallb_forall in Hb.
  specialize (Hb b Hb'). rewrite forallb_forall in Hb.
  specialize (Hb c Hc).
  destruct (cmp a b); [| |congruence]; destruct (cmp b c); [| |congruence | | |congruence];
    destruct (cmp a c); simpl in Hb; congruence.
Qed.

Lemma more_than_20_groups_witness :
  let items := chartAggregate "sum" "k" (Some "v") twentyFiveGroups in
  length items = 25
  /\ ownLabels "k" twentyFiveGroups = true
  /\ transitiveOn byValueDescending items
  /\ exists s,
       prepareChartData (H := exampleHost) barOfSums twentyFiveGroups ["k"; "v"]
       = Ok (Some (Series s))
       /\ labels s = ["g25"; "g24"; "g23"; "g22"; "g21"; "g20"; "g19"; "g18"; "g17";
                      "g16"; "g15"; "g14"; "g13"; "g12"; "g11"; "g10"; "g9"; "g8";
                      "g7"; "Other"]
       /\ values s = map (fun n => Plain (Num.of_nat n))
                         [25; 24; 23; 22; 21; 20; 19; 18; 17; 16; 15; 14;
                          13; 12; 11; 10; 9; 8; 7; 21].
Proof.
  cbv zeta. split; [vm_compute; reflexivity|]. split; [vm_compute; reflexivity|].
  assert (transitiveOn byValueDescending
            (chartAggregate "sum" "k" (Some "v") twentyFiveGroups)) as Ht
    by (apply transitiveOnb_true; vm_compute; reflexivity).
  split; [exact Ht|].
  destruct (more_than_20_groups_collapse (H := exampleHost)
              barOfSums twentyFiveGroups ["k"; "v"] "k" (Some "v"))
    as (s & sorted & Hs & _).
  - reflexivity.
  - vm_compute; reflexivity.
  - vm_compute; reflexivity.
  - apply Nat.ltb_lt. vm_compute; reflexivity.
  - exists s. split; [exact Hs|].
    assert (prepareChartData (H := exampleHost) barOfSums twentyFiveGroups ["k"; "v"]
            = Ok (Some (Series
                {| labels := ["g25"; "g24"; "g23"; "g22"; "g21"; "g20"; "g19"; "g18";
                              "g17"; "g16"; "g15"; "g14"; "g13"; "g12"; "g11"; "g10";
                              "g9"; "g8"; "g7"; "Other"];
                   values := map (fun n => Plain (Num.of_nat n))
                                 [25; 24; 23; 22; 21; 20; 19; 18; 17; 16;
                                  15; 14; 13; 12; 11; 10; 9; 8; 7; 21];
                   datasetLabel := "Total v"; titleX := "k"; titleY := "Total v" |})))
      as Hc by (vm_compute; reflexivity).
    rewrite Hc in Hs. inversion Hs. split; reflexivity.
Defined.


(** ** Cleaning *)

Section Cleaning.
Import Num Str Conv Js.




Lemma scanField_fold sample field :
  scanField sample field
  = fold_left scanValue (map (fun r : row => r !! field) sample)
      {| numericLikeCount := 0; validValueCount := 0; needsCleaning := false |}.
Proof.
  unfold scanField. generalize ({| numericLikeCount := 0; validValueCount := 0;
                                   needsCleaning := false |}).
  induction sample as [|r sample IH]; intros st; simpl; [reflexivity|]. apply IH.
Qed.




Lemma cleanField_other r field k :
  k <> field -> cleanField r field !! k = r !! k.
Proof.
  intros Hne. unfold cleanField.
  destruct (r !! field) as [[n|s|b|]|]; try reflexivity.
  destruct (negb _ && negb _); [|reflexivity].
  now rewrite lookup_insert_ne.
Qed.


Lemma cleanAndNormalizeData_length data fields :
  length (cleanAndNormalizeData data fields) = length data.
Proof.
  unfold cleanAndNormalizeData. destruct data as [|r data]; [reflexivity|].
  destruct (fieldsToClean _ fields); [reflexivity|]. now rewrite length_map.
Qed.

Lemma cleanAndNormalizeData_lookup data fields i r :
  data !! i = Some r ->
  cleanAndNormalizeData data fields !! i
  = Some (fold_left cleanField (fieldsToClean data fields) r).
Proof.
  intros Hr. unfold cleanAndNormalizeData.
  destruct data as [|r0 data]; [discriminate|].
  destruct (fieldsToClean (r0 :: data) fields) as [|f fs] eqn:Ef; [exact Hr|].
  now rewrite list_lookup_fmap, Hr.
Qed.


End Cleaning.

(** ** Type inference *)

Section Inference.
Import Num Str Conv Js.
Context `{Host}.

Lemma inferValue_isNumeric st val :
  isNumeric (inferValue st val) = isNumeric st && looksNumeric val.
Proof.
  unfold inferValue, looksNumeric.
  destruct val as [[n|s|b|]|]; simpl; rewrite ?andb_true_r; try reflexivity.
  - destruct (isNumeric st); simpl; [|reflexivity]. now rewrite negb_orb.
  - destruct s as [|c s]; simpl; rewrite ?andb_true_r; [reflexivity|].
    destruct (isNumeric st); simpl; [|reflexivity]. now rewrite negb_orb.
  - destruct (isNumeric st); simpl; [|reflexivity]. now rewrite negb_orb.
Qed.

Lemma inferField_isNumeric (sample : list row) field st :
  isNumeric (fold_left (fun st (r : row) => inferValue st (r !! field)) sample st)
  = isNumeric st && forallb (fun r : row => looksNumeric (r !! field)) sample.
Proof.
  revert st. induction sample as [|r sample IH]; intros st; simpl.
  - now rewrite andb_true_r.
  - rewrite IH, inferValue_isNumeric. now rewrite andb_assoc.
Qed.


Lemma lookup_inferred (g : string -> columnType) fields (acc : gmap string columnType) field :
  fold_left (fun types f => <[f := g f]> types) fields acc !! field
  = if decide (field ∈ fields) then Some (g field) else acc !! field.
Proof.
  revert acc. induction fields as [|f fields IH]; intros acc; simpl; [reflexivity|].
  rewrite IH. destruct (decide (field ∈ fields)) as [Hin|Hn].
  - rewrite decide_True by now apply list_elem_of_further. reflexivity.
  - destruct (decide (field = f)) as [->|Hne].
    + rewrite decide_True by apply list_elem_of_here. apply lookup_insert_eq.
    + rewrite decide_False by (intros Hin; apply elem_of_cons in Hin as [?|?]; auto).
      now apply lookup_insert_ne.
Qed.


End Inference.



(** ** The heap: what a computation leaves alone *)

Lemma frame_refl n h : frame n h h.
Proof. split; auto. Qed.

Lemma frame_trans n h1 h2 h3 : frame n h1 h2 -> frame n h2 h3 -> frame n h1 h3.
Proof.
  intros [L1 F1] [L2 F2]. split; [lia|]. intros l Hl. now rewrite F2, F1.
Qed.

Lemma frame_app n h ext : n <= length h -> frame n h (h ++ ext).
Proof.
  intros Hn. split; [rewrite length_app; lia|].
  intros l Hl. apply lookup_app_l. lia.
Qed.

Lemma frame_insert n h r o : n <= r -> frame n h (<[r := o]> h).
Proof.
  intros Hr. split; [now rewrite length_insert|].
  intros l Hl. apply list_lookup_insert_ne. lia.
Qed.

Lemma frame_le n n' h h' : n' <= n -> frame n h h' -> frame n' h h'.
Proof. intros Hle [L F]. split; [exact L|]. intros l Hl. apply F. lia. Qed.

(** Single steps. *)

Lemma load_ok h r o : h !! r = Some o -> load r h = (h, Ok o).
Proof. intros E. unfold load. now rewrite E. Qed.

Lemma getData_ok h d a m : h !! d = Some (Data a m) -> getData d h = (h, Ok (a, m)).
Proof. intros E. unfold getData. now rewrite (bind_ok _ _ _ _ _ (load_ok _ _ _ E)). Qed.

Lemma getArray_ok h a rs : h !! a = Some (RowArray rs) -> getArray a h = (h, Ok rs).
Proof. intros E. unfold getArray. now rewrite (bind_ok _ _ _ _ _ (load_ok _ _ _ E)). Qed.

Lemma getMeta_ok h m mt : h !! m = Some (Meta mt) -> getMeta m h = (h, Ok mt).
Proof. intros E. unfold getMeta. now rewrite (bind_ok _ _ _ _ _ (load_ok _ _ _ E)). Qed.

Lemma getRow_ok h r x : rowAt h r = Some x -> getRow r h = (h, Ok x).
Proof.
  unfold rowAt. intros E. destruct (h !! r) as [[x'| | |]|] eqn:El; try discriminate.
  inversion E; subst. unfold getRow. now rewrite (bind_ok _ _ _ _ _ (load_ok _ _ _ El)).
Qed.

Lemma store_ok h r o : r < length h -> store r o h = (<[r := o]> h, Ok tt).
Proof. intros Hr. unfold store. now rewrite decide_True. Qed.

Lemma load_inv h r h' res :
  load r h = (h', res) -> h' = h /\ (forall o, res = Ok o -> h !! r = Some o).
Proof.
  unfold load. destruct (h !! r); intros E; inversion E; subst; split; auto;
    intros o' Ho; now inversion Ho.
Qed.

(** Reading rows. *)


Lemma rowAt_app h ext r x : rowAt h r = Some x -> rowAt (h ++ ext) r = Some x.
Proof.
  unfold rowAt. destruct (h !! r) as [o|] eqn:E; [|discriminate].
  now rewrite (lookup_app_l_Some _ _ _ _ E).
Qed.

Lemma rowsAt_nil h : rowsAt h [] = Some [].
Proof. reflexivity. Qed.

Lemma rowsAt_cons h r rs :
  rowsAt h (r :: rs) = x ← rowAt h r; xs ← rowsAt h rs; Some (x :: xs).
Proof. reflexivity. Qed.

Lemma rowsAt_cons_inv h r rs xs :
  rowsAt h (r :: rs) = Some xs ->
  exists x xs', xs = x :: xs' /\ rowAt h r = Some x /\ rowsAt h rs = Some xs'.
Proof.
  rewrite rowsAt_cons. destruct (rowAt h r) as [x|]; simpl; [|discriminate].
  destruct (rowsAt h rs) as [xs'|]; simpl; [|discriminate].
  intros E. inversion E. eauto.
Qed.

Lemma rowsAt_app h ext rs xs : rowsAt h rs = Some xs -> rowsAt (h ++ ext) rs = Some xs.
Proof.
  revert xs. induction rs as [|r rs IH]; intros xs E; [exact E|].
  apply rowsAt_cons_inv in E as (x & xs' & -> & Hx & Hxs).
  rewrite rowsAt_cons, (rowAt_app _ _ _ _ Hx), (IH _ Hxs). reflexivity.
Qed.

Lemma rowsAt_length h rs xs : rowsAt h rs = Some xs -> length xs = length rs.
Proof.
  revert xs. induction rs as [|r rs IH]; intros xs E.
  - now inversion E.
  - apply rowsAt_cons_inv in E as (x & xs' & -> & _ & Hxs). simpl. f_equal. auto.
Qed.

Lemma rowsAt_same h h' rs :
  (forall r, r ∈ rs -> rowAt h' r = rowAt h r) -> rowsAt h' rs = rowsAt h rs.
Proof.
  induction rs as [|r rs IH]; intros Hs; [reflexivity|].
  rewrite !rowsAt_cons, Hs by apply list_elem_of_here.
  rewrite IH; [reflexivity|]. intros r' Hr'. apply Hs. now apply list_elem_of_further.
Qed.

Lemma rowsAt_is_Some h rs :
  Forall (fun r => is_Some (rowAt h r)) rs -> exists xs, rowsAt h rs = Some xs.
Proof.
  induction 1 as [|r rs [x Hx] _ (xs & Hxs)]; [now exists []|].
  exists (x :: xs). now rewrite rowsAt_cons, Hx, Hxs.
Qed.

Lemma rowsAt_Forall h rs xs :
  rowsAt h rs = Some xs -> Forall (fun r => is_Some (rowAt h r)) rs.
Proof.
  revert xs. induction rs as [|r rs IH]; intros xs E; [constructor|].
  apply rowsAt_cons_inv in E as (x & xs' & -> & Hx & Hxs).
  constructor; [now exists x | eauto].
Qed.

(** The callbacks over an array of rows. *)

Lemma arrayMap_getRow h rs xs :
  rowsAt h rs = Some xs -> arrayMap getRow rs h = (h, Ok xs).
Proof.
  revert xs. induction rs as [|r rs IH]; intros xs E; simpl.
  - now inversion E.
  - apply rowsAt_cons_inv in E as (x & xs' & -> & Hx & Hxs).
    rewrite (bind_ok _ _ _ _ _ (getRow_ok _ _ _ Hx)).
    now rewrite (bind_ok _ _ _ _ _ (IH _ Hxs)).
Qed.

Lemma arrayMap_getRow_paired h rs xs :
  rowsAt h rs = Some xs ->
  arrayMap (fun r => x ← getRow r; mret (r, x)) rs h = (h, Ok (zip rs xs)).
Proof.
  revert xs. induction rs as [|r rs IH]; intros xs E; simpl.
  - now inversion E.
  - apply rowsAt_cons_inv in E as (x & xs' & -> & Hx & Hxs).
    rewrite (bind_ok _ _ _ _ _ (bind_ok _ _ _ _ _ (getRow_ok _ _ _ Hx))).
    now rewrite (bind_ok _ _ _ _ _ (IH _ Hxs)).
Qed.

Lemma arrayMap_alloc h (xs : list row) :
  arrayMap (fun x => alloc (Row x)) xs h
  = (h ++ map Row xs, Ok (seq (length h) (length xs))).
Proof.
  revert h. induction xs as [|x xs IH]; intros h; simpl.
  - now rewrite app_nil_r.
  - assert (alloc (Row x) h = (h ++ [Row x], Ok (length h))) as Ea by reflexivity.
    rewrite (bind_ok _ _ _ _ _ Ea), (bind_ok _ _ _ _ _ (IH _)).
    unfold mret, ST_ret. rewrite <- app_assoc, length_app. simpl.
    now rewrite Nat.add_1_r.
Qed.

Lemma arrayMap_copy (f : row -> row) h rs xs :
  rowsAt h rs = Some xs ->
  arrayMap (fun r => x ← getRow r; alloc (Row (f x))) rs h
  = (h ++ map Row (map f xs), Ok (seq (length h) (length xs))).
Proof.
  revert h xs. induction rs as [|r rs IH]; intros h xs E; simpl.
  - inversion E. simpl. now rewrite app_nil_r.
  - apply rowsAt_cons_inv in E as (x & xs' & -> & Hx & Hxs).
    assert ((x0 ← getRow r; alloc (Row (f x0))) h = (h ++ [Row (f x)], Ok (length h)))
      as Ea by now rewrite (bind_ok _ _ _ _ _ (getRow_ok _ _ _ Hx)).
    rewrite (bind_ok _ _ _ _ _ Ea).
    rewrite (bind_ok _ _ _ _ _ (IH _ _ (rowsAt_app _ [Row (f x)] _ _ Hxs))).
    unfold mret, ST_ret. rewrite <- app_assoc, length_app. simpl.
    now rewrite Nat.add_1_r.
Qed.

Lemma arrayFilter_rows (p : row -> bool) h rs xs :
  rowsAt h rs = Some xs ->
  exists kept,
    arrayFilter (fun r => x ← getRow r; mret (p x)) rs h = (h, Ok kept)
    /\ rowsAt h kept = Some (List.filter p xs)
    /\ kept ⊆ rs.
Proof.
  revert xs. induction rs as [|r rs IH]; intros xs E; simpl.
  - inversion E. exists []. split; [reflexivity|]. split; [reflexivity|]. set_solver.
  - apply rowsAt_cons_inv in E as (x & xs' & -> & Hx & Hxs).
    destruct (IH _ Hxs) as (kept & Ek & Hk & Hsub).
    assert ((x0 ← getRow r; mret (p x0)) h = (h, Ok (p x))) as Ea
      by now rewrite (bind_ok _ _ _ _ _ (getRow_ok _ _ _ Hx)).
    rewrite (bind_ok _ _ _ _ _ Ea), (bind_ok _ _ _ _ _ Ek).
    unfold mret, ST_ret. simpl. destruct (p x).
    + exists (r :: kept). split; [reflexivity|].
      split; [now rewrite rowsAt_cons, Hx, Hk|]. set_solver.
    + exists kept. split; [reflexivity|]. split; [exact Hk|]. set_solver.
Qed.

(** Rows allocated at the end of a heap. *)
Lemma rowsAt_fresh h (xs : list row) ext :
  rowsAt (h ++ map Row xs ++ ext) (seq (length h) (length xs)) = Some xs.
Proof.
  revert h. induction xs as [|x xs IH]; intros h; [reflexivity|].
  simpl. rewrite rowsAt_cons.
  assert (rowAt (h ++ Row x :: map Row xs ++ ext) (length h) = Some x) as ->.
  { unfold rowAt. now rewrite list_lookup_middle. }
  simpl. specialize (IH (h ++ [Row x])).
  rewrite length_app, Nat.add_1_r, <- app_assoc in IH. simpl in IH. now rewrite IH.
Qed.

Lemma rowAt_insert_ne h l o r : l <> r -> rowAt (<[l := o]> h) r = rowAt h r.
Proof. intros Hne. unfold rowAt. now rewrite list_lookup_insert_ne. Qed.

(** Writing a cell that holds no row leaves the rows of an array as
    they are. *)
Lemma rowsAt_insert_other h l o rs xs :
  rowsAt h rs = Some xs -> rowAt h l = None -> rowsAt (<[l := o]> h) rs = Some xs.
Proof.
  intros E Hl. rewrite <- E. apply rowsAt_same. intros r Hr.
  apply rowAt_insert_ne. intros ->.
  apply rowsAt_Forall in E. rewrite Forall_forall in E.
  destruct (E r Hr) as [x Hx]. congruence.
Qed.

Lemma rowAt_None_of h l o :
  h !! l = Some o -> match o with Row _ => False | _ => True end -> rowAt h l = None.
Proof. unfold rowAt. intros ->. now destruct o. Qed.

(** ** Datasets in the heap *)

Lemma datasetAt_view n h d xs mt :
  datasetAt n h d xs mt -> view h d = Some {| data := xs; dmeta := mt |}.
Proof.
  intros [a m rs Hd Ha Hm Hrs _ _ _ _]. unfold view. now rewrite Hd, Ha, Hm, Hrs.
Qed.

Lemma view_datasetAt h d ds :
  view h d = Some ds -> datasetAt 0 h d (data ds) (dmeta ds).
Proof.
  unfold view. destruct (h !! d) as [[| | |a m]|] eqn:Hd; try discriminate.
  destruct (h !! a) as [[|rs| |]|] eqn:Ha; try discriminate.
  destruct (h !! m) as [[| |mt|]|] eqn:Hm; try discriminate.
  destruct (rowsAt h rs) as [xs|] eqn:Hrs; simpl; [|discriminate].
  intros E. inversion E; subst; simpl.
  apply (DatasetAt 0 h d xs mt a m rs); auto; try lia.
  apply Forall_forall. intros; lia.
Qed.

Lemma datasetAt_le n n' h d xs mt :
  n' <= n -> datasetAt n h d xs mt -> datasetAt n' h d xs mt.
Proof.
  intros Hle [a m rs Hd Ha Hm Hrs H1 H2 H3 H4].
  apply (DatasetAt n' h d xs mt a m rs); auto; try lia.
  eapply Forall_impl; [exact H4|]. simpl. intros; lia.
Qed.


(** *** [deepCopy] *)

Lemma deepCopy_ok n h d xs mt :
  datasetAt n h d xs mt ->
  let k := length xs in
  deepCopy d h
  = (h ++ map Row (jsonRows xs)
       ++ [RowArray (seq (length h) k); Meta mt;
           Data (length h + k) (length h + k + 1)],
     Ok (length h + k + 2)).
Proof.
  intros [a m rs Hd Ha Hm Hrs _ _ _ _] k. unfold deepCopy.
  rewrite (bind_ok _ _ _ _ _ (getData_ok _ _ _ _ Hd)).
  rewrite (bind_ok _ _ _ _ _ (getArray_ok _ _ _ Ha)).
  rewrite (bind_ok _ _ _ _ _ (getMeta_ok _ _ _ Hm)).
  rewrite (bind_ok _ _ _ _ _ (arrayMap_copy (fmap Js.jsonValue) _ _ _ Hrs)).
  unfold mbind, ST_bind, alloc. simpl.
  rewrite !length_app, !length_map. simpl. fold k.
  rewrite <- !app_assoc. simpl. unfold jsonRows.
  replace (length h + k + 1 + 1) with (length h + k + 2) by lia. reflexivity.
Qed.

(** A dataset created at the end of a heap. *)
Lemma fresh_datasetAt h (out : list row) mt :
  let k := length out in
  datasetAt (length h)
    (h ++ map Row out
       ++ [RowArray (seq (length h) k); Meta mt;
           Data (length h + k) (length h + k + 1)])
    (length h + k + 2) out mt.
Proof.
  intros k.
  apply (DatasetAt _ _ _ _ _ (length h + k) (length h + k + 1) (seq (length h) k)).
  - rewrite lookup_app_r by lia. rewrite lookup_app_r by (rewrite length_map; lia).
    rewrite length_map. fold k.
    replace (length h + k + 2 - length h - k) with 2 by lia. reflexivity.
  - rewrite lookup_app_r by lia. rewrite lookup_app_r by (rewrite length_map; lia).
    rewrite length_map. fold k.
    replace (length h + k - length h - k) with 0 by lia. reflexivity.
  - rewrite lookup_app_r by lia. rewrite lookup_app_r by (rewrite length_map; lia).
    rewrite length_map. fold k.
    replace (length h + k + 1 - length h - k) with 1 by lia. reflexivity.
  - apply rowsAt_fresh.
  - lia.
  - lia.
  - lia.
  - apply Forall_forall. intros r Hr. apply list_elem_of_In, in_seq in Hr. lia.
Qed.

Lemma deepCopy_datasetAt n h d xs mt :
  datasetAt n h d xs mt ->
  exists h' d',
    deepCopy d h = (h', Ok d')
    /\ (exists ext, h' = h ++ ext)
    /\ datasetAt (length h) h' d' (jsonRows xs) mt.
Proof.
  intros Hds. pose proof (deepCopy_ok n h d xs mt Hds) as E. simpl in E.
  eexists _, _. split; [exact E|]. split; [eauto|].
  assert (length xs = length (jsonRows xs)) as ->
    by (unfold jsonRows; now rewrite length_map).
  apply fresh_datasetAt.
Qed.

Lemma allocOnly_readOnly {A} (m : M A) : readOnly m -> allocOnly m.
Proof. intros Hm h. exists []. now rewrite app_nil_r. Qed.

Lemma allocOnly_alloc o : allocOnly (alloc o).
Proof. intros h. now exists [o]. Qed.

Lemma allocOnly_bind {A B} (m : M A) (f : A -> M B) :
  allocOnly m -> (forall a, allocOnly (f a)) -> allocOnly (m ≫= f).
Proof.
  intros Hm Hf h. unfold mbind, ST_bind.
  destruct (Hm h) as [ext1 E1]. destruct (m h) as [h1 [a|e]]; simpl in *; subst.
  - destruct (Hf a (h ++ ext1)) as [ext2 E2]. exists (ext1 ++ ext2).
    now rewrite E2, app_assoc.
  - now exists ext1.
Qed.

Lemma allocOnly_arrayMap {A B} (f : A -> M B) l :
  (forall a, allocOnly (f a)) -> allocOnly (arrayMap f l).
Proof.
  intros Hf. induction l as [|x l IH]; simpl.
  - apply allocOnly_readOnly, readOnly_ret.
  - apply allocOnly_bind; [apply Hf|]. intros y.
    apply allocOnly_bind; [apply IH|]. intros ys.
    apply allocOnly_readOnly, readOnly_ret.
Qed.

Lemma allocOnly_deepCopy d : allocOnly (deepCopy d).
Proof.
  unfold deepCopy.
  apply allocOnly_bind; [apply allocOnly_readOnly, readOnly_getData|]. intros [a m].
  apply allocOnly_bind; [apply allocOnly_readOnly, readOnly_getArray|]. intros rs.
  apply allocOnly_bind; [apply allocOnly_readOnly, readOnly_getMeta|]. intros mt.
  apply allocOnly_bind.
  { apply allocOnly_arrayMap. intros r.
    apply allocOnly_bind; [apply allocOnly_readOnly, readOnly_getRow|].
    intros x. apply allocOnly_alloc. }
  intros rows'. apply allocOnly_bind; [apply allocOnly_alloc|]. intros a'.
  apply allocOnly_bind; [apply allocOnly_alloc|]. intros m'. apply allocOnly_alloc.
Qed.

(** ** The transformations on a dataset of the heap *)

Lemma lookup_updated (h : heap) d o ext l :
  d < length h -> l < length h -> l <> d ->
  <[d := o]> (h ++ ext) !! l = h !! l.
Proof.
  intros Hd Hl Hne. rewrite list_lookup_insert_ne by auto. now apply lookup_app_l.
Qed.

Lemma transformRemoveRows_spec n h d xs mt conditions :
  datasetAt n h d xs mt ->
  exists h',
    transformRemoveRows d (Some conditions) h = (h', Ok d)
    /\ frame n h h'
    /\ datasetAt n h' d (List.filter (staysAfterRemove conditions) xs) mt.
Proof.
  intros [a m rs Hd Ha Hm Hrs H1 H2 H3 H4].
  destruct (arrayFilter_rows (staysAfterRemove conditions) h rs xs Hrs)
    as (kept & Ek & Hk & Hsub).
  pose proof (lookup_lt_Some _ _ _ Hd) as Ld.
  pose proof (lookup_lt_Some _ _ _ Hm) as Lm.
  assert (m <> d) as Hmd by (intros ->; congruence).
  exists (<[d := Data (length h) m]> (h ++ [RowArray kept])). split; [|split].
  - unfold transformRemoveRows.
    rewrite (bind_ok _ _ _ _ _ (getData_ok _ _ _ _ Hd)).
    rewrite (bind_ok _ _ _ _ _ (getArray_ok _ _ _ Ha)).
    rewrite (bind_ok _ _ _ _ _ Ek).
    unfold mbind, ST_bind, alloc, store. simpl.
    rewrite decide_True by (rewrite length_app; simpl; lia). reflexivity.
  - eapply frame_trans; [apply (frame_app n h [RowArray kept]); lia|].
    now apply frame_insert.
  - apply (DatasetAt _ _ _ _ _ (length h) m kept); auto; try lia.
    + apply list_lookup_insert_eq. rewrite length_app. simpl. lia.
    + rewrite list_lookup_insert_ne by lia. now apply list_lookup_middle.
    + rewrite lookup_updated by auto. exact Hm.
    + apply rowsAt_insert_other; [now apply rowsAt_app|].
      apply (rowAt_None_of _ _ (Data a m)); [|exact I].
      now apply lookup_app_l_Some.
    + rewrite Forall_forall in H4 |- *. intros r Hr. apply H4. now apply Hsub.
Qed.

Lemma safeStep_of_spec n (op : M ref) h h' d xs mt :
  op h = (h', Ok d) -> frame n h h' -> datasetAt n h' d xs mt -> safeStep n op h.
Proof.
  intros E Hf Hd. exists h', (Ok d). split; [exact E|]. split; [exact Hf|].
  intros d' Hd'. inversion Hd'; subst. eauto.
Qed.

Lemma safeStep_throw n (op : M ref) h e : op h = (h, Throw e) -> safeStep n op h.
Proof.
  intros E. exists h, (Throw e). split; [exact E|]. split; [apply frame_refl|].
  intros d' Hd'. discriminate.
Qed.

Lemma transformRemoveRows_safe n h d xs mt conditions :
  datasetAt n h d xs mt -> safeStep n (transformRemoveRows d conditions) h.
Proof.
  intros Hds. destruct conditions as [cs|].
  - destruct (transformRemoveRows_spec n h d xs mt cs Hds) as (h' & E & Hf & Hd').
    eapply safeStep_of_spec; eauto.
  - destruct Hds as [a m rs Hd Ha Hm Hrs H1 H2 H3 H4].
    destruct rs as [|r rs].
    + (* no row: the callback never runs *)
      destruct (transformRemoveRows_spec n h d xs mt []
                  (DatasetAt n h d xs mt a m [] Hd Ha Hm Hrs H1 H2 H3 H4))
        as (h' & E & Hf & Hd').
      eapply safeStep_of_spec; [|exact Hf|exact Hd'].
      rewrite <- E. unfold transformRemoveRows.
      rewrite !(bind_ok _ _ _ _ _ (getData_ok _ _ _ _ Hd)).
      rewrite !(bind_ok _ _ _ _ _ (getArray_ok _ _ _ Ha)). reflexivity.
    + apply rowsAt_cons_inv in Hrs as (x & xs' & -> & Hx & Hxs).
      apply (safeStep_throw n _ h TypeError). unfold transformRemoveRows.
      rewrite (bind_ok _ _ _ _ _ (getData_ok _ _ _ _ Hd)).
      rewrite (bind_ok _ _ _ _ _ (getArray_ok _ _ _ Ha)).
      assert ((x0 ← getRow r; throw (A := bool) TypeError) h = (h, Throw TypeError))
        as Et by now rewrite (bind_ok _ _ _ _ _ (getRow_ok _ _ _ Hx)).
      cbn [arrayFilter].
      now rewrite (bind_throw _ _ _ _ _ (bind_throw _ _ _ _ _ Et)).
Qed.

Lemma transformCreateColumn_spec n h d xs mt newColumn column1 operator column2 :
  datasetAt n h d xs mt ->
  exists h',
    transformCreateColumn d newColumn column1 operator column2 h = (h', Ok d)
    /\ frame n h h'
    /\ datasetAt n h' d
         (map (fun x => <[newColumn := newColumnValue column1 operator column2 x]> x) xs)
         {| fields := fields mt ++ [newColumn]; inferredTypes := inferredTypes mt |}.
Proof.
  intros [a m rs Hd Ha Hm Hrs H1 H2 H3 H4].
  set (f := fun x : row => <[newColumn := newColumnValue column1 operator column2 x]> x).
  set (mt' := {| fields := fields mt ++ [newColumn]; inferredTypes := inferredTypes mt |}).
  pose proof (lookup_lt_Some _ _ _ Hd) as Ld.
  pose proof (lookup_lt_Some _ _ _ Hm) as Lm.
  assert (m <> d) as Hmd by (intros ->; congruence).
  set (k := length xs).
  set (h1 := h ++ map Row (map f xs) ++ [RowArray (seq (length h) k)]).
  assert (length h1 = length h + k + 1) as Lh1.
  { unfold h1. rewrite !length_app, !length_map. simpl. fold k. lia. }
  exists (<[m := Meta mt']> (<[d := Data (length h + k) m]> h1)). split; [|split].
  - unfold transformCreateColumn.
    rewrite (bind_ok _ _ _ _ _ (getData_ok _ _ _ _ Hd)).
    rewrite (bind_ok _ _ _ _ _ (getArray_ok _ _ _ Ha)).
    rewrite (bind_ok _ _ _ _ _ (arrayMap_copy f _ _ _ Hrs)).
    assert (alloc (RowArray (seq (length h) (length xs))) (h ++ map Row (map f xs))
            = (h1, Ok (length h + k))) as Ea.
    { unfold alloc, h1. rewrite <- app_assoc, length_app, !length_map. reflexivity. }
    rewrite (bind_ok _ _ _ _ _ Ea).
    assert (d < length h1) as Ld1 by lia.
    rewrite (bind_ok _ _ _ _ _ (store_ok h1 d _ Ld1)).
    assert (<[d := Data (length h + k) m]> h1 !! m = Some (Meta mt)) as Em.
    { unfold h1. rewrite lookup_updated by auto. exact Hm. }
    rewrite (bind_ok _ _ _ _ _ (getMeta_ok _ _ _ Em)).
    assert (m < length (<[d := Data (length h + k) m]> h1)) as Lm1
      by (rewrite length_insert; lia).
    rewrite (bind_ok _ _ _ _ _ (store_ok _ m _ Lm1)).
    reflexivity.
  - eapply frame_trans; [apply (frame_app n h); lia|].
    eapply frame_trans; [apply frame_insert; exact H1|]. now apply frame_insert.
  - apply (DatasetAt _ _ _ _ _ (length h + k) m (seq (length h) k)); auto; try lia.
    + rewrite list_lookup_insert_ne by auto.
      apply list_lookup_insert_eq. lia.
    + rewrite !list_lookup_insert_ne by lia. unfold h1.
      rewrite app_assoc. apply list_lookup_middle.
      rewrite length_app, !length_map. reflexivity.
    + apply list_lookup_insert_eq. rewrite length_insert. lia.
    + assert (rowsAt h1 (seq (length h) k) = Some (map f xs)) as Hfresh.
      { unfold h1, k. rewrite <- (length_map f xs). apply rowsAt_fresh. }
      apply rowsAt_insert_other.
      * apply rowsAt_insert_other; [exact Hfresh|].
        apply (rowAt_None_of _ _ (Data a m)); [|exact I].
        unfold h1. now apply lookup_app_l_Some.
      * apply (rowAt_None_of _ _ (Meta mt)); [|exact I].
        unfold h1. rewrite lookup_updated by auto. exact Hm.
    + apply Forall_forall. intros r Hr. apply list_elem_of_In, in_seq in Hr. lia.
Qed.

(** Renaming in place: the rows stay rows, and nothing else changes. *)
Lemma arrayMap_rename (g : row -> row) n rs :
  forall h,
    Forall (fun r => is_Some (rowAt h r)) rs -> Forall (fun r => n <= r) rs ->
    exists h',
      arrayMap (fun r => x ← getRow r; _ ← store r (Row (g x)); mret r) rs h
      = (h', Ok rs)
      /\ frame n h h' /\ length h' = length h
      /\ (forall l, is_Some (rowAt h l) -> is_Some (rowAt h' l))
      /\ (forall l, rowAt h l = None -> h' !! l = h !! l).
Proof.
  induction rs as [|r rs IH]; intros h Hrows Hn.
  - exists h. split; [reflexivity|]. split; [apply frame_refl|]. auto.
  - apply Forall_cons in Hrows as [[x Hx] Hrows]. apply Forall_cons in Hn as [Hr Hn].
    assert (r < length h) as Lr.
    { unfold rowAt in Hx. destruct (h !! r) eqn:E; [|discriminate].
      now apply lookup_lt_Some in E. }
    set (h1 := <[r := Row (g x)]> h).
    assert (forall l, is_Some (rowAt h l) -> is_Some (rowAt h1 l)) as Hkeep.
    { intros l Hl. unfold h1, rowAt. destruct (decide (r = l)) as [->|Hne].
      - rewrite list_lookup_insert_eq by exact Lr. eauto.
      - now rewrite list_lookup_insert_ne. }
    destruct (IH h1) as (h' & E & Hf & Hlen & Hrows' & Hother); auto.
    { eapply Forall_impl; [exact Hrows|]. exact Hkeep. }
    exists h'. split; [|split; [|split; [|split]]].
    + cbn [arrayMap].
      assert ((x0 ← getRow r; _ ← store r (Row (g x0)); mret r) h = (h1, Ok r)) as Es.
      { rewrite (bind_ok _ _ _ _ _ (getRow_ok _ _ _ Hx)).
        now rewrite (bind_ok _ _ _ _ _ (store_ok _ _ _ Lr)). }
      rewrite (bind_ok _ _ _ _ _ Es), (bind_ok _ _ _ _ _ E). reflexivity.
    + eapply frame_trans; [|exact Hf]. now apply frame_insert.
    + rewrite Hlen. apply length_insert.
    + auto.
    + intros l Hl. rewrite Hother.
      * apply list_lookup_insert_ne. intros ->. congruence.
      * unfold h1, rowAt. rewrite list_lookup_insert_ne by (intros ->; congruence).
        exact Hl.
Qed.

Lemma transformRenameColumn_safe n h d xs mt oldColumn newColumn :
  datasetAt n h d xs mt ->
  exists h' xs',
    transformRenameColumn d oldColumn newColumn h = (h', Ok d)
    /\ frame n h h'
    /\ datasetAt n h' d xs'
         {| fields := renameInFields oldColumn newColumn (fields mt);
            inferredTypes := inferredTypes mt |}.
Proof.
  intros [a m rs Hd Ha Hm Hrs H1 H2 H3 H4].
  set (mt' := {| fields := renameInFields oldColumn newColumn (fields mt);
                 inferredTypes := inferredTypes mt |}).
  destruct (arrayMap_rename (renameInRow oldColumn newColumn) n rs h
              (rowsAt_Forall _ _ _ Hrs) H4) as (h0 & E0 & Hf0 & Hlen & Hrows & Hother).
  assert (h0 !! d = Some (Data a m)) as Hd0.
  { rewrite Hother; [exact Hd|]. now apply (rowAt_None_of _ _ (Data a m)). }
  assert (h0 !! m = Some (Meta mt)) as Hm0.
  { rewrite Hother; [exact Hm|]. now apply (rowAt_None_of _ _ (Meta mt)). }
  assert (Forall (fun r => is_Some (rowAt h0 r)) rs) as Hrows0.
  { eapply Forall_impl; [exact (rowsAt_Forall _ _ _ Hrs)|]. exact Hrows. }
  destruct (rowsAt_is_Some _ _ Hrows0) as [xs' Hxs'].
  pose proof (lookup_lt_Some _ _ _ Hd0) as Ld.
  pose proof (lookup_lt_Some _ _ _ Hm0) as Lm.
  assert (m <> d) as Hmd by (intros ->; congruence).
  set (h1 := h0 ++ [RowArray rs]).
  exists (<[m := Meta mt']> (<[d := Data (length h0) m]> h1)), xs'.
  split; [|split].
  - unfold transformRenameColumn.
    rewrite (bind_ok _ _ _ _ _ (getData_ok _ _ _ _ Hd)).
    rewrite (bind_ok _ _ _ _ _ (getArray_ok _ _ _ Ha)).
    rewrite (bind_ok _ _ _ _ _ E0).
    assert (alloc (RowArray rs) h0 = (h1, Ok (length h0))) as Ea by reflexivity.
    rewrite (bind_ok _ _ _ _ _ Ea).
    assert (d < length h1) as Ld1 by (unfold h1; rewrite length_app; simpl; lia).
    rewrite (bind_ok _ _ _ _ _ (store_ok h1 d _ Ld1)).
    assert (<[d := Data (length h0) m]> h1 !! m = Some (Meta mt)) as Em.
    { unfold h1. rewrite lookup_updated by auto. exact Hm0. }
    rewrite (bind_ok _ _ _ _ _ (getMeta_ok _ _ _ Em)).
    assert (m < length (<[d := Data (length h0) m]> h1)) as Lm1.
    { rewrite length_insert. unfold h1. rewrite length_app. simpl. lia. }
    rewrite (bind_ok _ _ _ _ _ (store_ok _ m _ Lm1)).
    reflexivity.
  - eapply frame_trans; [exact Hf0|].
    eapply frame_trans; [apply (frame_app n h0 [RowArray rs]); lia|].
    eapply frame_trans; [apply frame_insert; exact H1|]. now apply frame_insert.
  - apply (DatasetAt _ _ _ _ _ (length h0) m rs); auto; try lia.
    + rewrite list_lookup_insert_ne by auto. apply list_lookup_insert_eq.
      unfold h1. rewrite length_app. simpl. lia.
    + rewrite !list_lookup_insert_ne by lia. now apply list_lookup_middle.
    + apply list_lookup_insert_eq. rewrite length_insert. unfold h1.
      rewrite length_app. simpl. lia.
    + apply rowsAt_insert_other.
      * apply rowsAt_insert_other; [now apply rowsAt_app|].
        apply (rowAt_None_of _ _ (Data a m)); [|exact I].
        now apply lookup_app_l_Some.
      * apply (rowAt_None_of _ _ (Meta mt)); [|exact I].
        unfold h1. rewrite lookup_updated by auto. exact Hm0.
Qed.


Lemma pairsAt_zip n h rs xs :
  rowsAt h rs = Some xs -> Forall (fun r => n <= r) rs -> pairsAt n h (zip rs xs).
Proof.
  revert xs. induction rs as [|r rs IH]; intros xs E Hn; [constructor|].
  apply rowsAt_cons_inv in E as (x & xs' & -> & Hx & Hxs).
  apply Forall_cons in Hn as [Hr Hn]. simpl. constructor; [split; auto|].
  now apply IH.
Qed.

Lemma pairsAt_rows n h ps :
  pairsAt n h ps ->
  rowsAt h (map fst ps) = Some (map snd ps) /\ Forall (fun r => n <= r) (map fst ps).
Proof.
  induction 1 as [|[r x] ps [Hx Hr] _ [IH1 IH2]]; [split; [reflexivity|constructor]|].
  simpl in *. split; [|now constructor].
  now rewrite rowsAt_cons, Hx, IH1.
Qed.

Section SortLimit.
Context `{Host}.


End SortLimit.

Lemma rowsAt_take h rs xs k :
  rowsAt h rs = Some xs -> rowsAt h (take k rs) = Some (take k xs).
Proof.
  revert xs k. induction rs as [|r rs IH]; intros xs k E.
  - inversion E. now rewrite !take_nil.
  - apply rowsAt_cons_inv in E as (x & xs' & -> & Hx & Hxs).
    destruct k as [|k]; [reflexivity|]. simpl.
    now rewrite rowsAt_cons, Hx, (IH _ _ Hxs).
Qed.

Lemma executeLimit_spec n h d xs mt count :
  datasetAt n h d xs mt ->
  exists h',
    executeLimit d count h = (h', Ok d)
    /\ frame n h h'
    /\ datasetAt n h' d (take (sliceEnd (length xs) count) xs) mt.
Proof.
  intros [a m rs Hd Ha Hm Hrs H1 H2 H3 H4].
  pose proof (lookup_lt_Some _ _ _ Hd) as Ld.
  pose proof (lookup_lt_Some _ _ _ Hm) as Lm.
  assert (m <> d) as Hmd by (intros ->; congruence).
  set (kept := take (sliceEnd (length rs) count) rs).
  exists (<[d := Data (length h) m]> (h ++ [RowArray kept])). split; [|split].
  - unfold executeLimit.
    rewrite (bind_ok _ _ _ _ _ (getData_ok _ _ _ _ Hd)).
    rewrite (bind_ok _ _ _ _ _ (getArray_ok _ _ _ Ha)).
    unfold mbind, ST_bind, alloc, store. simpl.
    rewrite decide_True by (rewrite length_app; simpl; lia). reflexivity.
  - eapply frame_trans; [apply (frame_app n h [RowArray kept]); lia|].
    now apply frame_insert.
  - apply (DatasetAt _ _ _ _ _ (length h) m kept); auto; try lia.
    + apply list_lookup_insert_eq. rewrite length_app. simpl. lia.
    + rewrite list_lookup_insert_ne by lia. now apply list_lookup_middle.
    + rewrite lookup_updated by auto. exact Hm.
    + apply rowsAt_insert_other.
      * apply rowsAt_app. unfold kept. rewrite <- (rowsAt_length _ _ _ Hrs).
        now apply rowsAt_take.
      * apply (rowAt_None_of _ _ (Data a m)); [|exact I].
        now apply lookup_app_l_Some.
    + now apply Forall_take.
Qed.

(** ** Computations that write only above a mark *)

Lemma triple_ret {A} n (P : heap -> Prop) (a : A) (Q : A -> heap -> Prop) :
  (forall h, P h -> Q a h) -> triple n P (mret a) Q.
Proof. intros HQ h HP. split; [apply frame_refl|]. now apply HQ. Qed.

Lemma triple_throw {A} n P e (Q : A -> heap -> Prop) : triple n P (throw e) Q.
Proof. intros h HP. split; [apply frame_refl|exact I]. Qed.

Lemma triple_bind {A B} n P (m : M A) (R : A -> heap -> Prop) (f : A -> M B) Q :
  triple n P m R -> (forall a, triple n (R a) (f a) Q) -> triple n P (m ≫= f) Q.
Proof.
  intros Hm Hf h HP. destruct (Hm h HP) as [F1 R1].
  unfold mbind, ST_bind. destruct (m h) as [h1 [a|e]]; simpl in *.
  - destruct (Hf a h1 R1) as [F2 Q2]. split; [|exact Q2].
    eapply frame_trans; eauto.
  - split; [exact F1|exact I].
Qed.

Lemma triple_weaken {A} n (P P' : heap -> Prop) (m : M A) (Q Q' : A -> heap -> Prop) :
  (forall h, P' h -> P h) -> (forall a h, Q a h -> Q' a h) ->
  triple n P m Q -> triple n P' m Q'.
Proof.
  intros HP HQ Hm h HP'. destruct (Hm h (HP h HP')) as [F Hq]. split; [exact F|].
  destruct ((m h).2); auto.
Qed.

(** Reading keeps what held. *)
Lemma triple_read {A} n (P : heap -> Prop) (m : M A) :
  readOnly m -> triple n P m (fun _ h => P h).
Proof.
  intros Hm h HP. rewrite (Hm h). split; [apply frame_refl|].
  destruct ((m h).2); auto.
Qed.

Lemma triple_try {A} n P (m : M A) (handler : string -> M A) Q :
  triple n P m Q -> (forall e, readOnly (handler e)) ->
  triple n P (try m handler) (fun _ _ => True).
Proof.
  intros Hm Hh h HP. destruct (Hm h HP) as [F _]. unfold try.
  destruct (m h) as [h1 [a|e]]; simpl in *.
  - split; [exact F|exact I].
  - rewrite (Hh e h1). split; [exact F|]. now destruct ((handler e h1).2).
Qed.

Lemma triple_safeStep n (P : heap -> Prop) (op : M ref) :
  (forall h, P h -> safeStep n op h) -> triple n P op (owned n).
Proof.
  intros Hs h HP. destruct (Hs h HP) as (h' & res & E & F & Hd).
  rewrite E. simpl. split; [exact F|]. destruct res as [d'|e]; [|exact I].
  now apply Hd.
Qed.

Section PlanFrames.
Context `{Host}.




End PlanFrames.

(** What existed before is read as before. *)
Lemma rowsAt_frame h h' rs xs :
  frame (length h) h h' -> rowsAt h rs = Some xs -> rowsAt h' rs = Some xs.
Proof.
  intros [_ F] E. rewrite <- E. apply rowsAt_same. intros r Hr.
  apply rowsAt_Forall in E. rewrite Forall_forall in E.
  destruct (E r Hr) as [x Hx]. unfold rowAt in Hx |- *.
  destruct (h !! r) as [o|] eqn:El; [|discriminate].
  apply lookup_lt_Some in El as Lr. now rewrite (F r Lr), El.
Qed.

Lemma view_frame h h' d ds :
  frame (length h) h h' -> view h d = Some ds -> view h' d = Some ds.
Proof.
  intros Hf Hv. apply view_datasetAt in Hv as [a m rs Hd Ha Hm Hrs _ _ _ _].
  destruct Hf as [L F]. unfold view.
  rewrite (F d), Hd by now apply lookup_lt_Some in Hd.
  rewrite (F a), Ha by now apply lookup_lt_Some in Ha.
  rewrite (F m), Hm by now apply lookup_lt_Some in Hm.
  rewrite (rowsAt_frame h h' rs _ (conj L F) Hrs). simpl. now destruct ds.
Qed.

(** ** [applyTransformation] and the master dataset *)

Lemma triple_store n (P : heap -> Prop) r o :
  n <= r -> triple n P (store r o) (fun _ _ => True).
Proof.
  intros Hr h _. unfold store. destruct (decide (r < length h)); simpl.
  - split; [now apply frame_insert|exact I].
  - split; [apply frame_refl|exact I].
Qed.

(** A fact the precondition gives may be used to prove the triple. *)
Lemma triple_pure {A} n (P : heap -> Prop) (fact : Prop) (m : M A) Q :
  (forall h, P h -> fact) -> (fact -> triple n P m Q) -> triple n P m Q.
Proof. intros Hfact Hm h HP. exact (Hm (Hfact h HP) h HP). Qed.

Lemma metaOf_ok n h d xs mt :
  datasetAt n h d xs mt -> exists m, metaOf d h = (h, Ok (m, mt)) /\ n <= m.
Proof.
  intros [a m rs Hd Ha Hm Hrs H1 H2 H3 H4]. exists m. split; [|exact H3].
  unfold metaOf. rewrite (bind_ok _ _ _ _ _ (getData_ok _ _ _ _ Hd)).
  now rewrite (bind_ok _ _ _ _ _ (getMeta_ok _ _ _ Hm)).
Qed.

Lemma metaOf_triple n d :
  triple n (owned n d) (metaOf d) (fun p h => owned n d h /\ n <= p.1).
Proof.
  intros h (xs & mt & Hds). destruct (metaOf_ok n h d xs mt Hds) as (m & E & Hm).
  rewrite E. simpl. split; [apply frame_refl|]. split; [now exists xs, mt|exact Hm].
Qed.

Lemma setInferredType_triple n (P : heap -> Prop) m update :
  n <= m -> triple n P (setInferredType m update) (fun _ _ => True).
Proof.
  intros Hm. unfold setInferredType.
  eapply triple_bind; [apply triple_read, readOnly_getMeta|]. intros mt.
  destruct (inferredTypes mt); [now apply triple_store | apply triple_throw].
Qed.

Lemma readOnly_rowCount d : readOnly (rowCount d).
Proof.
  apply readOnly_bind; [apply readOnly_getData|]. intros [a m].
  apply readOnly_bind; [apply readOnly_getArray|]. intros rows. apply readOnly_ret.
Qed.

(** After a transformation of the copy: the type entry is set and the
    result returned. *)
Lemma finish_triple n d update (message : string) :
  triple n (owned n d)
    ('(m, _) ← metaOf d; _ ← setInferredType m update; mret (Success message d))
    (fun _ _ => True).
Proof.
  eapply triple_bind; [apply metaOf_triple|]. intros [m1 mt1].
  apply (triple_pure n _ (n <= m1)); [now intros h [_ Hm]|]. intros Hm.
  eapply triple_bind; [now apply setInferredType_triple|].
  intros u. now apply triple_ret.
Qed.

Lemma transformCreateColumn_triple n d newColumn column1 operator column2 :
  triple n (owned n d) (transformCreateColumn d newColumn column1 operator column2)
    (owned n).
Proof.
  apply triple_safeStep. intros h (xs & mt & Hds).
  destruct (transformCreateColumn_spec n h d xs mt newColumn column1 operator column2 Hds)
    as (h' & E & F & Hd').
  eapply safeStep_of_spec; eauto.
Qed.

Lemma transformRenameColumn_triple n d oldColumn newColumn :
  triple n (owned n d) (transformRenameColumn d oldColumn newColumn) (owned n).
Proof.
  apply triple_safeStep. intros h (xs & mt & Hds).
  destruct (transformRenameColumn_safe n h d xs mt oldColumn newColumn Hds)
    as (h' & xs' & E & F & Hd').
  eapply safeStep_of_spec; eauto.
Qed.

Lemma transformRemoveRows_triple n d conditions :
  triple n (owned n d) (transformRemoveRows d conditions) (owned n).
Proof.
  apply triple_safeStep. intros h (xs & mt & Hds).
  eapply transformRemoveRows_safe; eauto.
Qed.

(** A [try] whose handler returns a failure always returns, and writes
    where its body writes. *)
Lemma try_returns n (P : heap -> Prop) (body : M transformResult) Q h :
  triple n P body Q -> P h ->
  exists h' result,
    try body (fun message => mret (Failure message)) h = (h', Ok result)
    /\ frame n h h'.
Proof.
  intros Hb HP. destruct (Hb h HP) as [F _]. unfold try.
  destruct (body h) as [h1 [a|e]]; simpl in *; eauto.
Qed.

(** [applyTransformation] always returns a result, and changes no
    object that existed before the call. *)
Lemma applyTransformation_frame config h src ds :
  view h src = Some ds ->
  exists h' result,
    applyTransformation config src h = (h', Ok result)
    /\ frame (length h) h h'.
Proof.
  intros Hv. apply view_datasetAt in Hv.
  destruct (deepCopy_datasetAt 0 h src _ _ Hv) as (h1 & d1 & E & [ext ->] & Hd1).
  unfold applyTransformation. rewrite (bind_ok _ _ _ _ _ E). cbv zeta.
  assert (owned (length h) d1 (h ++ ext)) as Hown by (eexists _, _; exact Hd1).
  assert (forall body : M transformResult,
            triple (length h) (owned (length h) d1) body (fun _ _ => True) ->
            exists h' result,
              try body (fun message => mret (Failure message)) (h ++ ext)
              = (h', Ok result) /\ frame (length h) h h') as Hwrap.
  { intros body Hb.
    destruct (try_returns _ _ body _ (h ++ ext) Hb Hown) as (h' & result & Et & F).
    exists h', result. split; [exact Et|].
    eapply frame_trans; [apply frame_app; lia|exact F]. }
  apply Hwrap. clear Hwrap.
  destruct (String.eqb _ "remove_rows").
  { eapply triple_bind; [apply triple_read, readOnly_rowCount|]. intros c0.
    eapply triple_bind; [apply transformRemoveRows_triple|]. intros d'.
    eapply triple_bind; [apply triple_read, readOnly_rowCount|].
    intros c1. now apply triple_ret. }
  destruct (String.eqb _ "create_column").
  { eapply triple_bind; [apply metaOf_triple|]. intros [m0 mt0].
    destruct (includesField _ _); [now apply triple_ret|].
    eapply triple_weaken with (P := owned (length h) d1) (Q := fun _ _ => True);
      [now intros h0 [Ho _]|auto|].
    eapply triple_bind; [apply transformCreateColumn_triple|].
    intros d'. apply finish_triple. }
  destruct (String.eqb _ "rename_column").
  { eapply triple_bind; [apply metaOf_triple|]. intros [m0 mt0].
    destruct (negb _); [now apply triple_ret|].
    destruct (includesField _ _); [now apply triple_ret|].
    eapply triple_weaken with (P := owned (length h) d1) (Q := fun _ _ => True);
      [now intros h0 [Ho _]|auto|].
    eapply triple_bind; [apply transformRenameColumn_triple|].
    intros d'. apply finish_triple. }
  now apply triple_ret.
Qed.

(** A column that exists is not created again. *)
Lemma applyTransformation_duplicate config h src ds :
  view h src = Some ds ->
  Config.action config = "create_column" ->
  includesField (fields (dmeta ds)) (Config.newColumn config) = true ->
  (applyTransformation config src h).2
  = Ok (Failure ("Column " +:+ dq +:+ Config.newColumn config +:+ dq
                 +:+ " already exists.")).
Proof.
  intros Hv Ha Hin. apply view_datasetAt in Hv.
  destruct (deepCopy_datasetAt 0 h src _ _ Hv) as (h1 & d1 & E & _ & Hd1).
  destruct (metaOf_ok _ _ _ _ _ Hd1) as (m & Em & _).
  unfold applyTransformation. rewrite (bind_ok _ _ _ _ _ E). cbv zeta.
  rewrite Ha. simpl. unfold try. rewrite (bind_ok _ _ _ _ _ Em). now rewrite Hin.
Qed.

(** C1. [applyTransformation] returns a result object whatever the
    configuration, and leaves every object that existed before the call
    as it was: the master dataset reads the same afterwards, with the
    same fields, rows and inferred types.  This holds in particular
    when the result is a failure; a [create_column] whose new column is
    already a field is one, with the message that the column exists. *)
Theorem failed_transformation_leaves_master_unchanged
    (config : Config.t) (h : heap) (sourceData : ref) (master : dataset) :
  view h sourceData = Some master ->
  exists h' result,
    applyTransformation config sourceData h = (h', Ok result)
    /\ (forall l o, h !! l = Some o -> h' !! l = Some o)
    /\ view h' sourceData = Some master
    /\ (Config.action config = "create_column" ->
        includesField (fields (dmeta master)) (Config.newColumn config) = true ->
        result = Failure ("Column " +:+ dq +:+ Config.newColumn config +:+ dq
                          +:+ " already exists.")).
Proof.
  intros Hv.
  destruct (applyTransformation_frame config h sourceData master Hv)
    as (h' & result & E & F).
  exists h', result. split; [exact E|]. split; [|split].
  - intros l o Hl. destruct F as [_ F]. rewrite F; [exact Hl|].
    now apply lookup_lt_Some in Hl.
  - now apply (view_frame h h').
  - intros Ha Hin.
    pose proof (applyTransformation_duplicate config h sourceData master Hv Ha Hin) as Ed.
    rewrite E in Ed. simpl in Ed. now inversion Ed.
Qed.

Lemma failed_transformation_witness :
  let h := objects loadedWorld in
  let master :=
    {| data := [{[ "x" := VStr "a" ]}; {[ "x" := VStr "b" ]}];
       dmeta := {| fields := ["x"];
                   inferredTypes := Some {[ "x" := stringType ]} |} |} in
  view h 4 = Some master
  /\ exists h',
       applyTransformation addExistingColumn 4 h
       = (h', Ok (Failure ("Column " +:+ dq +:+ "x" +:+ dq +:+ " already exists.")))
       /\ view h' 4 = Some master.
Proof.
  intros h master.
  assert (view h 4 = Some master) as Hview by (vm_compute; reflexivity).
  split; [exact Hview|].
  destruct (failed_transformation_leaves_master_unchanged
              addExistingColumn h 4 master Hview)
    as (h' & result & E & _ & Hview' & Hdup).
  exists h'. rewrite (Hdup eq_refl eq_refl) in E. split; [exact E|exact Hview'].
Defined.

(** ** Removing rows *)

Section RemoveRows.
Import Num Js.

Lemma numeric_condition_unparseable (r : row) (condition : Condition.t) :
  Condition.operator condition = "greater_than"
  \/ Condition.operator condition = "less_than" ->
  isNaN (parseCell (r !! Condition.column condition)) = true
  \/ isNaN (numericValueOf (Condition.value condition)) = true ->
  checkCondition r condition = false.
Proof.
  intros Hop Hnan. unfold checkCondition.
  destruct (r !! Condition.column condition) as [rowValue|]; [|reflexivity].
  destruct Hop as [-> | ->]; simpl;
    destruct Hnan as [-> | ->]; simpl; now rewrite ?andb_false_r.
Qed.

(** C2. [transformRemoveRows] returns its dataset, whose rows are then
    those of before that fail at least one condition, in their order:
    it drops exactly the rows that satisfy every condition.  The field
    list and the inferred types stay.  A [greater_than] or [less_than]
    condition compares what [parseFloat] reads on both sides once the
    commas are removed, and is false, without an exception, for a row
    one of whose operands does not parse. *)
Theorem remove_rows_drops_the_rows_that_match
    (h : heap) (dataObject : ref) (ds : dataset) (conditions : list Condition.t) :
  view h dataObject = Some ds ->
  exists h',
    transformRemoveRows dataObject (Some conditions) h = (h', Ok dataObject)
    /\ view h' dataObject
       = Some {| data := List.filter
                           (fun r => negb (forallb (checkCondition r) conditions))
                           (data ds);
                 dmeta := dmeta ds |}
    /\ (forall (r : row) column value,
          checkCondition r {| Condition.column := column;
                              Condition.operator := "greater_than";
                              Condition.value := value |}
          = match r !! column with
            | Some rowValue =>
                negb (isNaN (parseCell (Some rowValue)))
                && negb (isNaN (numericValueOf value))
                && gtb (parseCell (Some rowValue)) (numericValueOf value)
            | None => false
            end
          /\ checkCondition r {| Condition.column := column;
                                 Condition.operator := "less_than";
                                 Condition.value := value |}
             = match r !! column with
               | Some rowValue =>
                   negb (isNaN (parseCell (Some rowValue)))
                   && negb (isNaN (numericValueOf value))
                   && ltb (parseCell (Some rowValue)) (numericValueOf value)
               | None => false
               end)
    /\ (forall (r : row) condition,
          Condition.operator condition = "greater_than"
          \/ Condition.operator condition = "less_than" ->
          isNaN (parseCell (r !! Condition.column condition)) = true
          \/ isNaN (numericValueOf (Condition.value condition)) = true ->
          checkCondition r condition = false).
Proof.
  intros Hv. apply view_datasetAt in Hv.
  destruct (transformRemoveRows_spec 0 h dataObject _ _ conditions Hv)
    as (h' & E & _ & Hd').
  exists h'. split; [exact E|]. split; [exact (datasetAt_view _ _ _ _ _ Hd')|].
  split; [|exact numeric_condition_unparseable].
  intros r column value. unfold checkCondition. simpl.
  destruct (r !! column); split; reflexivity.
Qed.

End RemoveRows.

Lemma remove_rows_witness :
  exists h',
    transformRemoveRows salesData (Some [aboveSeven]) salesHeap = (h', Ok salesData)
    /\ view h' salesData
       = Some {| data := [ {[ "g" := VStr "B"; "v" := VStr "5" ]} ];
                 dmeta := {| fields := ["g"; "v"]; inferredTypes := None |} |}.
Proof.
  destruct (remove_rows_drops_the_rows_that_match salesHeap salesData
              {| data := salesRows;
                 dmeta := {| fields := ["g"; "v"]; inferredTypes := None |} |}
              [aboveSeven])
    as (h' & E & Hview & _).
  - vm_compute; reflexivity.
  - exists h'. split; [exact E|]. rewrite Hview. vm_compute; reflexivity.
Defined.

(** The rows that satisfy the condition are dropped, not kept. *)
Lemma remove_rows_keeps_the_failing_rows :
  forallb (checkCondition {[ "g" := VStr "B"; "v" := VStr "5" ]}) [aboveSeven] = false
  /\ (view (transformRemoveRows salesData (Some [aboveSeven]) salesHeap).1 salesData
      = Some {| data := [ {[ "g" := VStr "B"; "v" := VStr "5" ]} ];
                dmeta := {| fields := ["g"; "v"]; inferredTypes := None |} |})
  /\ (view (transformRemoveRows salesData (Some [aboveSeven]) salesHeap).1 salesData
      <> Some {| data := List.filter
                           (fun r => forallb (checkCondition r) [aboveSeven]) salesRows;
                 dmeta := {| fields := ["g"; "v"]; inferredTypes := None |} |}).
Proof.
  split; [vm_compute; reflexivity|]. split; [vm_compute; reflexivity|].
  vm_compute. discriminate.
Qed.
(** ** Aggregation *)

Section Aggregate.
Import Num Js.










(** C3. One row whose key is [constructor], with the value 10.
    [groups] is created as [{}]: under [constructor] it finds the
    function it inherits, no [{sum: 0, count: 0}] is made, and [+=]
    on the properties [sum] and [count] that the function does not
    have gives [NaN].  The group is reported with the sum [NaN], not
    10, with the count [NaN], not 1, and with the average 0, through
    the guard for a count that is not above zero.  Under the key
    [__proto__] it is [Object.prototype] that gets the properties [sum]
    and [count], which [groups] then inherits: the loop reports them as
    two groups and reports no group [__proto__]. *)
Theorem aggregate_misreports_an_inherited_key :
  (exists h' result,
     executeAggregate inheritedKeyData "g" "sum" (Some "v") inheritedKeyHeap
     = (h', Ok result)
     /\ view inheritedKeyHeap inheritedKeyData
        = Some {| data := [ {[ "g" := VStr "constructor"; "v" := VStr "10" ]} ];
                  dmeta := {| fields := ["g"; "v"]; inferredTypes := None |} |}
     /\ view h' result
        = Some {| data := [ {[ "g" := VStr "constructor"; "sum_v" := VNum NaN ]} ];
                  dmeta := {| fields := ["g"; "sum_v"]; inferredTypes := None |} |})
  /\ aggregateRows "g" "count" None inheritedKeyRows
     = [ {[ "g" := VStr "constructor"; "count_count" := VNum NaN ]} ]
  /\ aggregateRows "g" "average" (Some "v") inheritedKeyRows
     = [ {[ "g" := VStr "constructor"; "average_v" := VNum zero ]} ]
  /\ aggregateRows "g" "sum" (Some "v") prototypeKeyRows
     = [ {[ "g" := VStr "sum"; "sum_v" := VNum NaN ]};
         {[ "g" := VStr "count"; "sum_v" := VNum NaN ]} ]
  /\ aggregateRows "g" "count" None prototypeKeyRows
     = [ {[ "g" := VStr "count"; "count_count" := VNum NaN ]} ].
Proof.
  split.
  - destruct (executeAggregate inheritedKeyData "g" "sum" (Some "v") inheritedKeyHeap)
      as [h' [result|e]] eqn:E; vm_compute in E; [|discriminate].
    exists h', result. split; [reflexivity|]. split; [vm_compute; reflexivity|].
    injection E as <- <-. vm_compute. reflexivity.
  - repeat split; vm_compute; reflexivity.
Qed.

End Aggregate.


(** ** The Active View and the copies of plan execution *)

Lemma filter_all (A : Type) (xs : list A) : List.filter (fun _ => true) xs = xs.
Proof. induction xs as [|x xs IH]; simpl; congruence. Qed.

Lemma filter_twice (A : Type) (p q : A -> bool) (xs : list A) :
  List.filter q (List.filter p xs) = List.filter (fun x => p x && q x) xs.
Proof.
  induction xs as [|x xs IH]; simpl; [reflexivity|].
  destruct (p x); simpl; [destruct (q x)|]; now rewrite IH.
Qed.

(** The filters of [applyFilters], one after the other: every filter
    makes a new array, whose rows are rows of the array before. *)
Lemma filterFold_spec (filters : list Filter.t) :
  forall h a rs xs,
    h !! a = Some (RowArray rs) -> rowsAt h rs = Some xs ->
    exists ext a' rs',
      arrayFold (fun cur filter =>
          rows ← getArray cur;
          kept ← arrayFilter (fun r => x ← getRow r; mret (matchesFilter filter x)) rows;
          alloc (RowArray kept)) a filters h = (h ++ ext, Ok a')
      /\ (h ++ ext) !! a' = Some (RowArray rs')
      /\ rs' ⊆ rs
      /\ rowsAt (h ++ ext) rs'
         = Some (List.filter (fun x => forallb (fun f => matchesFilter f x) filters) xs)
      /\ (filters <> [] -> length h <= a').
Proof.
  induction filters as [|f fs IH]; intros h a rs xs Ha Hrs.
  - exists [], a, rs. rewrite app_nil_r. simpl. rewrite filter_all.
    repeat split; auto. congruence.
  - destruct (arrayFilter_rows (matchesFilter f) h rs xs Hrs) as (kept & Ek & Hk & Hsub).
    assert ((h ++ [RowArray kept]) !! length h = Some (RowArray kept)) as Ha1
      by apply list_lookup_middle, eq_refl.
    destruct (IH (h ++ [RowArray kept]) (length h) kept _ Ha1 (rowsAt_app _ _ _ _ Hk))
      as (ext & a' & rs' & E & Ha' & Hsub' & Hrows & Hnew).
    exists (RowArray kept :: ext), a', rs'.
    change (h ++ RowArray kept :: ext) with (h ++ [RowArray kept] ++ ext).
    rewrite app_assoc. split.
    { cbn [arrayFold].
      match goal with |- (?step ≫= _) h = _ =>
        assert (step h = (h ++ [RowArray kept], Ok (length h))) as Es
      end.
      { rewrite (bind_ok _ _ _ _ _ (getArray_ok _ _ _ Ha)).
        now rewrite (bind_ok _ _ _ _ _ Ek). }
      rewrite (bind_ok _ _ _ _ _ Es). exact E. }
    split; [exact Ha'|]. split; [set_solver|].
    split; [rewrite Hrows, filter_twice; reflexivity|].
    intros _. destruct fs as [|f' fs'].
    + simpl in E. inversion E. lia.
    + assert (length (h ++ [RowArray kept]) <= a') by (apply Hnew; congruence).
      rewrite length_app in *. simpl in *. lia.
Qed.

Lemma filteredView_spec filters h master a m rs xs mt :
  h !! master = Some (Data a m) -> h !! a = Some (RowArray rs) ->
  h !! m = Some (Meta mt) -> rowsAt h rs = Some xs ->
  exists ext a' rs',
    filteredView filters master h
    = (h ++ ext ++ [Data a' m], Ok (length (h ++ ext)))
    /\ (h ++ ext) !! a' = Some (RowArray rs')
    /\ rs' ⊆ rs
    /\ rowsAt (h ++ ext) rs'
       = Some (List.filter (fun x => forallb (fun f => matchesFilter f x) filters) xs)
    /\ (filters <> [] -> length h <= a').
Proof.
  intros Hd Ha Hm Hrs.
  destruct (filterFold_spec filters h a rs xs Ha Hrs)
    as (ext & a' & rs' & E & Ha' & Hsub & Hrows & Hnew).
  exists ext, a', rs'. split; [|auto].
  unfold filteredView. rewrite (bind_ok _ _ _ _ _ (getData_ok _ _ _ _ Hd)).
  rewrite (bind_ok _ _ _ _ _ E). unfold alloc. now rewrite app_assoc.
Qed.

Section Views.
Context `{Host}.


End Views.



(** * Further properties *)

(** ** The normalizer, cell by cell *)

Section CleaningCells.
Import Num Str Conv Js.

Lemma cleanedCell_again val : cleanedCell (cleanedCell val) = cleanedCell val.
Proof.
  destruct val as [[n|s|b|]|]; try reflexivity. simpl.
  destruct (negb _ && negb _) eqn:E; simpl; [reflexivity|]. now rewrite E.
Qed.

Lemma cleanField_lookup r field k :
  cleanField r field !! k
  = if decide (k = field) then cleanedCell (r !! field) else r !! k.
Proof.
  destruct (decide (k = field)) as [->|Hne]; [|now apply cleanField_other].
  unfold cleanField, cleanedCell.
  destruct (r !! field) as [[n|s|b|]|] eqn:E; rewrite ?E; try reflexivity.
  destruct (negb _ && negb _); [apply lookup_insert_eq|exact E].
Qed.

Lemma cleanFields_lookup toClean r k :
  fold_left cleanField toClean r !! k
  = if decide (k ∈ toClean) then cleanedCell (r !! k) else r !! k.
Proof.
  revert r. induction toClean as [|f toClean IH]; intros r; simpl; [reflexivity|].
  rewrite IH, cleanField_lookup.
  destruct (decide (k = f)) as [->|Hne].
  - rewrite (decide_True (P := f ∈ f :: toClean)) by apply list_elem_of_here.
    destruct (decide (f ∈ toClean)); [apply cleanedCell_again|reflexivity].
  - destruct (decide (k ∈ toClean)) as [Hin|Hn].
    + rewrite decide_True by now apply list_elem_of_further. reflexivity.
    + rewrite decide_False; [reflexivity|].
      intros Hin. apply elem_of_cons in Hin as [?|?]; auto.
Qed.

Lemma cleanAndNormalizeData_map data fields :
  cleanAndNormalizeData data fields
  = map (fold_left cleanField (fieldsToClean data fields)) data.
Proof.
  unfold cleanAndNormalizeData. destruct data as [|r data]; [reflexivity|].
  destruct (fieldsToClean (r :: data) fields) as [|f fs]; [|reflexivity].
  simpl. now rewrite map_id.
Qed.

Lemma cleanField_fixed r field :
  cleanedCell (r !! field) = r !! field -> cleanField r field = r.
Proof.
  unfold cleanField, cleanedCell.
  destruct (r !! field) as [[n|s|b|]|]; try reflexivity.
  destruct (negb _ && negb _); [discriminate|reflexivity].
Qed.

Lemma cleanFields_fixed toClean r :
  (forall f, f ∈ toClean -> cleanedCell (r !! f) = r !! f) ->
  fold_left cleanField toClean r = r.
Proof.
  induction toClean as [|f toClean IH]; intros Hall; simpl; [reflexivity|].
  rewrite cleanField_fixed by (apply Hall, list_elem_of_here).
  apply IH. intros g Hg. apply Hall. now apply list_elem_of_further.
Qed.

Lemma scanField_ext (sample sample' : list row) field :
  map (fun r : row => r !! field) sample' = map (fun r : row => r !! field) sample ->
  scanField sample' field = scanField sample field.
Proof. intros E. now rewrite !scanField_fold, E. Qed.

Lemma map_take_map {A B} (g : A -> B) (F : A -> A) (n : nat) (l : list A) :
  (forall x, g (F x) = g x) -> map g (take n (map F l)) = map g (take n l).
Proof.
  intros Hg. revert n. induction l as [|x l IH]; intros [|n]; simpl; try reflexivity.
  now rewrite Hg, IH.
Qed.

(** A field that the first pass left alone is no candidate of a second
    pass. *)
Lemma fieldsToClean_again data fields f :
  f ∈ fieldsToClean (cleanAndNormalizeData data fields) fields ->
  f ∈ fieldsToClean data fields.
Proof.
  intros Hin. destruct (decide (f ∈ fieldsToClean data fields)) as [|Hn]; [assumption|].
  exfalso. apply Hn. unfold fieldsToClean in Hin |- *.
  rewrite list_elem_of_In, filter_In, <- list_elem_of_In in Hin |- *.
  destruct Hin as [Hf Hc]. split; [exact Hf|]. rewrite <- Hc. symmetry. f_equal.
  apply scanField_ext. rewrite cleanAndNormalizeData_map.
  apply map_take_map. intros r.
  rewrite cleanFields_lookup. now rewrite decide_False.
Qed.

(** X1. In the rows that [cleanAndNormalizeData] leaves, a cell of a
    rewritten field is the number that the string it held strips to,
    when that string strips to a number, and every other cell is the
    cell of before.  So a cell that holds a number, a boolean or [null],
    or that is missing, never changes, and no cell becomes [NaN]. *)
Theorem normalizer_changes_only_strings_into_numbers
    (data : list row) (fields : list string) (i : nat) (r : row) (field : string) :
  data !! i = Some r ->
  exists r',
    cleanAndNormalizeData data fields !! i = Some r'
    /\ r' !! field = (if decide (field ∈ fieldsToClean data fields)
                      then cleanedCell (r !! field) else r !! field)
    /\ (r' !! field = r !! field
        \/ exists s, r !! field = Some (VStr s)
                     /\ r' !! field = Some (VNum (js_Number (remove isNoise s)))
                     /\ isNaN (js_Number (remove isNoise s)) = false
                     /\ remove isNoise s <> EmptyString).
Proof.
  intros Hr. rewrite (cleanAndNormalizeData_lookup data fields i r Hr).
  eexists. split; [reflexivity|]. rewrite cleanFields_lookup.
  split; [reflexivity|].
  destruct (decide (field ∈ fieldsToClean data fields)); [|now left].
  unfold cleanedCell. destruct (r !! field) as [[n|s|b|]|]; try now left.
  destruct (isEmpty (remove isNoise s)) eqn:Ee; simpl; [now left|].
  destruct (isNaN (js_Number (remove isNoise s))) eqn:En; simpl; [now left|].
  right. exists s. repeat split; auto.
  intros E. rewrite E in Ee. discriminate.
Qed.

(** X2. Cleaning a second time changes nothing: the rows that
    [cleanAndNormalizeData] leaves are rows it leaves as they are. *)
Theorem normalizer_is_idempotent (data : list row) (fields : list string) :
  cleanAndNormalizeData (cleanAndNormalizeData data fields) fields
  = cleanAndNormalizeData data fields.
Proof.
  rewrite (cleanAndNormalizeData_map (cleanAndNormalizeData data fields)).
  set (again := fieldsToClean (cleanAndNormalizeData data fields) fields).
  assert (forall f, f ∈ again -> f ∈ fieldsToClean data fields) as Hsub
    by apply fieldsToClean_again.
  rewrite cleanAndNormalizeData_map.
  rewrite <- list_fmap_compose. apply list_fmap_ext. intros i r Hr. simpl.
  apply cleanFields_fixed. intros f Hf. rewrite cleanFields_lookup.
  rewrite decide_True by now apply Hsub. apply cleanedCell_again.
Qed.

End CleaningCells.

Lemma normalizer_cells_witness :
  exists r',
    cleanAndNormalizeData prices ["p"] !! 0 = Some r'
    /\ r' !! "p" = Some (VNum (Num.of_Z 1200)).
Proof.
  destruct (normalizer_changes_only_strings_into_numbers prices ["p"] 0
              {[ "p" := VStr "$1,200" ]} "p" eq_refl) as (r' & E & Hcell & _).
  exists r'. split; [exact E|]. rewrite Hcell. vm_compute. reflexivity.
Defined.

(** ** The decisions of the type inference *)

Section InferenceDecisions.
Import Num Str Conv Js.
Context `{Host}.

Lemma inferValue_isTemporal st val :
  isTemporal (inferValue st val) = isTemporal st && looksTemporal val.
Proof.
  unfold inferValue, looksTemporal.
  destruct val as [[n|s|b|]|]; simpl; rewrite ?andb_true_r; try reflexivity;
    try (destruct s as [|c s]; simpl; rewrite ?andb_true_r; [reflexivity|]);
    destruct (isTemporal st); reflexivity.
Qed.

Lemma inferValue_uniqueValues st val :
  uniqueValues (inferValue st val)
  = match val with
    | Some v => if skipped (Some v) then uniqueValues st else setAdd (uniqueValues st) v
    | None => uniqueValues st
    end.
Proof.
  unfold inferValue, skipped. destruct val as [[n|s|b|]|]; try reflexivity.
  now destruct s.
Qed.

Lemma inferField_fold (sample : list row) field st :
  let st' := fold_left (fun st (r : row) => inferValue st (r !! field)) sample st in
  isTemporal st'
  = isTemporal st && forallb (fun r : row => looksTemporal (r !! field)) sample
  /\ uniqueValues st'
     = fold_left (fun s (r : row) =>
                    match r !! field with
                    | Some v => if skipped (Some v) then s else setAdd s v
                    | None => s
                    end) sample (uniqueValues st).
Proof.
  revert st. induction sample as [|r sample IH]; intros st; simpl.
  - now rewrite andb_true_r.
  - destruct (IH (inferValue st (r !! field))) as [E1 E2].
    rewrite E1, E2, inferValue_isTemporal, inferValue_uniqueValues.
    now rewrite andb_assoc.
Qed.

Lemma setAdd_length s v : (length (setAdd s v) <= S (length s))%nat.
Proof.
  unfold setAdd. destruct (existsb _ s); [lia|]. rewrite length_app. simpl. lia.
Qed.

Lemma distinct_fold_length (sample : list row) field s :
  (length (fold_left (fun s (r : row) =>
                        match r !! field with
                        | Some v => if skipped (Some v) then s else setAdd s v
                        | None => s
                        end) sample s)
   <= length s + length sample)%nat.
Proof.
  revert s. induction sample as [|r sample IH]; intros s; [simpl; lia|].
  cbn [fold_left length]. etransitivity; [apply IH|].
  destruct (r !! field) as [v|]; [|lia].
  destruct (skipped (Some v)); [lia|]. pose proof (setAdd_length s v). lia.
Qed.

Lemma distinctValues_length sample field :
  (length (distinctValues sample field) <= length sample)%nat.
Proof. apply (distinct_fold_length sample field []). Qed.

(** For a sample of at most 100 rows, the quotient of the distinct
    values is below one half, with at most 50 of them, exactly when
    twice their number is below the number of rows. *)
Lemma uniqueness_exact (u n : nat) :
  (0 < n <= 100)%nat -> (u <= n)%nat ->
  ltb (div (of_nat u) (of_nat n)) CATEGORICAL_UNIQUENESS_THRESHOLD
  && (u <=? CATEGORICAL_MAX_UNIQUE_VALUES)%nat
  = (2 * u <? n)%nat.
Proof.
  intros Hn Hu.
  assert (forallb (fun n => forallb (fun u =>
            Bool.eqb (ltb (div (of_nat u) (of_nat n)) CATEGORICAL_UNIQUENESS_THRESHOLD
                      && (u <=? CATEGORICAL_MAX_UNIQUE_VALUES)%nat)
                     (2 * u <? n)%nat) (seq 0 (S n))) (seq 1 100) = true) as Htable
    by (vm_compute; reflexivity).
  rewrite forallb_forall in Htable.
  assert (In n (seq 1 100)) as Hin by (apply in_seq; lia).
  specialize (Htable n Hin). rewrite forallb_forall in Htable.
  assert (In u (seq 0 (S n))) as Hin' by (apply in_seq; lia).
  specialize (Htable u Hin'). now apply eqb_prop in Htable.
Qed.

Lemma inferField_decision (sample : list row) field :
  (0 < length sample <= 100)%nat ->
  inferField sample field
  = if forallb (fun r : row => looksNumeric (r !! field)) sample then numerical
    else if forallb (fun r : row => looksTemporal (r !! field)) sample then temporal
    else if (2 * length (distinctValues sample field) <? length sample)%nat
         then categorical
    else stringType.
Proof.
  intros Hlen. unfold inferField. rewrite inferField_isNumeric. simpl.
  destruct (forallb (fun r : row => looksNumeric (r !! field)) sample); [reflexivity|].
  destruct (inferField_fold sample field
              {| isNumeric := true; isTemporal := true; uniqueValues := [] |})
    as [E1 E2].
  cbv zeta in E1, E2. rewrite E1, E2. simpl. fold (distinctValues sample field).
  destruct (forallb (fun r : row => looksTemporal (r !! field)) sample); [reflexivity|].
  rewrite uniqueness_exact; [reflexivity|exact Hlen|apply distinctValues_length].
Qed.

Lemma sample_length (data : list row) :
  data <> [] -> (0 < length (take MAX_SAMPLE_SIZE data) <= 100)%nat.
Proof.
  intros Hd. rewrite length_take. unfold MAX_SAMPLE_SIZE.
  destruct data; [congruence|]. cbn [length]. lia.
Qed.

Lemma inferColumnTypes_lookup (data : list row) (fields : list string) field :
  data <> [] ->
  inferColumnTypes data fields !! field
  = if decide (field ∈ fields)
    then Some (inferField (take MAX_SAMPLE_SIZE data) field) else None.
Proof.
  intros Hd. unfold inferColumnTypes.
  destruct (take MAX_SAMPLE_SIZE data) as [|r0 sample] eqn:Es.
  { destruct data; [congruence|discriminate]. }
  rewrite lookup_inferred. now destruct (decide (field ∈ fields)).
Qed.


(** X4. A column in which a sampled row holds a value of type number
    is never inferred temporal. *)
Theorem number_cells_are_never_temporal
    (data : list row) (fields : list string) (field : string) (r : row) (n : number) :
  r ∈ take MAX_SAMPLE_SIZE data ->
  r !! field = Some (VNum n) ->
  inferColumnTypes data fields !! field <> Some temporal.
Proof.
  intros Hr Hn. assert (data <> []) as Hd by (intros ->; inversion Hr).
  rewrite (inferColumnTypes_lookup data fields field Hd).
  destruct (decide (field ∈ fields)); [|discriminate].
  rewrite inferField_decision by now apply sample_length.
  destruct (forallb (fun r : row => looksNumeric (r !! field)) _); [discriminate|].
  assert (forallb (fun r : row => looksTemporal (r !! field))
            (take MAX_SAMPLE_SIZE data) = false) as ->.
  { apply not_true_iff_false. intros Hall. rewrite forallb_forall in Hall.
    apply list_elem_of_In in Hr. specialize (Hall r Hr).
    rewrite Hn in Hall. discriminate. }
  destruct (_ <? _)%nat; discriminate.
Qed.

(** X5. Rows after the first 100 decide neither the fields that are
    cleaned nor the types that are inferred; they are cleaned in the
    fields that the first 100 rows have decided, and in no other. *)
Theorem only_the_first_100_rows_are_sampled
    (data more : list row) (fields : list string) :
  (100 <= length data)%nat ->
  fieldsToClean (data ++ more) fields = fieldsToClean data fields
  /\ inferColumnTypes (data ++ more) fields = inferColumnTypes data fields
  /\ cleanAndNormalizeData (data ++ more) fields
     = cleanAndNormalizeData data fields
       ++ map (fun r => fold_left cleanField (fieldsToClean data fields) r) more.
Proof.
  intros Hlen.
  assert (fieldsToClean (data ++ more) fields = fieldsToClean data fields) as Hsame.
  { unfold fieldsToClean, SAMPLE_LIMIT. now rewrite take_app_le by lia. }
  split; [exact Hsame|]. split.
  - unfold inferColumnTypes, MAX_SAMPLE_SIZE. now rewrite take_app_le by lia.
  - rewrite !cleanAndNormalizeData_map, Hsame. apply map_app.
Qed.

End InferenceDecisions.


Lemma number_cells_witness :
  inferColumnTypes (H := datesEverywhere) yearsAndCities ["year"; "city"] !! "year"
  <> Some temporal.
Proof.
  apply (number_cells_are_never_temporal (H := datesEverywhere) yearsAndCities
           ["year"; "city"] "year"
           {[ "year" := VNum (Num.of_Z 2025); "city" := VStr "Rome" ]} (Num.of_Z 2025)).
  - apply list_elem_of_further, list_elem_of_further, list_elem_of_here.
  - reflexivity.
Defined.

Lemma first_100_rows_witness :
  let data := repeat ({[ "n" := VStr "$1" ]} : row) 100 in
  fieldsToClean (data ++ [ {[ "n" := VStr "x" ]} ]) ["n"] = fieldsToClean data ["n"]
  /\ inferColumnTypes (H := exampleHost) (data ++ [ {[ "n" := VStr "x" ]} ]) ["n"]
     = inferColumnTypes (H := exampleHost) data ["n"].
Proof.
  intros data.
  destruct (only_the_first_100_rows_are_sampled (H := exampleHost) data
              [ {[ "n" := VStr "x" ]} ] ["n"]) as (E1 & E2 & _).
  - unfold data. rewrite repeat_length. lia.
  - split; [exact E1|exact E2].
Defined.

(** ** Matching column names *)

Lemma find_first {A} (p : A -> bool) (l : list A) (x : A) :
  List.find p l = Some x
  <-> exists pre post, l = pre ++ x :: post /\ p x = true
                       /\ forall y, y ∈ pre -> p y = false.
Proof.
  induction l as [|a l IH]; simpl.
  - split; [discriminate|]. intros (pre & post & E & _). now destruct pre.
  - destruct (p a) eqn:Ea.
    + split.
      * intros E. inversion E; subst. exists [], l. split; [reflexivity|].
        split; [exact Ea|]. intros y Hy. inversion Hy.
      * intros (pre & post & E & Hx & Hpre). destruct pre as [|b pre].
        -- inversion E. reflexivity.
        -- inversion E; subst. rewrite (Hpre b) in Ea by apply list_elem_of_here.
           discriminate.
    + rewrite IH. split.
      * intros (pre & post & -> & Hx & Hpre). exists (a :: pre), post.
        split; [reflexivity|]. split; [exact Hx|].
        intros y Hy. apply elem_of_cons in Hy as [->|Hy]; auto.
      * intros (pre & post & E & Hx & Hpre). destruct pre as [|b pre].
        -- inversion E; subst. congruence.
        -- inversion E; subst. exists pre, post. split; [reflexivity|].
           split; [exact Hx|]. intros y Hy. apply Hpre. now apply list_elem_of_further.
Qed.

Lemma isEmpty_true s : Str.isEmpty s = true <-> s = EmptyString.
Proof. destruct s; simpl; split; congruence. Qed.

(** X6. [findMatchingColumn] returns the first column whose name, trimmed
    and in lower case, is the name asked for, trimmed and in lower case;
    it returns nothing for a missing or empty name, and nothing when
    that first column is the empty name.  So the column it returns is
    one of the columns, and two names that differ in case or in the
    white space around them find the same column. *)
Theorem matching_column_is_the_first_match
    (name : string) (actualColumns : list string) :
  findMatchingColumn None actualColumns = None
  /\ findMatchingColumn (Some EmptyString) actualColumns = None
  /\ (forall col,
        findMatchingColumn (Some name) actualColumns = Some col
        <-> name <> EmptyString /\ col <> EmptyString
            /\ exists pre post,
                 actualColumns = pre ++ col :: post
                 /\ normalized col = normalized name
                 /\ forall other, other ∈ pre -> normalized other <> normalized name)
  /\ (forall col, findMatchingColumn (Some name) actualColumns = Some col ->
                  col ∈ actualColumns)
  /\ (forall name', name <> EmptyString -> name' <> EmptyString ->
                    normalized name' = normalized name ->
                    findMatchingColumn (Some name') actualColumns
                    = findMatchingColumn (Some name) actualColumns).
Proof.
  assert (forall col,
        findMatchingColumn (Some name) actualColumns = Some col
        <-> name <> EmptyString /\ col <> EmptyString
            /\ exists pre post,
                 actualColumns = pre ++ col :: post
                 /\ normalized col = normalized name
                 /\ forall other, other ∈ pre -> normalized other <> normalized name)
    as Hspec.
  { intros col. unfold findMatchingColumn. fold (normalized name).
    destruct (Str.isEmpty name) eqn:En.
    { apply isEmpty_true in En. split; [discriminate|]. intros [Hn _]. contradiction. }
    assert (name <> EmptyString) as Hname by (intros ->; discriminate).
    destruct (List.find _ actualColumns) as [found|] eqn:Ef.
    - pose proof Ef as Hfound. apply find_first in Hfound as (pre & post & E & Hx & Hpre).
      apply String.eqb_eq in Hx.
      destruct (Str.isEmpty found) eqn:Ee.
      + apply isEmpty_true in Ee. subst found. split; [discriminate|].
        intros (_ & Hcol & pre' & post' & E' & Hx' & Hpre').
        assert (List.find (fun c => String.eqb (Str.toLowerCase (Str.trim c))
                                               (normalized name)) actualColumns
                = Some col) as Ef'.
        { apply find_first. exists pre', post'. split; [exact E'|].
          split; [now apply String.eqb_eq|].
          intros y Hy. apply String.eqb_neq. now apply Hpre'. }
        rewrite Ef in Ef'. congruence.
      + split.
        * intros Hc. inversion Hc; subst. split; [exact Hname|].
          split; [intros ->; discriminate|].
          exists pre, post. split; [reflexivity|]. split; [exact Hx|].
          intros y Hy. apply String.eqb_neq. now apply Hpre.
        * intros (_ & Hcol & pre' & post' & E' & Hx' & Hpre').
          assert (List.find (fun c => String.eqb (Str.toLowerCase (Str.trim c))
                                                 (normalized name)) actualColumns
                  = Some col) as Ef'.
          { apply find_first. exists pre', post'. split; [exact E'|].
            split; [now apply String.eqb_eq|].
            intros y Hy. apply String.eqb_neq. now apply Hpre'. }
          rewrite Ef in Ef'. congruence.
    - split; [discriminate|].
      intros (_ & Hcol & pre' & post' & E' & Hx' & Hpre').
      assert (List.find (fun c => String.eqb (Str.toLowerCase (Str.trim c))
                                             (normalized name)) actualColumns
              = Some col) as Ef'.
      { apply find_first. exists pre', post'. split; [exact E'|].
        split; [now apply String.eqb_eq|].
        intros y Hy. apply String.eqb_neq. now apply Hpre'. }
      rewrite Ef in Ef'. discriminate. }
  split; [reflexivity|]. split; [reflexivity|]. split; [exact Hspec|]. split.
  - intros col Hc. apply Hspec in Hc as (_ & _ & pre & post & -> & _).
    apply elem_of_app. right. apply list_elem_of_here.
  - intros name' Hn Hn' Hnorm. unfold findMatchingColumn.
    destruct (Str.isEmpty name) eqn:E1; [apply isEmpty_true in E1; contradiction|].
    destruct (Str.isEmpty name') eqn:E2; [apply isEmpty_true in E2; contradiction|].
    fold (normalized name) (normalized name'). now rewrite Hnorm.
Qed.

(** ** What a chart counts *)

Section ChartCounts.
Import Num Conv Js.







Lemma totalEntry_nil valueCol label : totalEntry valueCol label [] = None.
Proof. reflexivity. Qed.






End ChartCounts.


(** ** Charts that show every group *)

Section ChartGroups.
Import Num Js.
Context `{Host}.





(** X10. What [prepareChartData] answers is decided by the chart type
    and the column names alone: it returns [null] exactly for a chart
    type that is none of bar, line, area, pie, donut and scatter; it
    throws exactly when a label column or, unless the aggregation is
    [count], a value column of such a chart has no match among the
    fields, or when a column of a scatter plot has none; otherwise it
    returns a series with as many labels as values, or the points of a
    scatter plot, no more than there are rows and none with a
    coordinate that is not a number. *)
Theorem chart_preparation_answers
    (config : Chart.t) (data : list row) (actualColumns : list string) :
  let chartType := Chart.chartType config in
  match prepareChartData config data actualColumns with
  | Ok None => isAggregated chartType = false /\ chartType <> "scatter"
  | Ok (Some (Series s)) =>
      isAggregated chartType = true
      /\ findMatchingColumn (aiLabelCol config) actualColumns = Some (titleX s)
      /\ (Chart.aggregation config = "count"
          \/ exists v, findMatchingColumn (aiValueCol config) actualColumns = Some v)
      /\ length (labels s) = length (values s)
  | Ok (Some (Scatter points _ titleX titleY)) =>
      chartType = "scatter"
      /\ findMatchingColumn (Chart.xAxisColumn config) actualColumns = Some titleX
      /\ findMatchingColumn (Chart.yAxisColumn config) actualColumns = Some titleY
      /\ (length points <= length data)%nat
      /\ Forall (fun p => isNaN (fst p) = false /\ isNaN (snd p) = false) points
  | Throw _ =>
      (isAggregated chartType = true
       /\ (findMatchingColumn (aiLabelCol config) actualColumns = None
           \/ (Chart.aggregation config <> "count"
               /\ findMatchingColumn (aiValueCol config) actualColumns = None)))
      \/ (chartType = "scatter"
          /\ (findMatchingColumn (Chart.xAxisColumn config) actualColumns = None
              \/ findMatchingColumn (Chart.yAxisColumn config) actualColumns = None))
  end.
Proof.
  intros chartType. unfold prepareChartData. fold chartType.
  destruct (isAggregated chartType) eqn:Hagg.
  - unfold resolveColumns.
    destruct (findMatchingColumn (aiLabelCol config) actualColumns) as [labelCol|] eqn:El;
      [|left; auto].
    destruct (String.eqb_spec (Chart.aggregation config) "count") as [Hc|Hc]; simpl.
    + destruct (collapse chartType _) as [ls vs] eqn:Ec. simpl.
      split; [reflexivity|]. split; [reflexivity|]. split; [now left|].
      unfold collapse in Ec. destruct (_ && _); inversion Ec;
        rewrite ?length_app, !length_map; reflexivity.
    + destruct (findMatchingColumn (aiValueCol config) actualColumns) as [v|] eqn:Ev;
        simpl; [|left; auto].
      destruct (collapse chartType _) as [ls vs] eqn:Ec. simpl.
      split; [reflexivity|]. split; [reflexivity|]. split; [right; eauto|].
      unfold collapse in Ec. destruct (_ && _); inversion Ec;
        rewrite ?length_app, !length_map; reflexivity.
  - destruct (String.eqb_spec chartType "scatter") as [Hs|Hs]; [|auto].
    destruct (findMatchingColumn (Chart.xAxisColumn config) actualColumns) as [mx|] eqn:Ex;
      destruct (findMatchingColumn (Chart.yAxisColumn config) actualColumns) as [my|] eqn:Ey;
      try (right; auto; fail).
    split; [exact Hs|]. split; [reflexivity|]. split; [reflexivity|]. split.
    + etransitivity; [apply List.filter_length_le|]. now rewrite length_map.
    + apply Forall_forall. intros p Hp. apply list_elem_of_In, filter_In in Hp as [_ Hp].
      apply andb_true_iff in Hp as [H1 H2]. apply negb_true_iff in H1, H2. auto.
Qed.

End ChartGroups.


(** ** The steps of a plan, on the rows *)

Section StepViews.
Import Num Js.

(** X11. [transformCreateColumn] returns its dataset, in which every row
    has the new column beside the cells it had, and the field list has
    the new name at its end (a second time, when it was a field
    already); the inferred types stay.  The new cell is [null] when an
    operand does not parse, when the operator is none of the four, and
    when a division is by zero. *)
Theorem create_column_adds_a_cell_to_every_row
    (h : heap) (dataObject : ref) (ds : dataset)
    (newColumn column1 operator column2 : string) :
  view h dataObject = Some ds ->
  exists h',
    transformCreateColumn dataObject newColumn column1 operator column2 h
    = (h', Ok dataObject)
    /\ view h' dataObject
       = Some {| data := map (fun x : row =>
                                <[newColumn := newColumnValue column1 operator column2 x]> x)
                             (data ds);
                 dmeta := {| fields := fields (dmeta ds) ++ [newColumn];
                             inferredTypes := inferredTypes (dmeta ds) |} |}
    /\ (forall x : row,
          isNaN (parseCell (x !! column1)) = true
          \/ isNaN (parseCell (x !! column2)) = true ->
          newColumnValue column1 operator column2 x = VNull)
    /\ (forall x : row,
          Num.eqb (parseCell (x !! column2)) zero = true ->
          newColumnValue column1 "divide" column2 x = VNull)
    /\ (forall x : row,
          operator <> "add" -> operator <> "subtract" ->
          operator <> "multiply" -> operator <> "divide" ->
          newColumnValue column1 operator column2 x = VNull).
Proof.
  intros Hv. apply view_datasetAt in Hv.
  destruct (transformCreateColumn_spec 0 h dataObject _ _ newColumn column1 operator
              column2 Hv) as (h' & E & _ & Hd').
  exists h'. split; [exact E|]. split; [exact (datasetAt_view _ _ _ _ _ Hd')|].
  split; [|split].
  - intros x [Hn|Hn]; unfold newColumnValue; rewrite Hn; simpl;
      now rewrite ?andb_false_r.
  - intros x Hz. unfold newColumnValue.
    destruct (negb _ && negb _); [|reflexivity]. simpl. now rewrite Hz.
  - intros x H1 H2 H3 H4. unfold newColumnValue.
    apply String.eqb_neq in H1, H2, H3, H4. rewrite H1, H2, H3, H4.
    now destruct (negb _ && negb _).
Qed.

(** *** Renaming in place *)

Lemma renameInRow_again oldColumn newColumn (x : row) :
  renameInRow oldColumn newColumn (renameInRow oldColumn newColumn x)
  = renameInRow oldColumn newColumn x.
Proof.
  unfold renameInRow. destruct (x !! oldColumn) as [v|] eqn:E.
  - now rewrite lookup_delete_eq.
  - now rewrite E.
Qed.

(** The rows of the array after the callback has run on each of them:
    a row object that the array holds twice is renamed once. *)
Lemma arrayMap_store_rows (g : row -> row) rs :
  (forall x, g (g x) = g x) ->
  forall h,
    Forall (fun r => is_Some (rowAt h r)) rs ->
    exists h',
      arrayMap (fun r => x ← getRow r; _ ← store r (Row (g x)); mret r) rs h
      = (h', Ok rs)
      /\ length h' = length h
      /\ (forall l, rowAt h' l = if decide (l ∈ rs) then g <$> rowAt h l else rowAt h l)
      /\ (forall l, rowAt h l = None -> h' !! l = h !! l).
Proof.
  intros Hg. induction rs as [|r rs IH]; intros h Hrows.
  - exists h. split; [reflexivity|]. split; [reflexivity|]. split; [|auto].
    intros l. rewrite decide_False; [reflexivity|]. intros Hl. inversion Hl.
  - apply Forall_cons in Hrows as [[x Hx] Hrows].
    assert (r < length h) as Lr.
    { unfold rowAt in Hx. destruct (h !! r) eqn:E; [|discriminate].
      now apply lookup_lt_Some in E. }
    set (h1 := <[r := Row (g x)]> h).
    assert (forall l, rowAt h1 l = if decide (l = r) then Some (g x) else rowAt h l)
      as Hh1.
    { intros l. unfold h1, rowAt. destruct (decide (l = r)) as [->|Hne].
      - now rewrite list_lookup_insert_eq by exact Lr.
      - now rewrite list_lookup_insert_ne by auto. }
    destruct (IH h1) as (h' & E & Hlen & Hrows' & Hother).
    { eapply Forall_impl; [exact Hrows|]. intros l [y Hy]. rewrite Hh1.
      destruct (decide (l = r)); eauto. }
    exists h'. split; [|split; [|split]].
    + cbn [arrayMap].
      assert ((x0 ← getRow r; _ ← store r (Row (g x0)); mret r) h = (h1, Ok r)) as Es.
      { rewrite (bind_ok _ _ _ _ _ (getRow_ok _ _ _ Hx)).
        now rewrite (bind_ok _ _ _ _ _ (store_ok _ _ _ Lr)). }
      rewrite (bind_ok _ _ _ _ _ Es), (bind_ok _ _ _ _ _ E). reflexivity.
    + rewrite Hlen. apply length_insert.
    + intros l. rewrite Hrows', Hh1.
      destruct (decide (l = r)) as [->|Hne].
      * rewrite (decide_True (P := r ∈ r :: rs)) by apply list_elem_of_here.
        rewrite Hx. simpl. destruct (decide (r ∈ rs)); simpl; now rewrite ?Hg.
      * destruct (decide (l ∈ rs)) as [Hin|Hn].
        -- rewrite decide_True by now apply list_elem_of_further. reflexivity.
        -- rewrite decide_False; [reflexivity|].
           intros Hin. apply elem_of_cons in Hin as [?|?]; auto.
    + intros l Hl. rewrite Hother.
      * apply list_lookup_insert_ne. intros ->. congruence.
      * rewrite Hh1. destruct (decide (l = r)) as [->|]; [congruence|exact Hl].
Qed.

Lemma rowsAt_renamed (g : row -> row) h h' rs xs :
  rowsAt h rs = Some xs ->
  (forall l, rowAt h' l = if decide (l ∈ rs) then g <$> rowAt h l else rowAt h l) ->
  rowsAt h' rs = Some (map g xs).
Proof.
  intros Hrs Hrows.
  assert (forall rs0 xs0, (forall r, r ∈ rs0 -> r ∈ rs) -> rowsAt h rs0 = Some xs0 ->
            rowsAt h' rs0 = Some (map g xs0)) as Hgen.
  { induction rs0 as [|r rs0 IH]; intros xs0 Hsub E.
    - inversion E. reflexivity.
    - apply rowsAt_cons_inv in E as (x & xs' & -> & Hx & Hxs).
      rewrite rowsAt_cons, Hrows.
      rewrite decide_True by apply Hsub, list_elem_of_here.
      rewrite Hx. simpl. rewrite (IH xs'); [reflexivity| |exact Hxs].
      intros r' Hr'. apply Hsub. now apply list_elem_of_further. }
  now apply Hgen.
Qed.

Lemma transformRenameColumn_rows h d xs mt oldColumn newColumn :
  datasetAt 0 h d xs mt ->
  exists h',
    transformRenameColumn d oldColumn newColumn h = (h', Ok d)
    /\ datasetAt 0 h' d (map (renameInRow oldColumn newColumn) xs)
         {| fields := renameInFields oldColumn newColumn (fields mt);
            inferredTypes := inferredTypes mt |}.
Proof.
  intros [a m rs Hd Ha Hm Hrs _ _ _ _].
  set (mt' := {| fields := renameInFields oldColumn newColumn (fields mt);
                 inferredTypes := inferredTypes mt |}).
  destruct (arrayMap_store_rows (renameInRow oldColumn newColumn) rs
              (renameInRow_again oldColumn newColumn) h (rowsAt_Forall _ _ _ Hrs))
    as (h0 & E0 & Hlen & Hrows & Hother).
  assert (h0 !! d = Some (Data a m)) as Hd0.
  { rewrite Hother; [exact Hd|]. now apply (rowAt_None_of _ _ (Data a m)). }
  assert (h0 !! m = Some (Meta mt)) as Hm0.
  { rewrite Hother; [exact Hm|]. now apply (rowAt_None_of _ _ (Meta mt)). }
  pose proof (rowsAt_renamed _ _ _ _ _ Hrs Hrows) as Hxs'.
  pose proof (lookup_lt_Some _ _ _ Hd0) as Ld.
  pose proof (lookup_lt_Some _ _ _ Hm0) as Lm.
  assert (m <> d) as Hmd by (intros ->; congruence).
  set (h1 := h0 ++ [RowArray rs]).
  exists (<[m := Meta mt']> (<[d := Data (length h0) m]> h1)).
  split.
  - unfold transformRenameColumn.
    rewrite (bind_ok _ _ _ _ _ (getData_ok _ _ _ _ Hd)).
    rewrite (bind_ok _ _ _ _ _ (getArray_ok _ _ _ Ha)).
    rewrite (bind_ok _ _ _ _ _ E0).
    assert (alloc (RowArray rs) h0 = (h1, Ok (length h0))) as Ea by reflexivity.
    rewrite (bind_ok _ _ _ _ _ Ea).
    assert (d < length h1) as Ld1 by (unfold h1; rewrite length_app; simpl; lia).
    rewrite (bind_ok _ _ _ _ _ (store_ok h1 d _ Ld1)).
    assert (<[d := Data (length h0) m]> h1 !! m = Some (Meta mt)) as Em.
    { unfold h1. rewrite lookup_updated by auto. exact Hm0. }
    rewrite (bind_ok _ _ _ _ _ (getMeta_ok _ _ _ Em)).
    assert (m < length (<[d := Data (length h0) m]> h1)) as Lm1.
    { rewrite length_insert. unfold h1. rewrite length_app. simpl. lia. }
    rewrite (bind_ok _ _ _ _ _ (store_ok _ m _ Lm1)).
    reflexivity.
  - apply (DatasetAt _ _ _ _ _ (length h0) m rs); auto; try lia.
    + rewrite list_lookup_insert_ne by auto. apply list_lookup_insert_eq.
      unfold h1. rewrite length_app. simpl. lia.
    + rewrite !list_lookup_insert_ne by lia. now apply list_lookup_middle.
    + apply list_lookup_insert_eq. rewrite length_insert. unfold h1.
      rewrite length_app. simpl. lia.
    + apply rowsAt_insert_other.
      * apply rowsAt_insert_other; [now apply rowsAt_app|].
        apply (rowAt_None_of _ _ (Data a m)); [|exact I].
        now apply lookup_app_l_Some.
      * apply (rowAt_None_of _ _ (Meta mt)); [|exact I].
        unfold h1. rewrite lookup_updated by auto. exact Hm0.
    + apply Forall_forall. intros; lia.
Qed.

(** X12. [transformRenameColumn] returns its dataset, in which every row
    that had the old column has its value under the new name and no
    cell under the old one, every other cell is as it was, and a row
    without the old column is untouched; in the field list the first
    occurrence of the old name is replaced.  Renaming a column to its
    own name removes its cells and keeps its name in the field list. *)
Theorem rename_column_moves_the_cells
    (h : heap) (dataObject : ref) (ds : dataset) (oldColumn newColumn : string) :
  view h dataObject = Some ds ->
  exists h',
    transformRenameColumn dataObject oldColumn newColumn h = (h', Ok dataObject)
    /\ view h' dataObject
       = Some {| data := map (renameInRow oldColumn newColumn) (data ds);
                 dmeta := {| fields := renameInFields oldColumn newColumn
                                         (fields (dmeta ds));
                             inferredTypes := inferredTypes (dmeta ds) |} |}
    /\ (forall x : row, x !! oldColumn = None ->
                        renameInRow oldColumn newColumn x = x)
    /\ (forall (x : row) v, x !! oldColumn = Some v ->
          renameInRow oldColumn newColumn x !! oldColumn = None
          /\ (oldColumn <> newColumn ->
              renameInRow oldColumn newColumn x !! newColumn = Some v)
          /\ (forall k, k <> oldColumn -> k <> newColumn ->
                        renameInRow oldColumn newColumn x !! k = x !! k))
    /\ (oldColumn ∉ fields (dmeta ds) ->
        renameInFields oldColumn newColumn (fields (dmeta ds)) = fields (dmeta ds))
    /\ renameInFields oldColumn oldColumn (fields (dmeta ds)) = fields (dmeta ds)
    /\ length (renameInFields oldColumn newColumn (fields (dmeta ds)))
       = length (fields (dmeta ds)).
Proof.
  intros Hv. apply view_datasetAt in Hv.
  destruct (transformRenameColumn_rows h dataObject _ _ oldColumn newColumn Hv)
    as (h' & E & Hd').
  exists h'. split; [exact E|]. split; [exact (datasetAt_view _ _ _ _ _ Hd')|].
  split; [|split; [|split; [|split]]].
  - intros x Hx. unfold renameInRow. now rewrite Hx.
  - intros x v Hx. unfold renameInRow. rewrite Hx.
    split; [apply lookup_delete_eq|]. split.
    + intros Hne. rewrite lookup_delete_ne by exact Hne. apply lookup_insert_eq.
    + intros k H1 H2. rewrite lookup_delete_ne by auto. now apply lookup_insert_ne.
  - generalize (fields (dmeta ds)). induction l as [|f l IH]; intros Hn; [reflexivity|].
    apply not_elem_of_cons in Hn as [Hne Hn]. simpl.
    destruct (String.eqb_spec f oldColumn); [congruence|]. now rewrite IH.
  - generalize (fields (dmeta ds)). induction l as [|f l IH]; [reflexivity|]. simpl.
    destruct (String.eqb_spec f oldColumn) as [->|]; [reflexivity|]. now rewrite IH.
  - generalize (fields (dmeta ds)). induction l as [|f l IH]; [reflexivity|]. simpl.
    destruct (String.eqb f oldColumn); simpl; [reflexivity|]. now rewrite IH.
Qed.

End StepViews.

Lemma create_column_witness :
  exists h',
    transformCreateColumn salesData "w" "v" "divide" "g" salesHeap = (h', Ok salesData)
    /\ view h' salesData
       = Some {| data := [ {[ "g" := VStr "A"; "v" := VStr "10"; "w" := VNull ]};
                           {[ "g" := VStr "A"; "v" := VStr "20"; "w" := VNull ]};
                           {[ "g" := VStr "B"; "v" := VStr "5"; "w" := VNull ]} ];
                 dmeta := {| fields := ["g"; "v"; "w"]; inferredTypes := None |} |}.
Proof.
  destruct (create_column_adds_a_cell_to_every_row salesHeap salesData
              {| data := salesRows;
                 dmeta := {| fields := ["g"; "v"]; inferredTypes := None |} |}
              "w" "v" "divide" "g") as (h' & E & Hview & _).
  - vm_compute; reflexivity.
  - exists h'. split; [exact E|]. rewrite Hview. vm_compute; reflexivity.
Defined.

Lemma rename_column_witness :
  exists h',
    transformRenameColumn salesData "v" "v" salesHeap = (h', Ok salesData)
    /\ view h' salesData
       = Some {| data := [ {[ "g" := VStr "A" ]}; {[ "g" := VStr "A" ]};
                           {[ "g" := VStr "B" ]} ];
                 dmeta := {| fields := ["g"; "v"]; inferredTypes := None |} |}.
Proof.
  destruct (rename_column_moves_the_cells salesHeap salesData
              {| data := salesRows;
                 dmeta := {| fields := ["g"; "v"]; inferredTypes := None |} |}
              "v" "v") as (h' & E & Hview & _).
  - vm_compute; reflexivity.
  - exists h'. split; [exact E|]. rewrite Hview. vm_compute; reflexivity.
Defined.

(** *** Sorting and limiting *)

Section SortViews.
Import Num Js.
Context `{Host}.

Lemma sortComparator_antisymmetric column order :
  collationTurns -> antisymmetric (sortComparator column order).
Proof.
  intros Hturn a b. unfold sortComparator.
  rewrite (andb_comm (negb (isNaN (Conv.parseFloat (toString (b !! column)))))).
  destruct (negb _ && negb _).
  - rewrite (sign_sub_opp (Conv.parseFloat (toString (b !! column)))).
    destruct (String.eqb order "descending"), (sign _); simpl; congruence.
  - rewrite (Hturn (toString (a !! column)) (toString (b !! column))).
    destruct (String.eqb order "descending"), (localeCompare _ _); simpl; congruence.
Qed.

Lemma Sorted_map_snd {A B} (cmp : B -> B -> comparison) (l : list (A * B)) :
  Sorted (inOrder (fun p q => cmp (snd p) (snd q))) l ->
  Sorted (inOrder cmp) (map snd l).
Proof.
  induction 1 as [|p l Hs IH Hhd]; simpl; constructor; [exact IH|].
  destruct Hhd; simpl; constructor. assumption.
Qed.

Lemma executeSort_rows h d xs mt column order :
  datasetAt 0 h d xs mt ->
  exists a m rs xs',
    h !! d = Some (Data a m)
    /\ executeSort d column order h = (<[a := RowArray rs]> h, Ok d)
    /\ h !! a <> None
    /\ datasetAt 0 (<[a := RowArray rs]> h) d xs' mt
    /\ xs' ≡ₚ xs
    /\ (antisymmetric (sortComparator column order) ->
        Sorted (inOrder (sortComparator column order)) xs').
Proof.
  intros [a m rs Hd Ha Hm Hrs H1 H2 H3 H4].
  set (cmp := fun p q : ref * row => sortComparator column order (snd p) (snd q)).
  set (sorted := sortBy cmp (zip rs xs)).
  assert (sorted ≡ₚ zip rs xs) as Hperm by apply sortBy_perm.
  assert (pairsAt 0 h sorted) as Hpairs.
  { unfold pairsAt. rewrite Hperm. now apply pairsAt_zip. }
  destruct (pairsAt_rows 0 h sorted Hpairs) as [Hrows Hbound].
  pose proof (lookup_lt_Some _ _ _ Ha) as La.
  assert (a <> d) as Had by (intros ->; congruence).
  assert (a <> m) as Ham by (intros ->; congruence).
  exists a, m, (map fst sorted), (map snd sorted).
  split; [exact Hd|]. split; [|split; [congruence|split; [|split]]].
  - unfold executeSort.
    rewrite (bind_ok _ _ _ _ _ (getData_ok _ _ _ _ Hd)).
    rewrite (bind_ok _ _ _ _ _ (getArray_ok _ _ _ Ha)).
    rewrite (bind_ok _ _ _ _ _ (arrayMap_getRow_paired _ _ _ Hrs)).
    fold cmp sorted. now rewrite (bind_ok _ _ _ _ _ (store_ok _ _ _ La)).
  - apply (DatasetAt _ _ _ _ _ a m (map fst sorted)); auto.
    + now rewrite list_lookup_insert_ne.
    + now apply list_lookup_insert_eq.
    + now rewrite list_lookup_insert_ne.
    + apply rowsAt_insert_other; [exact Hrows|].
      now apply (rowAt_None_of _ _ (RowArray rs)).
  - rewrite Hperm. rewrite snd_zip; [reflexivity|].
    apply rowsAt_length in Hrs. lia.
  - intros Hanti. apply Sorted_map_snd. apply sortBy_sorted.
    intros p q. apply Hanti.
Qed.

(** X13. [executeSort] returns its dataset with the same rows in
    another order, the fields and inferred types as they were; it sorts
    the array object in place and changes no other object.  When the
    comparator is consistent on the rows (the collation of the host
    turns around with its operands, and the comparison is transitive
    on the rows), no row of the result is followed by a row that the
    comparator puts before it. *)
Theorem sort_reorders_the_rows_in_place
    (h : heap) (dataObject : ref) (ds : dataset) (column order : string) :
  view h dataObject = Some ds ->
  exists h' a m rows,
    executeSort dataObject column order h = (h', Ok dataObject)
    /\ h !! dataObject = Some (Data a m)
    /\ (forall l, l <> a -> h' !! l = h !! l)
    /\ view h' dataObject = Some {| data := rows; dmeta := dmeta ds |}
    /\ rows ≡ₚ data ds
    /\ (collationTurns ->
        transitiveOn (sortComparator column order) (data ds) ->
        Sorted (fun x y => sortComparator column order x y <> Gt) rows).
Proof.
  intros Hv. apply view_datasetAt in Hv.
  destruct (executeSort_rows h dataObject _ _ column order Hv)
    as (a & m & rs & xs' & Hd & E & Ha & Hd' & Hperm & Hsorted).
  exists (<[a := RowArray rs]> h), a, m, xs'.
  split; [exact E|]. split; [exact Hd|].
  split; [intros l Hl; now apply list_lookup_insert_ne|].
  split; [exact (datasetAt_view _ _ _ _ _ Hd')|]. split; [exact Hperm|].
  intros Hturn _. apply Hsorted. now apply sortComparator_antisymmetric.
Qed.

End SortViews.

Lemma exampleHost_turns : collationTurns (H := exampleHost).
Proof. intros a b. apply String.compare_antisym. Qed.

Lemma sort_witness :
  exists h',
    executeSort (H := exampleHost) salesData "v" "descending" salesHeap
    = (h', Ok salesData)
    /\ view h' salesData
       = Some {| data := [ {[ "g" := VStr "A"; "v" := VStr "20" ]};
                           {[ "g" := VStr "A"; "v" := VStr "10" ]};
                           {[ "g" := VStr "B"; "v" := VStr "5" ]} ];
                 dmeta := {| fields := ["g"; "v"]; inferredTypes := None |} |}.
Proof.
  destruct (sort_reorders_the_rows_in_place (H := exampleHost) salesHeap salesData
              {| data := salesRows;
                 dmeta := {| fields := ["g"; "v"]; inferredTypes := None |} |}
              "v" "descending") as (h' & a & m & rows & E & _).
  - vm_compute; reflexivity.
  - exists h'. split; [exact E|].
    assert (E' := E). vm_compute in E'. injection E' as <-. vm_compute. reflexivity.
Defined.

(** X14. [executeLimit] returns its dataset with a prefix of its rows,
    in a new array, and the fields and inferred types as they were:
    it never adds or reorders a row.  Without a count, or with
    [Infinity], every row stays; with [NaN] or [-Infinity] none does. *)
Theorem limit_keeps_a_prefix_of_the_rows
    (h : heap) (dataObject : ref) (ds : dataset) (count : option number) :
  view h dataObject = Some ds ->
  exists h' k,
    executeLimit dataObject count h = (h', Ok dataObject)
    /\ (k <= length (data ds))%nat
    /\ view h' dataObject = Some {| data := take k (data ds); dmeta := dmeta ds |}
    /\ (forall l o, h !! l = Some o -> l <> dataObject -> h' !! l = Some o)
    /\ (count = None \/ count = Some Num.Infinity -> k = length (data ds))
    /\ (count = Some Num.NaN \/ count = Some (Num.neg Num.Infinity) -> k = 0).
Proof.
  intros Hv. pose proof Hv as Hv0. apply view_datasetAt in Hv.
  destruct (executeLimit_spec 0 h dataObject _ _ count Hv) as (h' & E & _ & Hd').
  exists h', (sliceEnd (length (data ds)) count).
  split; [exact E|]. split; [|split; [exact (datasetAt_view _ _ _ _ _ Hd')|split; [|split]]].
  - unfold sliceEnd. destruct count as [[sg|sg| |sg mn e]|]; cbv zeta; try lia;
      try (destruct sg; lia);
      match goal with |- context [(?t <? 0)%Z] => destruct (Z.ltb_spec t 0) end; lia.
  - intros l o Hl Hne.
    destruct Hv as [a m rs Hd Ha Hm Hrs _ _ _ _].
    unfold executeLimit in E.
    rewrite (bind_ok _ _ _ _ _ (getData_ok _ _ _ _ Hd)) in E.
    rewrite (bind_ok _ _ _ _ _ (getArray_ok _ _ _ Ha)) in E.
    unfold mbind, ST_bind, alloc, store in E. simpl in E.
    pose proof (lookup_lt_Some _ _ _ Hd) as Ld.
    rewrite decide_True in E by (rewrite length_app; simpl; lia).
    inversion E; subst h'.
    rewrite list_lookup_insert_ne by auto. now apply lookup_app_l_Some.
  - intros [->| ->]; reflexivity.
  - intros [->| ->]; reflexivity.
Qed.

Lemma limit_witness :
  exists h',
    executeLimit salesData (Some (Num.of_Z 2)) salesHeap = (h', Ok salesData)
    /\ view h' salesData
       = Some {| data := [ {[ "g" := VStr "A"; "v" := VStr "10" ]};
                           {[ "g" := VStr "A"; "v" := VStr "20" ]} ];
                 dmeta := {| fields := ["g"; "v"]; inferredTypes := None |} |}.
Proof.
  destruct (limit_keeps_a_prefix_of_the_rows salesHeap salesData
              {| data := salesRows;
                 dmeta := {| fields := ["g"; "v"]; inferredTypes := None |} |}
              (Some (Num.of_Z 2))) as (h' & k & E & _).
  - vm_compute; reflexivity.
  - exists h'. split; [exact E|].
    assert (E' := E). vm_compute in E'. injection E' as <-. vm_compute. reflexivity.
Defined.

(** *** Where a plan stops *)

Section PlanStops.
Context `{Host}.

Lemma executeDataStep_unsupported d step h :
  existsb (String.eqb (Step.action step))
    ["create_column"; "remove_rows"; "rename_column"; "aggregate"; "sort"; "limit"]
  = false ->
  executeDataStep d step h
  = (h, Throw ("Unsupported plan action: " +:+ Step.action step)).
Proof. intros Hk. unfold executeDataStep. now rewrite Hk. Qed.

(** X15. A plan stops at its first [visualize] step and at a step whose
    action is not supported: the steps after it are never executed.  A
    step that is neither [visualize] nor one of the six data actions
    throws the message that names its action, and changes no object. *)
Theorem steps_after_the_end_of_a_plan_never_run
    (pre rest : list Step.t) (last : Step.t) (tempData : ref) (h : heap) :
  Step.action last = "visualize"
  \/ existsb (String.eqb (Step.action last))
       ["create_column"; "remove_rows"; "rename_column"; "aggregate"; "sort"; "limit"]
     = false ->
  runPlan tempData (pre ++ last :: rest) h = runPlan tempData (pre ++ [last]) h
  /\ (Step.action last <> "visualize" ->
      runPlan tempData (last :: rest) h
      = (h, Throw ("Unsupported plan action: " +:+ Step.action last))).
Proof.
  intros Hlast. split.
  - revert tempData h. induction pre as [|s pre IH]; intros tempData h.
    + simpl. destruct (String.eqb (Step.action last) "visualize") eqn:Ev; [reflexivity|].
      destruct Hlast as [Hv|Hk]; [rewrite Hv in Ev; discriminate|].
      unfold mbind, ST_bind. now rewrite (executeDataStep_unsupported _ _ _ Hk).
    + simpl. destruct (String.eqb (Step.action s) "visualize"); [reflexivity|].
      unfold mbind, ST_bind. destruct (executeDataStep tempData s h) as [h1 [d1|e]];
        [apply IH|reflexivity].
  - intros Hne. destruct Hlast as [Hv|Hk]; [contradiction|].
    simpl. apply String.eqb_neq in Hne. rewrite Hne.
    unfold mbind, ST_bind. now rewrite (executeDataStep_unsupported _ _ _ Hk).
Qed.

End PlanStops.

Lemma plan_stops_witness :
  (runPlan (H := exampleHost) salesData
     [stepOf "limit"; stepOf "visualize"; stepOf "remove_rows"] salesHeap).2
  = Ok (Visualized [Some (VStr "A")] [Some (VStr "10")])
  /\ (runPlan (H := exampleHost) salesData [stepOf "pivot"; stepOf "limit"] salesHeap)
     = (salesHeap, Throw "Unsupported plan action: pivot").
Proof.
  split.
  - destruct (steps_after_the_end_of_a_plan_never_run (H := exampleHost)
                [stepOf "limit"] [stepOf "remove_rows"] (stepOf "visualize")
                salesData salesHeap) as [E _].
    + left. reflexivity.
    + simpl app in E. rewrite E. vm_compute. reflexivity.
  - destruct (steps_after_the_end_of_a_plan_never_run (H := exampleHost)
                [] [stepOf "limit"] (stepOf "pivot") salesData salesHeap) as [_ E].
    + right. reflexivity.
    + apply E. discriminate.
Defined.

(** ** What a transformation returns *)

Section ApplyResults.
Import Num Str Js.

Lemma rowCount_ok n h d xs mt :
  datasetAt n h d xs mt -> rowCount d h = (h, Ok (length xs)).
Proof.
  intros [a m rs Hd Ha Hm Hrs _ _ _ _]. unfold rowCount.
  rewrite (bind_ok _ _ _ _ _ (getData_ok _ _ _ _ Hd)).
  rewrite (bind_ok _ _ _ _ _ (getArray_ok _ _ _ Ha)).
  unfold mret, ST_ret. now rewrite (rowsAt_length _ _ _ Hrs).
Qed.

(** The type entry of the copy is set, and the result returned. *)
Lemma finish_ok n h d xs mt types update (message : string) :
  datasetAt n h d xs mt ->
  inferredTypes mt = Some types ->
  exists h',
    ('(m, _) ← metaOf d; _ ← setInferredType m update; mret (Success message d)) h
    = (h', Ok (Success message d))
    /\ datasetAt n h' d xs {| fields := fields mt;
                              inferredTypes := Some (update types) |}.
Proof.
  intros [a m rs Hd Ha Hm Hrs H1 H2 H3 H4] Ht.
  pose proof (lookup_lt_Some _ _ _ Hm) as Lm.
  assert (m <> d) as Hmd by (intros ->; congruence).
  assert (m <> a) as Hma by (intros ->; congruence).
  exists (<[m := Meta {| fields := fields mt;
                         inferredTypes := Some (update types) |}]> h).
  split.
  - assert (metaOf d h = (h, Ok (m, mt))) as Em.
    { unfold metaOf. rewrite (bind_ok _ _ _ _ _ (getData_ok _ _ _ _ Hd)).
      now rewrite (bind_ok _ _ _ _ _ (getMeta_ok _ _ _ Hm)). }
    rewrite (bind_ok _ _ _ _ _ Em). cbv beta iota.
    assert (setInferredType m update h
            = (<[m := Meta {| fields := fields mt;
                              inferredTypes := Some (update types) |}]> h, Ok tt)) as Es.
    { unfold setInferredType. rewrite (bind_ok _ _ _ _ _ (getMeta_ok _ _ _ Hm)).
      rewrite Ht. now apply store_ok. }
    now rewrite (bind_ok _ _ _ _ _ Es).
  - apply (DatasetAt _ _ _ _ _ a m rs); auto.
    + now rewrite list_lookup_insert_ne.
    + now rewrite list_lookup_insert_ne.
    + now apply list_lookup_insert_eq.
    + apply rowsAt_insert_other; [exact Hrs|].
      now apply (rowAt_None_of _ _ (Meta mt)).
Qed.

(** What the call leaves of the master, and where the copy is. *)
Lemma applyTransformation_keeps config h src ds h' result :
  view h src = Some ds ->
  applyTransformation config src h = (h', result) ->
  view h' src = Some ds /\ forall l o, h !! l = Some o -> h' !! l = Some o.
Proof.
  intros Hv E.
  destruct (applyTransformation_frame config h src ds Hv) as (h'' & r & E' & F).
  rewrite E in E'. inversion E'; subst h''. split; [now apply (view_frame h h')|].
  intros l o Hl. destruct F as [_ F]. rewrite F; [exact Hl|].
  now apply lookup_lt_Some in Hl.
Qed.

(** X16. A [remove_rows] transformation with a list of conditions
    succeeds.  Its new dataset is an object that did not exist before;
    its rows are the rows of the master, as JSON gives them back, that
    fail a condition, and its fields and inferred types are those of
    the master.  The message counts the rows that are gone.  The master
    itself is unchanged. *)
Theorem remove_rows_transformation_returns_the_kept_rows
    (config : Config.t) (h : heap) (sourceData : ref) (master : dataset)
    (conditions : list Condition.t) :
  view h sourceData = Some master ->
  Config.action config = "remove_rows" ->
  Config.conditions config = Some conditions ->
  let kept := List.filter (fun r => negb (forallb (checkCondition r) conditions))
                (map (fmap jsonValue) (data master)) in
  exists h' newData,
    applyTransformation config sourceData h
    = (h', Ok (Success ("Removed "
                        +:+ ofN (N.of_nat (length (data master) - length kept))
                        +:+ " row(s). " +:+ explanationOf config) newData))
    /\ (length h <= newData)%nat
    /\ view h' newData = Some {| data := kept; dmeta := dmeta master |}
    /\ view h' sourceData = Some master.
Proof.
  intros Hv Ha Hc kept. pose proof Hv as Hv0. apply view_datasetAt in Hv.
  destruct (deepCopy_datasetAt 0 h sourceData _ _ Hv) as (h1 & d1 & E & _ & Hd1).
  destruct (transformRemoveRows_spec _ _ _ _ _ conditions Hd1) as (h2 & E2 & _ & Hd2).
  assert (applyTransformation config sourceData h
          = (h2, Ok (Success ("Removed "
                        +:+ ofN (N.of_nat (length (data master) - length kept))
                        +:+ " row(s). " +:+ explanationOf config) d1))) as Eall.
  { unfold applyTransformation. rewrite (bind_ok _ _ _ _ _ E). cbv zeta.
    rewrite Ha, Hc. simpl String.eqb. cbv iota. unfold try.
    rewrite (bind_ok _ _ _ _ _ (rowCount_ok _ _ _ _ _ Hd1)).
    rewrite (bind_ok _ _ _ _ _ E2).
    rewrite (bind_ok _ _ _ _ _ (rowCount_ok _ _ _ _ _ Hd2)).
    unfold jsonRows. rewrite length_map. reflexivity. }
  exists h2, d1. split; [exact Eall|].
  split; [now destruct Hd1|].
  split; [exact (datasetAt_view _ _ _ _ _ Hd2)|].
  exact (proj1 (applyTransformation_keeps _ _ _ _ _ _ Hv0 Eall)).
Qed.

(** X17. A [create_column] transformation whose new column is not a
    field of the master succeeds when the master has inferred types.
    Its new dataset is an object that did not exist before: every row
    of the master, as JSON gives it back, with the new cell; the field
    list with the new name at its end; and the inferred types with the
    new column as numerical.  The master itself is unchanged. *)
Theorem create_column_transformation_returns_the_new_column
    (config : Config.t) (h : heap) (sourceData : ref) (master : dataset)
    (types : gmap string columnType) :
  view h sourceData = Some master ->
  Config.action config = "create_column" ->
  includesField (fields (dmeta master)) (Config.newColumn config) = false ->
  inferredTypes (dmeta master) = Some types ->
  exists h' newData,
    applyTransformation config sourceData h
    = (h', Ok (Success ("Created new column '" +:+ Config.newColumn config +:+ "'. "
                        +:+ explanationOf config) newData))
    /\ (length h <= newData)%nat
    /\ view h' newData
       = Some {| data :=
                   map (fun x : row =>
                          <[Config.newColumn config
                              := newColumnValue (Config.column1 config)
                                   (Config.operator config) (Config.column2 config) x]> x)
                       (map (fmap jsonValue) (data master));
                 dmeta := {| fields := fields (dmeta master) ++ [Config.newColumn config];
                             inferredTypes :=
                               Some (<[Config.newColumn config := numerical]> types) |} |}
    /\ view h' sourceData = Some master.
Proof.
  intros Hv Ha Hin Ht. pose proof Hv as Hv0. apply view_datasetAt in Hv.
  destruct (deepCopy_datasetAt 0 h sourceData _ _ Hv) as (h1 & d1 & E & _ & Hd1).
  destruct (metaOf_ok _ _ _ _ _ Hd1) as (m1 & Em1 & _).
  destruct (transformCreateColumn_spec _ _ _ _ _ (Config.newColumn config)
              (Config.column1 config) (Config.operator config) (Config.column2 config)
              Hd1) as (h2 & E2 & _ & Hd2).
  destruct (finish_ok _ _ _ _ _ types
              (fun types => <[Config.newColumn config := numerical]> types)
              ("Created new column '" +:+ Config.newColumn config +:+ "'. "
               +:+ explanationOf config) Hd2 Ht) as (h3 & E3 & Hd3).
  assert (applyTransformation config sourceData h
          = (h3, Ok (Success ("Created new column '" +:+ Config.newColumn config
                              +:+ "'. " +:+ explanationOf config) d1))) as Eall.
  { unfold applyTransformation. rewrite (bind_ok _ _ _ _ _ E). cbv zeta.
    rewrite Ha. simpl String.eqb. cbv iota. unfold try.
    rewrite (bind_ok _ _ _ _ _ Em1). cbv beta iota. rewrite Hin.
    rewrite (bind_ok _ _ _ _ _ E2). rewrite E3. reflexivity. }
  exists h3, d1. split; [exact Eall|].
  split; [now destruct Hd1|].
  split; [exact (datasetAt_view _ _ _ _ _ Hd3)|].
  exact (proj1 (applyTransformation_keeps _ _ _ _ _ _ Hv0 Eall)).
Qed.

(** X18. A [rename_column] transformation from a field of the master to
    a name that is no field succeeds when the master has inferred
    types.  Its new dataset is an object that did not exist before:
    every row of the master, as JSON gives it back, with the cell moved
    to the new name; the field list with the name replaced; and the
    inferred types with the type of the old column, if it had one,
    under the new name.  The master itself is unchanged. *)
Theorem rename_column_transformation_returns_the_renamed_column
    (config : Config.t) (h : heap) (sourceData : ref) (master : dataset)
    (types : gmap string columnType) :
  view h sourceData = Some master ->
  Config.action config = "rename_column" ->
  includesField (fields (dmeta master)) (Config.oldColumn config) = true ->
  includesField (fields (dmeta master)) (Config.newColumn config) = false ->
  inferredTypes (dmeta master) = Some types ->
  let oldColumn := Config.oldColumn config in
  let newColumn := Config.newColumn config in
  exists h' newData,
    applyTransformation config sourceData h
    = (h', Ok (Success ("Renamed column " +:+ dq +:+ oldColumn +:+ dq +:+ " to " +:+ dq
                        +:+ newColumn +:+ dq +:+ ". " +:+ explanationOf config) newData))
    /\ (length h <= newData)%nat
    /\ view h' newData
       = Some {| data := map (renameInRow oldColumn newColumn)
                             (map (fmap jsonValue) (data master));
                 dmeta := {| fields := renameInFields oldColumn newColumn
                                         (fields (dmeta master));
                             inferredTypes :=
                               Some (delete oldColumn
                                       (match types !! oldColumn with
                                        | Some ty => <[newColumn := ty]> types
                                        | None => delete newColumn types
                                        end)) |} |}
    /\ view h' sourceData = Some master.
Proof.
  intros Hv Ha Hold Hnew Ht oldColumn newColumn. subst oldColumn newColumn.
  pose proof Hv as Hv0. apply view_datasetAt in Hv.
  destruct (deepCopy_datasetAt 0 h sourceData _ _ Hv) as (h1 & d1 & E & _ & Hd1).
  destruct (metaOf_ok _ _ _ _ _ Hd1) as (m1 & Em1 & _).
  assert (datasetAt 0 h1 d1 (jsonRows (data master)) (dmeta master)) as Hd1'
    by (eapply datasetAt_le; [|exact Hd1]; lia).
  destruct (transformRenameColumn_rows _ _ _ _ (Config.oldColumn config)
              (Config.newColumn config) Hd1') as (h2 & E2 & Hd2).
  destruct (finish_ok _ _ _ _ _ types
              (fun types => delete (Config.oldColumn config)
                              (match types !! Config.oldColumn config with
                               | Some ty => <[Config.newColumn config := ty]> types
                               | None => delete (Config.newColumn config) types
                               end))
              ("Renamed column " +:+ dq +:+ Config.oldColumn config +:+ dq +:+ " to "
               +:+ dq +:+ Config.newColumn config +:+ dq +:+ ". "
               +:+ explanationOf config) Hd2 Ht)
    as (h3 & E3 & Hd3).
  assert (applyTransformation config sourceData h
          = (h3, Ok (Success ("Renamed column " +:+ dq +:+ Config.oldColumn config
                              +:+ dq +:+ " to " +:+ dq +:+ Config.newColumn config
                              +:+ dq +:+ ". " +:+ explanationOf config) d1))) as Eall.
  { unfold applyTransformation. rewrite (bind_ok _ _ _ _ _ E). cbv zeta.
    rewrite Ha. simpl String.eqb. cbv iota. unfold try.
    rewrite (bind_ok _ _ _ _ _ Em1). cbv beta iota. rewrite Hold, Hnew.
    change (negb true) with false. cbv iota.
    rewrite (bind_ok _ _ _ _ _ E2). rewrite E3. reflexivity. }
  exists h3, d1. split; [exact Eall|].
  split; [now destruct Hd1|].
  split; [exact (datasetAt_view _ _ _ _ _ Hd3)|].
  exact (proj1 (applyTransformation_keeps _ _ _ _ _ _ Hv0 Eall)).
Qed.

(** X19. [applyTransformation] refuses, with a message and without an
    exception, an action that is none of [remove_rows], [create_column]
    and [rename_column], a renaming of a column that is no field, and a
    renaming to a name that is a field already. *)
Theorem refused_transformations_name_their_reason
    (config : Config.t) (h : heap) (sourceData : ref) (master : dataset) :
  view h sourceData = Some master ->
  let action := Config.action config in
  let result := (applyTransformation config sourceData h).2 in
  (action <> "remove_rows" -> action <> "create_column" -> action <> "rename_column" ->
   result = Ok (Failure ("Unsupported transformation action: " +:+ action)))
  /\ (action = "rename_column" ->
      includesField (fields (dmeta master)) (Config.oldColumn config) = false ->
      result = Ok (Failure ("Column to rename " +:+ dq +:+ Config.oldColumn config
                            +:+ dq +:+ " does not exist.")))
  /\ (action = "rename_column" ->
      includesField (fields (dmeta master)) (Config.oldColumn config) = true ->
      includesField (fields (dmeta master)) (Config.newColumn config) = true ->
      result = Ok (Failure ("A column named " +:+ dq +:+ Config.newColumn config
                            +:+ dq +:+ " already exists."))).
Proof.
  intros Hv action result. apply view_datasetAt in Hv.
  destruct (deepCopy_datasetAt 0 h sourceData _ _ Hv) as (h1 & d1 & E & _ & Hd1).
  destruct (metaOf_ok _ _ _ _ _ Hd1) as (m1 & Em1 & _).
  unfold result, applyTransformation. rewrite (bind_ok _ _ _ _ _ E). cbv zeta.
  fold action. split; [|split].
  - intros H1 H2 H3. apply String.eqb_neq in H1, H2, H3. rewrite H1, H2, H3.
    reflexivity.
  - intros Ha Hold. rewrite Ha. simpl String.eqb. cbv iota. unfold try.
    rewrite (bind_ok _ _ _ _ _ Em1). cbv beta iota. now rewrite Hold.
  - intros Ha Hold Hnew. rewrite Ha. simpl String.eqb. cbv iota. unfold try.
    rewrite (bind_ok _ _ _ _ _ Em1). cbv beta iota. now rewrite Hold, Hnew.
Qed.

End ApplyResults.

Lemma remove_rows_transformation_witness :
  exists h' newData,
    applyTransformation (transformationOf "remove_rows" EmptyString EmptyString) 4
      (objects loadedWorld)
    = (h', Ok (Success "Removed 1 row(s). Transformation applied." newData))
    /\ view h' newData
       = Some {| data := [{[ "x" := VStr "b" ]}]; dmeta := dmeta loadedMaster |}
    /\ view h' 4 = Some loadedMaster.
Proof.
  destruct (remove_rows_transformation_returns_the_kept_rows
              (transformationOf "remove_rows" EmptyString EmptyString)
              (objects loadedWorld) 4 loadedMaster
              [ {| Condition.column := "x"; Condition.operator := "equals";
                   Condition.value := Some (VStr "a") |} ])
    as (h' & newData & E & _ & Hview & Hmaster).
  - vm_compute; reflexivity.
  - reflexivity.
  - reflexivity.
  - exists h', newData. split; [exact E|]. split; [|exact Hmaster].
    rewrite Hview. vm_compute; reflexivity.
Defined.

Lemma create_column_transformation_witness :
  exists h' newData,
    applyTransformation addColumn 4 (objects loadedWorld)
    = (h', Ok (Success "Created new column 'y'. Transformation applied." newData))
    /\ view h' newData
       = Some {| data := [ {[ "x" := VStr "a"; "y" := VNull ]};
                           {[ "x" := VStr "b"; "y" := VNull ]} ];
                 dmeta := {| fields := ["x"; "y"];
                             inferredTypes :=
                               Some {[ "x" := stringType; "y" := numerical ]} |} |}
    /\ view h' 4 = Some loadedMaster.
Proof.
  destruct (create_column_transformation_returns_the_new_column addColumn
              (objects loadedWorld) 4 loadedMaster {[ "x" := stringType ]})
    as (h' & newData & E & _ & Hview & Hmaster).
  - vm_compute; reflexivity.
  - reflexivity.
  - reflexivity.
  - reflexivity.
  - exists h', newData. split; [exact E|]. split; [|exact Hmaster].
    rewrite Hview. vm_compute; reflexivity.
Defined.

Lemma rename_column_transformation_witness :
  exists h' newData,
    applyTransformation (transformationOf "rename_column" "x" "z") 4
      (objects loadedWorld)
    = (h', Ok (Success ("Renamed column " +:+ dq +:+ "x" +:+ dq +:+ " to " +:+ dq
                        +:+ "z" +:+ dq +:+ ". Transformation applied.") newData))
    /\ view h' newData
       = Some {| data := [{[ "z" := VStr "a" ]}; {[ "z" := VStr "b" ]}];
                 dmeta := {| fields := ["z"];
                             inferredTypes := Some {[ "z" := stringType ]} |} |}
    /\ view h' 4 = Some loadedMaster.
Proof.
  destruct (rename_column_transformation_returns_the_renamed_column
              (transformationOf "rename_column" "x" "z")
              (objects loadedWorld) 4 loadedMaster {[ "x" := stringType ]})
    as (h' & newData & E & _ & Hview & Hmaster).
  - vm_compute; reflexivity.
  - reflexivity.
  - reflexivity.
  - reflexivity.
  - reflexivity.
  - exists h', newData. split; [exact E|]. split; [|exact Hmaster].
    rewrite Hview. vm_compute; reflexivity.
Defined.

Lemma refused_transformations_witness :
  (applyTransformation (transformationOf "pivot" EmptyString EmptyString) 4
     (objects loadedWorld)).2
  = Ok (Failure "Unsupported transformation action: pivot")
  /\ (applyTransformation (transformationOf "rename_column" "q" "z") 4
        (objects loadedWorld)).2
     = Ok (Failure ("Column to rename " +:+ dq +:+ "q" +:+ dq +:+ " does not exist.")).
Proof.
  split.
  - destruct (refused_transformations_name_their_reason
                (transformationOf "pivot" EmptyString EmptyString)
                (objects loadedWorld) 4 loadedMaster) as (E & _).
    { vm_compute; reflexivity. }
    apply E; discriminate.
  - destruct (refused_transformations_name_their_reason
                (transformationOf "rename_column" "q" "z")
                (objects loadedWorld) 4 loadedMaster) as (_ & E & _).
    { vm_compute; reflexivity. }
    apply E; reflexivity.
Defined.

(** ** Loading a file *)

Section Loading.
Context `{Host}.

(** Writing new rows over the rows of an array that holds no row
    object twice. *)
Lemma arrayForEach_store_rows rs :
  forall (ys : list row) h,
    NoDup rs -> length ys = length rs ->
    Forall (fun r => r < length h) rs ->
    exists h',
      arrayForEach (fun '(r, x) => store r (Row x)) (zip rs ys) h = (h', Ok tt)
      /\ length h' = length h
      /\ rowsAt h' rs = Some ys
      /\ (forall l, l ∉ rs -> h' !! l = h !! l).
Proof.
  induction rs as [|r rs IH]; intros ys h Hnd Hlen Hbound.
  - destruct ys; [|discriminate]. exists h. repeat split; auto.
  - destruct ys as [|y ys]; [discriminate|].
    apply NoDup_cons in Hnd as [Hr Hnd]. apply Forall_cons in Hbound as [Lr Hbound].
    set (h1 := <[r := Row y]> h).
    destruct (IH ys h1 Hnd) as (h' & E & Hl & Hrows & Hother).
    { simpl in Hlen. lia. }
    { unfold h1. eapply Forall_impl; [exact Hbound|]. intros l Hl.
      now rewrite length_insert. }
    exists h'. split; [|split; [|split]].
    + cbn [zip zip_with arrayForEach].
      rewrite (bind_ok _ _ _ _ _ (store_ok _ _ _ Lr)). exact E.
    + rewrite Hl. apply length_insert.
    + rewrite rowsAt_cons, Hrows. unfold rowAt. rewrite (Hother r Hr).
      unfold h1. now rewrite list_lookup_insert_eq by exact Lr.
    + intros l Hl'. apply not_elem_of_cons in Hl' as [Hne Hl'].
      rewrite (Hother l Hl'). unfold h1. now apply list_lookup_insert_ne.
Qed.

Lemma onHeap_run {A} (m : M A) (w : world) h' res :
  m (objects w) = (h', res) ->
  onHeap m w
  = ({| objects := h'; originalData := originalData w; activeData := activeData w;
        activeFilters := activeFilters w; stagedFilters := stagedFilters w;
        isFilteredState := isFilteredState w |}, res).
Proof. intros E. unfold onHeap. now rewrite E. Qed.

(** The heap after the parser has handed over its rows. *)
Lemma parsed_ok (rows : list row) (fieldNames : list string) (h : heap) :
  let n := length h in
  let k := length rows in
  let h0 := h ++ map Row rows
              ++ [RowArray (seq n k);
                  Meta {| fields := fieldNames; inferredTypes := None |};
                  Data (n + k) (n + k + 1)] in
  parsed rows fieldNames h = (h0, Ok (n + k + 2))
  /\ h0 !! (n + k + 2) = Some (Data (n + k) (n + k + 1))
  /\ h0 !! (n + k) = Some (RowArray (seq n k))
  /\ h0 !! (n + k + 1) = Some (Meta {| fields := fieldNames; inferredTypes := None |})
  /\ rowsAt h0 (seq n k) = Some rows
  /\ length h0 = n + k + 3.
Proof.
  intros n k h0. split; [|split; [|split; [|split; [|split]]]].
  - unfold parsed. rewrite (bind_ok _ _ _ _ _ (arrayMap_alloc _ _)).
    unfold mbind, ST_bind, alloc. simpl.
    rewrite !length_app, !length_map. simpl. fold n k. unfold h0.
    rewrite <- !app_assoc. simpl.
    replace (n + k + 1 + 1) with (n + k + 2) by lia. reflexivity.
  - unfold h0. rewrite lookup_app_r by (fold n; lia).
    rewrite lookup_app_r by (rewrite length_map; fold n k; lia).
    rewrite length_map. fold n k.
    replace (n + k + 2 - n - k) with 2 by lia. reflexivity.
  - unfold h0. rewrite lookup_app_r by (fold n; lia).
    rewrite lookup_app_r by (rewrite length_map; fold n k; lia).
    rewrite length_map. fold n k.
    replace (n + k - n - k) with 0 by lia. reflexivity.
  - unfold h0. rewrite lookup_app_r by (fold n; lia).
    rewrite lookup_app_r by (rewrite length_map; fold n k; lia).
    rewrite length_map. fold n k.
    replace (n + k + 1 - n - k) with 1 by lia. reflexivity.
  - apply rowsAt_fresh.
  - unfold h0. rewrite !length_app, length_map. simpl. fold n k. lia.
Qed.

(** X20. When the parser hands over its rows and fields, the session has
    a new dataset as both its master and its active view; its rows are
    the rows as [cleanAndNormalizeData] leaves them, its fields are the
    fields, and its inferred types are those of the cleaned rows.
    Nothing is thrown, no object of before is changed, and the active
    filters, the staged filters and the filtered-state flag stay as they
    were. *)
Theorem loading_sets_master_and_active_view
    (w : world) (rows : list row) (fieldNames : list string) :
  let cleaned := cleanAndNormalizeData rows fieldNames in
  let w' := (handle (FileParsed rows fieldNames) w).1 in
  (handle (FileParsed rows fieldNames) w).2 = Ok tt
  /\ exists results,
       originalData w' = Some results /\ activeData w' = Some results
       /\ length (objects w) <= results
       /\ view (objects w') results
          = Some {| data := cleaned;
                    dmeta := {| fields := fieldNames;
                                inferredTypes :=
                                  Some (inferColumnTypes cleaned fieldNames) |} |}
       /\ (forall l o, objects w !! l = Some o -> objects w' !! l = Some o)
       /\ activeFilters w' = activeFilters w
       /\ stagedFilters w' = stagedFilters w
       /\ isFilteredState w' = isFilteredState w.
Proof.
  intros cleaned w'.
  set (h := objects w). set (n := length h). set (k := length rows).
  destruct (parsed_ok rows fieldNames h) as (Ep & Hd & Ha & Hm & Hrs & Hlen0).
  fold n k in Ep, Hd, Ha, Hm, Hrs, Hlen0.
  set (h0 := h ++ map Row rows
               ++ [RowArray (seq n k);
                   Meta {| fields := fieldNames; inferredTypes := None |};
                   Data (n + k) (n + k + 1)]) in *.
  assert (length cleaned = k) as Hlc by apply cleanAndNormalizeData_length.
  destruct (arrayForEach_store_rows (seq n k) cleaned h0) as (h1 & Es & Hl1 & Hrows1 & Hother1).
  { apply NoDup_seq. }
  { now rewrite length_seq. }
  { apply Forall_forall. intros r Hr. apply list_elem_of_In, in_seq in Hr. lia. }
  assert (forall l, n + k <= l -> l ∉ seq n k) as Hout.
  { intros l Hl Hin. apply list_elem_of_In, in_seq in Hin. lia. }
  set (mt1 := {| fields := fieldNames;
                 inferredTypes := Some (inferColumnTypes cleaned fieldNames) |}).
  set (h2 := <[n + k + 1 := Meta mt1]> h1).
  assert (handle (FileParsed rows fieldNames) w
          = ({| objects := h2; originalData := Some (n + k + 2);
                activeData := Some (n + k + 2);
                activeFilters := activeFilters w; stagedFilters := stagedFilters w;
                isFilteredState := isFilteredState w |}, Ok tt)) as Eall.
  { unfold handle. rewrite (bind_ok _ _ _ _ _ (onHeap_run _ w _ _ Ep)).
    unfold handleSuccessfulParse.
    match goal with |- context [onHeap ?m] =>
      assert (m h0 = (h2, Ok tt)) as Hinner
    end.
    { rewrite (bind_ok _ _ _ _ _ (getData_ok _ _ _ _ Hd)). cbv beta iota.
      rewrite (bind_ok _ _ _ _ _ (getArray_ok _ _ _ Ha)).
      rewrite (bind_ok _ _ _ _ _ (getMeta_ok _ _ _ Hm)).
      rewrite (bind_ok _ _ _ _ _ (arrayMap_getRow _ _ _ Hrs)).
      cbv zeta. cbn [fields]. fold cleaned.
      rewrite (bind_ok _ _ _ _ _ Es). fold mt1.
      apply store_ok. lia. }
    match goal with |- (onHeap ?m ≫= _) ?w0 = _ =>
      rewrite (bind_ok _ _ _ _ _ (onHeap_run m w0 h2 (Ok tt) Hinner))
    end.
    reflexivity. }
  unfold w'. rewrite Eall. cbn [fst snd objects originalData activeData activeFilters
                                    stagedFilters isFilteredState].
  split; [reflexivity|]. exists (n + k + 2).
  split; [reflexivity|]. split; [reflexivity|]. split; [fold h n; lia|].
  assert (h2 !! (n + k + 2) = Some (Data (n + k) (n + k + 1))) as Hd2.
  { unfold h2. rewrite list_lookup_insert_ne by lia.
    rewrite Hother1 by (apply Hout; lia). exact Hd. }
  assert (h2 !! (n + k) = Some (RowArray (seq n k))) as Ha2.
  { unfold h2. rewrite list_lookup_insert_ne by lia.
    rewrite Hother1 by (apply Hout; lia). exact Ha. }
  assert (h2 !! (n + k + 1) = Some (Meta mt1)) as Hm2.
  { unfold h2. apply list_lookup_insert_eq. lia. }
  assert (rowsAt h2 (seq n k) = Some cleaned) as Hrs2.
  { unfold h2. apply rowsAt_insert_other; [exact Hrows1|].
    apply (rowAt_None_of _ _ (Meta {| fields := fieldNames; inferredTypes := None |}));
      [|exact I].
    rewrite Hother1 by (apply Hout; lia). exact Hm. }
  split.
  { unfold view. now rewrite Hd2, Ha2, Hm2, Hrs2. }
  split; [|auto].
  intros l o Hl. pose proof (lookup_lt_Some _ _ _ Hl) as Ll. fold h n in Hl, Ll.
  unfold h2. rewrite list_lookup_insert_ne by lia.
  rewrite Hother1.
  - unfold h0. now apply lookup_app_l_Some.
  - intros Hin. apply list_elem_of_In, in_seq in Hin. lia.
Qed.

End Loading.

Lemma filteredView_view h master ds filters :
  view h master = Some ds ->
  exists h' v,
    filteredView filters master h = (h', Ok v)
    /\ view h' v
       = Some {| data := List.filter
                           (fun x => forallb (fun f => matchesFilter f x) filters)
                           (data ds);
                 dmeta := dmeta ds |}
    /\ (forall l o, h !! l = Some o -> h' !! l = Some o)
    /\ length h <= v.
Proof.
  intros Hv. apply view_datasetAt in Hv as [a m rs Hd Ha Hm Hrs _ _ _ _].
  destruct (filteredView_spec filters _ _ _ _ _ _ _ Hd Ha Hm Hrs)
    as (ext & a' & rs' & E & Ha' & _ & Hrows & _).
  exists (h ++ ext ++ [Data a' m]), (length (h ++ ext)). split; [exact E|].
  assert ((h ++ ext ++ [Data a' m]) !! length (h ++ ext) = Some (Data a' m)) as Hd'.
  { rewrite app_assoc. apply list_lookup_middle, eq_refl. }
  assert (forall l o, (h ++ ext) !! l = Some o ->
                      (h ++ ext ++ [Data a' m]) !! l = Some o) as Hext.
  { intros l o Hl. rewrite app_assoc. now apply lookup_app_l_Some. }
  split; [|split; [intros l o Hl; now apply lookup_app_l_Some|rewrite length_app; lia]].
  unfold view. rewrite Hd', (Hext _ _ Ha').
  rewrite (Hext m (Meta (dmeta ds))) by now apply lookup_app_l_Some.
  rewrite app_assoc, (rowsAt_app _ _ _ _ Hrows). reflexivity.
Qed.

(** A dataset stays what it is when every object of before does. *)
Lemma view_extends h h1 d ds :
  view h d = Some ds -> (forall l o, h !! l = Some o -> h1 !! l = Some o) ->
  view h1 d = Some ds.
Proof.
  intros Hv F.
  pose proof (view_datasetAt _ _ _ Hv) as [a m rs Hd Harr Hm Hrs _ _ _ _].
  unfold view. rewrite (F _ _ Hd), (F _ _ Harr), (F _ _ Hm).
  assert (rowsAt h1 rs = Some (data ds)) as ->; [|now destruct ds].
  rewrite <- Hrs. apply rowsAt_same. intros r Hr.
  apply rowsAt_Forall in Hrs. rewrite Forall_forall in Hrs.
  destruct (Hrs r Hr) as [x Hx]. unfold rowAt in Hx |- *.
  destruct (h !! r) as [o|] eqn:El; [|discriminate].
  now rewrite (F _ _ El).
Qed.

(** Updating the side bar for a dataset returns. *)
Lemma updateSidebarStats_view d ds w :
  view (objects w) d = Some ds -> updateSidebarStats (Some d) w = (w, Ok tt).
Proof.
  intros Hv. apply view_datasetAt in Hv as [a m rs Hd Ha Hm _ _ _ _ _].
  unfold updateSidebarStats.
  rewrite (onHeap_run _ w (objects w) (Ok tt)); [now destruct w|].
  rewrite (bind_ok _ _ _ _ _ (getData_ok _ _ _ _ Hd)). cbv beta iota.
  rewrite (bind_ok _ _ _ _ _ (getMeta_ok _ _ _ Hm)). reflexivity.
Qed.

Lemma handleClearFilters_run w :
  handleClearFilters w
  = updateSidebarStats (originalData w)
      (setActiveData (originalData w) false (setActiveFilters [] w)).
Proof. reflexivity. Qed.

(** ** Transformations that are not applied *)

Section NotApplied.
Context `{Host}.

(** X21. [handleTransformation] never throws.  Unless it reports the
    transformation as applied, the master, the active view, the active
    filters and the filtered-state flag of the session are what they
    were; the staged filters are what they were in every case.  An
    [error] answer of the assistant changes nothing at all, and so does
    any answer when no file is loaded. *)
Theorem transformations_not_applied_keep_the_session
    (w : world) (config : Config.t) :
  let w' := (handleTransformation config w).1 in
  (exists outcome, (handleTransformation config w).2 = Ok outcome)
  /\ stagedFilters w' = stagedFilters w
  /\ ((forall message, (handleTransformation config w).2 <> Ok (Transformed message)) ->
      originalData w' = originalData w /\ activeData w' = activeData w
      /\ activeFilters w' = activeFilters w
      /\ isFilteredState w' = isFilteredState w)
  /\ (Config.action config = "error" ->
      handleTransformation config w
      = (w, Ok (NotApplied (default "undefined" (Config.explanation config)))))
  /\ (originalData w = None -> w' = w).
Proof.
  intros w'. unfold w'. clear w'.
  unfold handleTransformation, try, get, modify, mbind, ST_bind.
  destruct (String.eqb (Config.action config) "error") eqn:Ee.
  { simpl. split; [eauto|]. split; [reflexivity|]. split; [auto|].
    split; [reflexivity|]. reflexivity. }
  assert (Config.action config <> "error") as Hne by now apply String.eqb_neq.
  simpl. destruct (originalData w) as [o|] eqn:Eo; simpl.
  - unfold onHeap. destruct (applyTransformation config o (objects w))
      as [h1 [[message newData|message]|e]]; simpl.
    + destruct (activeFilters w) as [|f fs] eqn:Ef; simpl; rewrite ?Ef; simpl.
      * split; [eauto|]. split; [reflexivity|]. split; [|split; [congruence|discriminate]].
        intros Hno. now destruct (Hno message).
      * split; [eauto|]. split; [reflexivity|]. split; [|split; [congruence|discriminate]].
        intros Hno. now destruct (Hno message).
    + split; [eauto|]. split; [reflexivity|]. split; [auto|].
      split; [congruence|discriminate].
    + split; [eauto|]. split; [reflexivity|]. split; [auto|].
      split; [congruence|discriminate].
  - split; [eauto|]. split; [reflexivity|]. split; [auto|].
    split; [congruence|]. intros _. now destruct w.
Qed.

(** ** Filters *)

(** X22. [handleClearFilters] changes no object: after it there is no
    active filter, the active view is the master object (or nothing,
    when no file is loaded), and the filtered-state flag is cleared; the
    staged filters stay.  With no file loaded it throws a [TypeError]
    once it has done so, when [updateSidebarStats] reads the rows of
    [null].  In a session with a master it returns, and applying the
    staged filters and then clearing the filters throws nothing and
    leaves the master as the active view, unchanged, with no filter,
    the flag cleared, and every object of before as it was. *)
Theorem clearing_the_filters_shows_the_master (w : world) :
  (let w' := (handleClearFilters w).1 in
   activeFilters w' = []
   /\ activeData w' = originalData w
   /\ originalData w' = originalData w
   /\ isFilteredState w' = false
   /\ stagedFilters w' = stagedFilters w
   /\ objects w' = objects w)
  /\ (originalData w = None -> (handleClearFilters w).2 = Throw TypeError)
  /\ (forall master ds,
        originalData w = Some master ->
        view (objects w) master = Some ds ->
        let w1 := (handleApplyStagedFilters w).1 in
        let w2 := (handleClearFilters w1).1 in
        (handleClearFilters w).2 = Ok tt
        /\ (handleApplyStagedFilters w).2 = Ok tt
        /\ (handleClearFilters w1).2 = Ok tt
        /\ originalData w2 = Some master /\ activeData w2 = Some master
        /\ activeFilters w2 = [] /\ stagedFilters w2 = []
        /\ isFilteredState w2 = false
        /\ view (objects w2) master = Some ds
        /\ (forall l o, objects w !! l = Some o -> objects w2 !! l = Some o)).
Proof.
  split; [|split].
  { rewrite handleClearFilters_run, updateSidebarStats_state. simpl.
    repeat split; reflexivity. }
  { intros Ho. rewrite handleClearFilters_run, Ho. reflexivity. }
  intros master ds Ho Hv w1 w2.
  assert (forall w0,
            originalData w0 = Some master ->
            (forall l o, objects w !! l = Some o -> objects w0 !! l = Some o) ->
            handleClearFilters w0
            = (setActiveData (Some master) false (setActiveFilters [] w0), Ok tt))
    as Hclear.
  { intros w0 Ho0 F0. rewrite handleClearFilters_run, Ho0.
    apply (updateSidebarStats_view master ds). simpl.
    exact (view_extends _ _ _ _ Hv F0). }
  assert (exists h1 active flag,
            handleApplyStagedFilters w
            = ({| objects := h1; originalData := Some master; activeData := active;
                  activeFilters := firstOccurrences []
                                     (activeFilters w ++ stagedFilters w);
                  stagedFilters := []; isFilteredState := flag |}, Ok tt)
            /\ (forall l o, objects w !! l = Some o -> h1 !! l = Some o)) as Happly.
  { unfold handleApplyStagedFilters, applyFilters, get, modify, mbind, ST_bind. simpl.
    destruct (firstOccurrences [] (activeFilters w ++ stagedFilters w))
      as [|f fs] eqn:Ef; simpl; rewrite ?Ef, Ho; simpl.
    - exists (objects w), (Some master), false. split; [|auto].
      rewrite (updateSidebarStats_view master ds) by exact Hv.
      unfold setActiveData, setStagedFilters, setActiveFilters. simpl. now rewrite Ho.
    - destruct (filteredView_view (objects w) master ds (f :: fs) Hv)
        as (h' & v & E & Hv' & F & _).
      unfold onHeap. simpl. rewrite E. simpl.
      exists h', (Some v), true. split; [|exact F].
      erewrite updateSidebarStats_view by exact Hv'.
      unfold setActiveData. simpl. now rewrite ?Ef, ?Ho. }
  destruct Happly as (h1 & active & flag & E1 & F).
  split; [now rewrite (Hclear w Ho (fun l o Hl => Hl))|].
  unfold w2, w1. rewrite E1. cbn [fst snd].
  match goal with |- context [handleClearFilters ?w0] =>
    rewrite (Hclear w0 eq_refl F) end.
  simpl.
  repeat (split; [reflexivity|]). split; [|exact F].
  exact (view_extends _ _ _ _ Hv F).
Qed.

End NotApplied.

Lemma forallb_same {A} (p : A -> bool) (l1 l2 : list A) :
  (forall x, x ∈ l1 <-> x ∈ l2) -> forallb p l1 = forallb p l2.
Proof.
  intros Hsame. apply eq_true_iff_eq. rewrite !forallb_forall.
  split; intros Hall x Hx; apply Hall; apply list_elem_of_In;
    apply list_elem_of_In in Hx; now apply Hsame.
Qed.

(** X23. The view that [applyFilters] makes of the master holds the rows
    that pass every active filter, in the order of the master, and so
    it does not depend on the order in which the filters were applied
    nor on a filter being applied twice: two filter lists with the same
    members give views with the same rows and metadata. *)
Theorem the_filtered_view_ignores_the_order_of_the_filters
    (h : heap) (master : ref) (ds : dataset) (filters1 filters2 : list Filter.t) :
  view h master = Some ds ->
  (forall f, f ∈ filters1 <-> f ∈ filters2) ->
  exists h1 v1 h2 v2,
    filteredView filters1 master h = (h1, Ok v1)
    /\ filteredView filters2 master h = (h2, Ok v2)
    /\ view h1 v1
       = Some {| data := List.filter
                           (fun x => forallb (fun f => matchesFilter f x) filters1)
                           (data ds);
                 dmeta := dmeta ds |}
    /\ view h2 v2 = view h1 v1.
Proof.
  intros Hv Hsame.
  destruct (filteredView_view h master ds filters1 Hv) as (h1 & v1 & E1 & V1 & _ & _).
  destruct (filteredView_view h master ds filters2 Hv) as (h2 & v2 & E2 & V2 & _ & _).
  exists h1, v1, h2, v2. split; [exact E1|]. split; [exact E2|].
  split; [exact V1|]. rewrite V1, V2. f_equal. f_equal.
  apply List.filter_ext. intros x. symmetry. now apply forallb_same.
Qed.

Lemma filtered_view_order_witness :
  let f := {| Filter.column := "g"; Filter.value := "A" |} in
  let g := {| Filter.column := "v"; Filter.value := "20" |} in
  exists h1 v1 h2 v2,
    filteredView [f; g] salesData salesHeap = (h1, Ok v1)
    /\ filteredView [g; f; g] salesData salesHeap = (h2, Ok v2)
    /\ view h1 v1
       = Some {| data := [ {[ "g" := VStr "A"; "v" := VStr "20" ]} ];
                 dmeta := {| fields := ["g"; "v"]; inferredTypes := None |} |}
    /\ view h2 v2 = view h1 v1.
Proof.
  intros f g.
  destruct (the_filtered_view_ignores_the_order_of_the_filters salesHeap salesData
              {| data := salesRows;
                 dmeta := {| fields := ["g"; "v"]; inferredTypes := None |} |}
              [f; g] [g; f; g]) as (h1 & v1 & h2 & v2 & E1 & E2 & V1 & V2).
  - vm_compute; reflexivity.
  - intros x. rewrite !elem_of_cons. tauto.
  - exists h1, v1, h2, v2. split; [exact E1|]. split; [exact E2|].
    split; [rewrite V1; vm_compute; reflexivity|exact V2].
Defined.

(** ** From a double click to the filtered view *)

Section ClickToFilter.
Context `{Host}.


End ClickToFilter.


(** ** The names of exported files *)

Section ExportFacts.
Import Str.

Lemma lower_underscored_plain c :
  isPlain (lowerChar (if isAlphanumeric c then c else "_"%char)) = true.
Proof.
  assert (forallb (fun n =>
            isPlain (lowerChar (if isAlphanumeric (ascii_of_nat n)
                                then ascii_of_nat n else "_"%char)))
            (seq 0 256) = true) as Htable by (vm_compute; reflexivity).
  rewrite forallb_forall in Htable.
  rewrite <- (ascii_nat_embedding c). apply Htable, in_seq.
  pose proof (nat_ascii_bounded c). lia.
Qed.

Lemma plain_fixed c :
  isPlain c = true -> lowerChar (if isAlphanumeric c then c else "_"%char) = c.
Proof.
  assert (forallb (fun n =>
            implb (isPlain (ascii_of_nat n))
                  (Ascii.eqb (lowerChar (if isAlphanumeric (ascii_of_nat n)
                                         then ascii_of_nat n else "_"%char))
                             (ascii_of_nat n)))
            (seq 0 256) = true) as Htable by (vm_compute; reflexivity).
  rewrite forallb_forall in Htable. intros Hp.
  assert (In (nat_of_ascii c) (seq 0 256)) as Hin.
  { apply in_seq. pose proof (nat_ascii_bounded c). lia. }
  specialize (Htable _ Hin). rewrite ascii_nat_embedding, Hp in Htable.
  now apply Ascii.eqb_eq.
Qed.

Lemma sanitized_chars t :
  forallb isPlain (list_ascii_of_string (toLowerCase (underscored t))) = true.
Proof.
  induction t as [|c t IH]; simpl; [reflexivity|].
  now rewrite lower_underscored_plain, IH.
Qed.

(** X25. The name under which [exportChart] offers a chart is made of
    lower-case letters, digits and underscores only, before its
    extension; it has one character for each character of the title,
    and the same letters and digits at the same places, in lower case.
    A title made of such characters is kept, and a missing or empty
    title gives [chart]. *)
Theorem chart_file_names_are_plain (title : option string) :
  forallb isPlain (list_ascii_of_string (sanitizedTitle title)) = true
  /\ chartFileName title = sanitizedTitle title +:+ ".png"
  /\ (forall t, title = Some t -> t <> EmptyString ->
        String.length (sanitizedTitle title) = String.length t
        /\ (forallb isPlain (list_ascii_of_string t) = true ->
            sanitizedTitle title = t)
        /\ sanitizedTitle (Some (sanitizedTitle title)) = sanitizedTitle title)
  /\ sanitizedTitle None = "chart"
  /\ sanitizedTitle (Some EmptyString) = "chart".
Proof.
  split; [|split; [reflexivity|split; [|split; reflexivity]]].
  - unfold sanitizedTitle. destruct title as [t|]; [|reflexivity].
    destruct (isEmpty t); [reflexivity|apply sanitized_chars].
  - intros t -> Ht. unfold sanitizedTitle.
    assert (isEmpty t = false) as -> by (destruct t; [congruence|reflexivity]).
    assert (forall s, forallb isPlain (list_ascii_of_string s) = true ->
                      toLowerCase (underscored s) = s) as Hfixed.
    { induction s as [|c s IH]; simpl; [reflexivity|].
      intros Hs. apply andb_true_iff in Hs as [Hc Hs].
      now rewrite (plain_fixed c Hc), (IH Hs). }
    split; [|split].
    + clear Ht Hfixed. induction t as [|c t IH]; simpl; [reflexivity|]. now rewrite IH.
    + apply Hfixed.
    + assert (isEmpty (toLowerCase (underscored t)) = false) as ->
        by (destruct t; [congruence|reflexivity]).
      apply Hfixed, sanitized_chars.
Qed.

Lemma append_empty (s : string) : EmptyString +:+ s = s.
Proof. reflexivity. Qed.

Lemma append_String c (s t : string) : String c s +:+ t = String c (s +:+ t).
Proof. reflexivity. Qed.

Lemma length_appended (s t : string) :
  String.length (s +:+ t) = String.length s + String.length t.
Proof.
  induction s as [|c s IH]; [reflexivity|].
  rewrite append_String. cbn [String.length]. now rewrite IH.
Qed.

Lemma stripExtension_none (name : string) :
  (forall base, name <> base +:+ ".csv" /\ name <> base +:+ ".xlsx"
                /\ name <> base +:+ ".xls") ->
  stripExtension name = name.
Proof.
  induction name as [|c r IH]; intros Hno; [reflexivity|].
  cbn [stripExtension].
  destruct (Hno EmptyString) as (H1 & H2 & H3). rewrite append_empty in H1, H2, H3.
  apply String.eqb_neq in H1, H2, H3. rewrite H1, H2, H3. simpl.
  f_equal. apply IH. intros base. destruct (Hno (String c base)) as (G1 & G2 & G3).
  rewrite append_String in G1, G2, G3. repeat split; congruence.
Qed.

Lemma stripExtension_some (base ext : string) :
  ext = ".csv" \/ ext = ".xlsx" \/ ext = ".xls" ->
  stripExtension (base +:+ ext) = base.
Proof.
  intros Hext. induction base as [|c b IH].
  - rewrite append_empty. destruct Hext as [->|[->| ->]]; reflexivity.
  - rewrite append_String. cbn [stripExtension]. rewrite IH.
    assert (forall e, e = ".csv" \/ e = ".xlsx" \/ e = ".xls" ->
                      String.eqb (String c (b +:+ ext)) e = false) as Hne.
    { intros e He. apply String.eqb_neq. intros E.
      pose proof (f_equal String.length E) as El. cbn [String.length] in El.
      rewrite length_appended in El.
      destruct b as [|c1 b1].
      - rewrite append_empty in E.
        destruct Hext as [->|[->| ->]], He as [->|[->| ->]]; discriminate.
      - cbn [String.length] in El.
        destruct Hext as [->|[->| ->]], He as [->|[->| ->]];
          cbn [String.length] in El; lia. }
    rewrite !Hne by auto. reflexivity.
Qed.

(** X26. The name under which the data is exported is the text of the
    file name element without a final [.csv], [.xlsx] or [.xls],
    followed by [_transformed.csv] or [_transformed.xlsx]; a text that
    ends in none of the three is kept whole, only the last extension is
    removed, and a missing or empty text gives [data_export]. *)
Theorem exported_data_is_named_after_the_file (base : string) :
  csvFileName (Some (base +:+ ".csv")) = base +:+ "_transformed.csv"
  /\ csvFileName (Some (base +:+ ".xlsx")) = base +:+ "_transformed.csv"
  /\ csvFileName (Some (base +:+ ".xls")) = base +:+ "_transformed.csv"
  /\ excelFileName (Some (base +:+ ".csv")) = base +:+ "_transformed.xlsx"
  /\ excelFileName (Some (base +:+ ".xlsx")) = base +:+ "_transformed.xlsx"
  /\ excelFileName (Some (base +:+ ".xls")) = base +:+ "_transformed.xlsx"
  /\ ((forall b, base <> b +:+ ".csv" /\ base <> b +:+ ".xlsx" /\ base <> b +:+ ".xls") ->
      base <> EmptyString ->
      csvFileName (Some base) = base +:+ "_transformed.csv"
      /\ excelFileName (Some base) = base +:+ "_transformed.xlsx")
  /\ csvFileName None = "data_export_transformed.csv"
  /\ csvFileName (Some EmptyString) = "data_export_transformed.csv".
Proof.
  assert (forall ext, ext = ".csv" \/ ext = ".xlsx" \/ ext = ".xls" ->
                      exportBaseName (Some (base +:+ ext)) = base) as Hbase.
  { intros ext Hext. unfold exportBaseName.
    assert (isEmpty (base +:+ ext) = false) as ->.
    { destruct base; [|reflexivity]. destruct Hext as [->|[->| ->]]; reflexivity. }
    now apply stripExtension_some. }
  unfold csvFileName, excelFileName.
  rewrite !Hbase by auto.
  repeat (split; [reflexivity|]). split; [|split; reflexivity].
  intros Hno Hne. unfold exportBaseName.
  assert (isEmpty base = false) as -> by (destruct base; [congruence|reflexivity]).
  rewrite (stripExtension_none base Hno). split; reflexivity.
Qed.

End ExportFacts.
